(** * Closed queueing network simulation: a shallow embedding

    The development follows [closed_queuing_network.py]: the event record
    and its ordering, the binary heap the engine keeps its pending events
    in ([heapq]), the [Station] state machine, the [ClosedQueueingNetwork]
    engine with its arrival and departure handlers, and the [run] loop
    with its warmup reset.

    Modelling conventions.
    - Python [float] times and durations are exact rationals ([Q]); the
      comparisons of the source ([<], [>=], [== 0]) are the boolean
      comparisons of [Q].  Rounding, infinities and NaN are out of the model.
    - Python [int] counters are [Z]; list positions and station indices are
      [nat] (the source only produces non-negative indices).
    - A Python exception is the [Raise] case of [result].
    - Objects mutated in place (a station held in [self.stations], a job
      held in [self.jobs]) are written back into their container at the end
      of the method that mutates them.
    - The process-wide NumPy generator is an explicit state of an abstract
      type, accessed through the class [RandomSource]. *)

From Stdlib Require Import QArith Qabs Lqa ZifyNat.
From stdpp Require Import base numbers list gmap strings pretty.

Ltac Zify.zify_post_hook ::= Z.to_euclidean_division_equations.

(* The set and first-order solvers clear hypotheses that are already gone. *)
Set Warnings "-clear-no-such-hyp".

(** ** Exceptions *)

Inductive exn := ValueError | IndexError | KeyError.

Inductive result (A : Type) :=
  | Ok (a : A)
  | Raise (e : exn).
Arguments Ok {A} a.
Arguments Raise {A} e.

#[global] Instance result_ret : MRet result := fun A a => Ok a.
#[global] Instance result_bind : MBind result := fun A B f m =>
  match m with
  | Ok a => f a
  | Raise e => Raise e
  end.

Definition from_option {A} (e : exn) (o : option A) : result A :=
  match o with
  | Some a => Ok a
  | None => Raise e
  end.

(** ** Comparisons of times *)

Definition Qlt_bool (a b : Q) : bool := negb (Qle_bool b a).

(** ** The random source

    [np_random_seed s] is the generator state [np.random.seed(s)] installs
    (it replaces the previous state, and rejects a seed NumPy does not
    accept); [np_random_exponential scale] and [np_random_choice n p] draw
    from the current state and return the next one. *)

Class RandomSource (RNG : Type) := {
  np_random_seed : Z → result RNG;
  np_random_exponential : Q → RNG → result (Q * RNG);
  np_random_choice : nat → list Q → RNG → result (nat * RNG);
}.

(** ** Events *)

Inductive EventType := ARRIVAL | DEPARTURE.

#[global] Instance EventType_eq_dec : EqDecision EventType.
Proof. solve_decision. Defined.

Module Event.
Record t := mk {
  time : Q;
  event_type : EventType;
  job_id : Z;
  station_id : nat;
}.

(** [@dataclass(order=True)] with every field but [time] declared
    [compare=False]: events are ordered by [time] alone. *)
Definition lt (a b : t) : bool := Qlt_bool (time a) (time b).
End Event.

(** ** The binary heap of [heapq] *)

Module heapq.

(** The [while pos > startpos] loop of [_siftdown]; [pos] iterations are
    enough since every iteration moves [pos] to its parent. *)
Fixpoint _siftdown_loop (fuel : nat) (heap : list Event.t)
    (startpos pos : nat) (newitem : Event.t) : list Event.t :=
  match fuel with
  | O => <[pos := newitem]> heap
  | S fuel' =>
      if decide (startpos < pos) then
        let parentpos := (pos - 1) / 2 in          (* (pos - 1) >> 1 *)
        match heap !! parentpos with
        | Some parent =>
            if Event.lt newitem parent
            then _siftdown_loop fuel' (<[pos := parent]> heap)
                                startpos parentpos newitem
            else <[pos := newitem]> heap
        | None => <[pos := newitem]> heap
        end
      else <[pos := newitem]> heap
  end.

Definition _siftdown (heap : list Event.t) (startpos pos : nat)
    : list Event.t :=
  match heap !! pos with
  | Some newitem => _siftdown_loop pos heap startpos pos newitem
  | None => heap
  end.

(** The index of the smaller child of the node whose left child is
    [childpos]: the right one unless the left one is strictly smaller. *)
Definition smaller_child (heap : list Event.t) (endpos childpos : nat)
    : nat :=
  let rightpos := childpos + 1 in
  if decide (rightpos < endpos) then
    match heap !! childpos, heap !! rightpos with
    | Some l, Some r => if negb (Event.lt l r) then rightpos else childpos
    | _, _ => childpos
    end
  else childpos.

(** The [while childpos < endpos] loop of [_siftup]: the smaller child
    moves up until the hole reaches a leaf.  Returns the heap and the
    position of the hole. *)
Fixpoint _siftup_loop (fuel : nat) (heap : list Event.t)
    (endpos pos : nat) : list Event.t * nat :=
  match fuel with
  | O => (heap, pos)
  | S fuel' =>
      let childpos := 2 * pos + 1 in
      if decide (childpos < endpos) then
        let childpos := smaller_child heap endpos childpos in
        match heap !! childpos with
        | Some child =>
            _siftup_loop fuel' (<[pos := child]> heap) endpos childpos
        | None => (heap, pos)
        end
      else (heap, pos)
  end.

Definition _siftup (heap : list Event.t) (pos : nat) : list Event.t :=
  let endpos := length heap in
  let startpos := pos in
  match heap !! pos with
  | Some newitem =>
      let '(heap, pos) := _siftup_loop endpos heap endpos pos in
      _siftdown (<[pos := newitem]> heap) startpos pos
  | None => heap
  end.

Definition heappush (heap : list Event.t) (item : Event.t)
    : list Event.t :=
  let heap := heap ++ [item] in
  _siftdown heap 0 (length heap - 1).

(** [None] is the [IndexError] of popping an empty list. *)
Definition heappop (heap : list Event.t)
    : option (Event.t * list Event.t) :=
  match last heap with
  | None => None
  | Some lastelt =>
      match removelast heap with
      | [] => Some (lastelt, [])
      | returnitem :: rest =>
          Some (returnitem, _siftup (lastelt :: rest) 0)
      end
  end.

End heapq.

(** ** Jobs *)

Module Job.
Record t := mk {
  job_id : Z;
  arrival_time : Q;
  completion_time : Q;
  station_visits : list (nat * Q * Q);
}.

Definition append_visit (visit : nat * Q * Q) (job : t) : t :=
  mk (job_id job) (arrival_time job) (completion_time job)
     (station_visits job ++ [visit]).

Definition cycle_time (job : t) : Q :=
  if Qlt_bool 0 (completion_time job)
  then (completion_time job - arrival_time job)%Q
  else 0%Q.
End Job.

(** ** Stations *)

Module Station.
Record t := mk {
  station_id : nat;
  num_servers : Z;
  mean_service_time : Q;
  name : string;
  queue : list Z;
  servers_busy : Z;
  total_arrivals : Z;
  total_departures : Z;
  total_queue_time : Q;
  total_service_time : Q;
  queue_length_sum : Q;
  last_update_time : Q;
}.

Definition set_queue (v : list Z) (s : t) : t :=
  mk (station_id s) (num_servers s) (mean_service_time s) (name s)
     v (servers_busy s) (total_arrivals s) (total_departures s)
     (total_queue_time s) (total_service_time s) (queue_length_sum s)
     (last_update_time s).
Definition set_servers_busy (v : Z) (s : t) : t :=
  mk (station_id s) (num_servers s) (mean_service_time s) (name s)
     (queue s) v (total_arrivals s) (total_departures s)
     (total_queue_time s) (total_service_time s) (queue_length_sum s)
     (last_update_time s).
Definition set_total_arrivals (v : Z) (s : t) : t :=
  mk (station_id s) (num_servers s) (mean_service_time s) (name s)
     (queue s) (servers_busy s) v (total_departures s)
     (total_queue_time s) (total_service_time s) (queue_length_sum s)
     (last_update_time s).
Definition set_total_departures (v : Z) (s : t) : t :=
  mk (station_id s) (num_servers s) (mean_service_time s) (name s)
     (queue s) (servers_busy s) (total_arrivals s) v
     (total_queue_time s) (total_service_time s) (queue_length_sum s)
     (last_update_time s).
Definition set_total_service_time (v : Q) (s : t) : t :=
  mk (station_id s) (num_servers s) (mean_service_time s) (name s)
     (queue s) (servers_busy s) (total_arrivals s) (total_departures s)
     (total_queue_time s) v (queue_length_sum s) (last_update_time s).
Definition set_queue_length_sum (v : Q) (s : t) : t :=
  mk (station_id s) (num_servers s) (mean_service_time s) (name s)
     (queue s) (servers_busy s) (total_arrivals s) (total_departures s)
     (total_queue_time s) (total_service_time s) v (last_update_time s).
Definition set_last_update_time (v : Q) (s : t) : t :=
  mk (station_id s) (num_servers s) (mean_service_time s) (name s)
     (queue s) (servers_busy s) (total_arrivals s) (total_departures s)
     (total_queue_time s) (total_service_time s) (queue_length_sum s) v.

(** [name or f"Station_{station_id}"]: an absent or empty name gives the
    default one. *)
Definition init (station_id : nat) (num_servers : Z)
    (mean_service_time : Q) (name : option string) : t :=
  let name :=
    match name with
    | Some n => if decide (n = "") then "Station_" +:+ pretty station_id
                else n
    | None => "Station_" +:+ pretty station_id
    end in
  mk station_id num_servers mean_service_time name [] 0 0 0 0 0 0 0.

Definition is_available (s : t) : bool :=
  bool_decide (servers_busy s < num_servers s)%Z.

Definition _update_queue_stats (current_time : Q) (s : t) : t :=
  let s :=
    if Qlt_bool 0 (last_update_time s) then
      let time_delta := (current_time - last_update_time s)%Q in
      set_queue_length_sum
        (queue_length_sum s
         + inject_Z (Z.of_nat (length (queue s))) * time_delta)%Q s
    else s in
  set_last_update_time current_time s.

Definition add_to_queue (job_id : Z) (current_time : Q) (s : t) : t :=
  let s := _update_queue_stats current_time s in
  let s := set_queue (queue s ++ [job_id]) s in
  set_total_arrivals (total_arrivals s + 1) s.

Definition start_service (current_time : Q) (s : t) : option Z * t :=
  let s := _update_queue_stats current_time s in
  match queue s with
  | job_id :: rest =>
      if is_available s
      then (Some job_id,
            set_servers_busy (servers_busy s + 1) (set_queue rest s))
      else (None, s)
  | [] => (None, s)
  end.

Definition complete_service (current_time : Q) (s : t) : t :=
  let s := _update_queue_stats current_time s in
  let s := set_servers_busy (servers_busy s - 1) s in
  set_total_departures (total_departures s + 1) s.

Definition generate_service_time {RNG : Type} {source : RandomSource RNG} (s : t) (g : RNG)
    : result (Q * RNG) :=
  np_random_exponential (mean_service_time s) g.

(** [None] stands for the division by a zero denominator, which has no
    rational value. *)
Definition utilization (s : t) : option Q :=
  if Qeq_bool (total_service_time s) 0 then Some 0%Q
  else
    let denominator := (inject_Z (num_servers s) * last_update_time s)%Q in
    if Qeq_bool denominator 0 then None
    else Some (total_service_time s / denominator)%Q.

Definition avg_queue_length (s : t) : Q :=
  if Qeq_bool (last_update_time s) 0 then 0%Q
  else (queue_length_sum s / last_update_time s)%Q.
End Station.

(** ** The engine *)

Record Network := mkNetwork {
  num_jobs : Z;
  routing_matrix : list (list Q);
  num_stations : nat;
  stations : list Station.t;
  jobs : gmap Z Job.t;
  event_queue : list Event.t;
  current_time : Q;
  jobs_in_transit : gset Z;
  total_completions : Z;
  warmup_completions : Z;
}.

Definition set_stations (v : list Station.t) (self : Network) : Network :=
  mkNetwork (num_jobs self) (routing_matrix self) (num_stations self) v
    (jobs self) (event_queue self) (current_time self)
    (jobs_in_transit self) (total_completions self)
    (warmup_completions self).
Definition set_jobs (v : gmap Z Job.t) (self : Network) : Network :=
  mkNetwork (num_jobs self) (routing_matrix self) (num_stations self)
    (stations self) v (event_queue self) (current_time self)
    (jobs_in_transit self) (total_completions self)
    (warmup_completions self).
Definition set_event_queue (v : list Event.t) (self : Network) : Network :=
  mkNetwork (num_jobs self) (routing_matrix self) (num_stations self)
    (stations self) (jobs self) v (current_time self)
    (jobs_in_transit self) (total_completions self)
    (warmup_completions self).
Definition set_current_time (v : Q) (self : Network) : Network :=
  mkNetwork (num_jobs self) (routing_matrix self) (num_stations self)
    (stations self) (jobs self) (event_queue self) v
    (jobs_in_transit self) (total_completions self)
    (warmup_completions self).
Definition set_jobs_in_transit (v : gset Z) (self : Network) : Network :=
  mkNetwork (num_jobs self) (routing_matrix self) (num_stations self)
    (stations self) (jobs self) (event_queue self) (current_time self)
    v (total_completions self) (warmup_completions self).
Definition set_total_completions (v : Z) (self : Network) : Network :=
  mkNetwork (num_jobs self) (routing_matrix self) (num_stations self)
    (stations self) (jobs self) (event_queue self) (current_time self)
    (jobs_in_transit self) v (warmup_completions self).
Definition set_warmup_completions (v : Z) (self : Network) : Network :=
  mkNetwork (num_jobs self) (routing_matrix self) (num_stations self)
    (stations self) (jobs self) (event_queue self) (current_time self)
    (jobs_in_transit self) (total_completions self) v.

Definition reset_station (current_time : Q) (station : Station.t)
    : Station.t :=
  Station.mk (Station.station_id station) (Station.num_servers station)
    (Station.mean_service_time station) (Station.name station)
    (Station.queue station) (Station.servers_busy station)
    0 0 0 0 0 current_time.

Record Config := mkConfig {
  cfg_num_jobs : Z;
  cfg_routing_matrix : list (list Q);
  cfg_seed : option Z;
  cfg_stations : list (Z * Q * option string);
  cfg_initial_station : nat;
}.

Section Engine.
Context {RNG : Type} {source : RandomSource RNG}.

(** [ClosedQueueingNetwork.__init__]; [g] is the state of the global
    generator when the constructor is called. *)
Definition init (num_jobs : Z) (routing_matrix : list (list Q))
    (seed : option Z) (g : RNG) : result (Network * RNG) :=
  g ← match seed with
      | Some seed => np_random_seed seed
      | None => Ok g
      end;
  Ok (mkNetwork num_jobs routing_matrix (length routing_matrix)
        [] ∅ [] 0 ∅ 0 0, g).

Definition add_station (num_servers : Z) (mean_service_time : Q)
    (name : option string) (self : Network) : nat * Network :=
  let station_id := length (stations self) in
  let station :=
    Station.init station_id num_servers mean_service_time name in
  (station_id, set_stations (stations self ++ [station]) self).

Definition initialize_jobs (initial_station : nat) (self : Network)
    : Network :=
  foldl (fun self job_id =>
           let job := Job.mk job_id 0 0 [] in
           let self := set_jobs (<[job_id := job]> (jobs self)) self in
           let event := Event.mk 0 ARRIVAL job_id initial_station in
           set_event_queue (heapq.heappush (event_queue self) event) self)
        self (seqZ 0 (num_jobs self)).

Definition schedule_event (time : Q) (event_type : EventType)
    (job_id : Z) (station_id : nat) (self : Network) : Network :=
  let event := Event.mk time event_type job_id station_id in
  set_event_queue (heapq.heappush (event_queue self) event) self.

Definition get_next_station (current_station : nat) (self : Network)
    (g : RNG) : result (nat * RNG) :=
  probabilities ←
    from_option IndexError (routing_matrix self !! current_station);
  np_random_choice (num_stations self) probabilities g.

Definition process_arrival (event : Event.t) (self : Network) (g : RNG)
    : result (Network * RNG) :=
  let station_id := Event.station_id event in
  station ← from_option IndexError (stations self !! station_id);
  job ← from_option KeyError (jobs self !! Event.job_id event);
  let self :=
    set_jobs_in_transit
      (jobs_in_transit self ∖ {[Event.job_id event]}) self in
  let arrival_time := Event.time event in
  let station :=
    Station.add_to_queue (Event.job_id event) (current_time self)
      station in
  if Station.is_available station then
    let '(job_to_serve, station) :=
      Station.start_service (current_time self) station in
    match job_to_serve with
    | Some job_to_serve =>
        '(service_time, g) ← Station.generate_service_time station g;
        let departure_time := (current_time self + service_time)%Q in
        let station :=
          Station.set_total_service_time
            (Station.total_service_time station + service_time)%Q
            station in
        let job :=
          Job.append_visit (station_id, arrival_time, departure_time)
            job in
        let self :=
          set_jobs (<[Event.job_id event := job]> (jobs self))
            (set_stations (<[station_id := station]> (stations self))
               self) in
        Ok (schedule_event departure_time DEPARTURE job_to_serve
              station_id self, g)
    | None =>
        Ok (set_stations (<[station_id := station]> (stations self))
              self, g)
    end
  else
    Ok (set_stations (<[station_id := station]> (stations self)) self,
        g).

Definition process_departure (event : Event.t) (self : Network) (g : RNG)
    : result (Network * RNG) :=
  let station_id := Event.station_id event in
  station ← from_option IndexError (stations self !! station_id);
  job ← from_option KeyError (jobs self !! Event.job_id event);
  let station := Station.complete_service (current_time self) station in
  let self :=
    set_total_completions (total_completions self + 1)
      (set_stations (<[station_id := station]> (stations self)) self) in
  '(self, g) ←
    match Station.queue station with
    | _ :: _ =>
        let '(job_to_serve, station) :=
          Station.start_service (current_time self) station in
        let self :=
          set_stations (<[station_id := station]> (stations self))
            self in
        match job_to_serve with
        | Some job_to_serve =>
            '(service_time, g) ←
              Station.generate_service_time station g;
            let departure_time :=
              (current_time self + service_time)%Q in
            let station :=
              Station.set_total_service_time
                (Station.total_service_time station + service_time)%Q
                station in
            let self :=
              set_stations (<[station_id := station]> (stations self))
                self in
            next_job ← from_option KeyError (jobs self !! job_to_serve);
            let next_job :=
              Job.append_visit
                (station_id, current_time self, departure_time)
                next_job in
            let self :=
              set_jobs (<[job_to_serve := next_job]> (jobs self)) self in
            Ok (schedule_event departure_time DEPARTURE job_to_serve
                  station_id self, g)
        | None => Ok (self, g)
        end
    | [] => Ok (self, g)
    end;
  '(next_station, g) ← get_next_station station_id self g;
  let self :=
    set_jobs_in_transit
      ({[Event.job_id event]} ∪ jobs_in_transit self) self in
  Ok (schedule_event (current_time self) ARRIVAL (Event.job_id event)
        next_station self, g).

Definition _reset_statistics (self : Network) : Network :=
  set_warmup_completions 0
    (set_total_completions 0
       (set_stations
          (reset_station (current_time self) <$> stations self) self)).

(** *** The [run] loop

    The state of the loop is the network, the generator, the local flag
    [warmup_done], and (for the statements about event sequences) the
    list of the events processed so far. *)
Record LoopState := mkLoop {
  network : Network;
  generator : RNG;
  warmup_done : bool;
  processed : list Event.t;
}.

(** [while self.event_queue and self.current_time < simulation_time] *)
Definition loop_guard (simulation_time : Q) (st : LoopState) : bool :=
  match event_queue (network st) with
  | [] => false
  | _ :: _ => Qlt_bool (current_time (network st)) simulation_time
  end.

Definition dispatch (event : Event.t) (self : Network) (g : RNG)
    : result (Network * RNG) :=
  match Event.event_type event with
  | ARRIVAL => process_arrival event self g
  | DEPARTURE => process_departure event self g
  end.

Definition loop_body (warmup_time : Q) (st : LoopState)
    : result LoopState :=
  let self := network st in
  '(event, rest) ←
    from_option IndexError (heapq.heappop (event_queue self));
  let self := set_current_time (Event.time event)
                (set_event_queue rest self) in
  let '(self, warmup_done) :=
    if negb (warmup_done st) && Qle_bool warmup_time (current_time self)
    then (_reset_statistics self, true)
    else (self, warmup_done st) in
  '(self, g) ← dispatch event self (generator st);
  Ok (mkLoop self g warmup_done (processed st ++ [event])).

(** At most [fuel] iterations of the loop: the state reached when the
    guard fails, or after [fuel] iterations. *)
Fixpoint run_loop (fuel : nat) (simulation_time warmup_time : Q)
    (st : LoopState) : result LoopState :=
  match fuel with
  | O => Ok st
  | S fuel' =>
      if loop_guard simulation_time st then
        st ← loop_body warmup_time st;
        run_loop fuel' simulation_time warmup_time st
      else Ok st
  end.

Definition run (fuel : nat) (simulation_time warmup_time : Q)
    (self : Network) (g : RNG) : result LoopState :=
  run_loop fuel simulation_time warmup_time (mkLoop self g false []).

(** *** Building a network the way the drivers do: the constructor, one
    [add_station] per station, then [initialize_jobs]. *)
Definition construct (cfg : Config) (g : RNG) : result (Network * RNG) :=
  '(self, g) ← init (cfg_num_jobs cfg) (cfg_routing_matrix cfg)
                 (cfg_seed cfg) g;
  Ok (foldl (fun self '(num_servers, mean_service_time, name) =>
               (add_station num_servers mean_service_time name self).2)
            self (cfg_stations cfg), g).

Definition setup (cfg : Config) (g : RNG) : result (Network * RNG) :=
  '(self, g) ← construct cfg g;
  Ok (initialize_jobs (cfg_initial_station cfg) self, g).

Definition simulate (cfg : Config) (simulation_time warmup_time : Q)
    (fuel : nat) (g : RNG) : result LoopState :=
  '(self, g) ← setup cfg g;
  run fuel simulation_time warmup_time self g.

End Engine.

(** ** The stations of a freshly built network *)

Definition station_of (i : nat) (spec : Z * Q * option string)
    : Station.t :=
  let '(num_servers, mean_service_time, name) := spec in
  Station.init i num_servers mean_service_time name.

Definition idle (s : Station.t) : Prop :=
  Station.queue s = [] ∧ Station.servers_busy s = 0%Z
  ∧ Station.last_update_time s = 0%Q.

(** ** The state between the pop of an event and its handler *)

Section Iteration.
Context {RNG : Type} {source : RandomSource RNG}.

(** The state the handler of the popped event starts from. *)
Definition popped (e : Event.t) (rest : list Event.t) (self : Network)
    : Network :=
  set_current_time (Event.time e) (set_event_queue rest self).

Definition fires (warmup_time : Q) (st : LoopState (RNG := RNG))
    (e : Event.t) : bool :=
  negb (warmup_done st) && Qle_bool warmup_time (Event.time e).

Definition handler_state (warmup_time : Q) (st : LoopState (RNG := RNG))
    (e : Event.t) (rest : list Event.t) : Network :=
  if fires warmup_time st e
  then _reset_statistics (popped e rest (network st))
  else popped e rest (network st).

(** The time of a scheduled event: the clock, or the clock plus a drawn
    service time. *)
Definition scheduled_at (clock : Q) (x : Event.t) : Prop :=
  Event.time x = clock
  ∨ ∃ scale (g0 : RNG) d g1,
      np_random_exponential scale g0 = Ok (d, g1)
      ∧ Event.time x = (clock + d)%Q.

End Iteration.

(** ** A scripted random source

    The raw variates of the stream are read from a list, installed by the
    seed: a standard exponential variate (a non-negative number) for each
    [np_random_exponential], scaled by the mean, and a uniform variate of
    [0, 1) for each [np_random_choice], looked up in the cumulative
    distribution.  When the list is exhausted every raw variate is [1/2].
    The argument checks are NumPy's. *)

Definition next_variate (g : list Q) : Q * list Q :=
  match g with
  | v :: g => (v, g)
  | [] => (1 # 2, [])
  end.

Fixpoint searchsorted_right (p : list Q) (acc u : Q) (i : nat) : nat :=
  match p with
  | [] => i
  | x :: p => if Qlt_bool u (acc + x) then i
              else searchsorted_right p (acc + x)%Q u (S i)
  end.

Definition Qsum (p : list Q) : Q := foldr Qplus 0%Q p.

Definition scripted (script : Z → list Q) : RandomSource (list Q) := {|
  np_random_seed seed :=
    if decide (0 ≤ seed < 2 ^ 32)%Z then Ok (script seed)
    else Raise ValueError;
  np_random_exponential scale g :=
    let '(v, g) := next_variate g in
    if Qlt_bool scale 0 || Qlt_bool v 0 then Raise ValueError
    else Ok ((scale * v)%Q, g);
  np_random_choice n p g :=
    let '(u, g) := next_variate g in
    if bool_decide (n = 0) || bool_decide (length p ≠ n)
       || bool_decide (Exists (fun x => Qlt_bool x 0 = true) p)
       || negb (Qeq_bool (Qsum p) 1)
       || Qlt_bool u 0 || Qle_bool 1 u
    then Raise ValueError
    else Ok (searchsorted_right p 0 u 0, g);
|}.

(** ** Small networks to run

    [two_jobs]: two jobs, one station with two servers, every job routed
    back to the station.  [shop]: the same with a single server.  [bad]: a
    configuration with a negative population, a routing row that sums to
    [4/5], no server and a negative mean service time.  Under
    [demo_script] the first two service times are [1] and [10] and the
    third is [3/2]; under [steady] every service time is half the mean. *)

Definition demo_script (seed : Z) : list Q := [1%Q; 10%Q; 0%Q; 3 # 2].

Definition steady (seed : Z) : list Q := [].

Definition two_jobs : Config :=
  mkConfig 2 [[1%Q]] (Some 42%Z) [(2%Z, 1%Q, None)] 0.

Definition shop : Config :=
  mkConfig 2 [[1%Q]] (Some 42%Z) [(1%Z, 1%Q, None)] 0.

Definition bad : Config :=
  mkConfig (-1) [[1 # 2; 3 # 10]] None [(0%Z, (-1)%Q, None)] 0.

(** * Specification vocabulary *)

(** ** Reading a result *)

Definition observe {A B} (f : A → B) (r : result A) : option B :=
  match r with
  | Ok a => Some (f a)
  | Raise _ => None
  end.

(** ** The heap order of the event queue *)

Definition parent (i : nat) : nat := (i - 1) / 2.

Definition le_at (h : list Event.t) (i j : nat) : Prop :=
  ∀ a b, h !! i = Some a → h !! j = Some b →
         (Event.time a <= Event.time b)%Q.

Definition heap_ok (h : list Event.t) : Prop :=
  ∀ i, 0 < i → le_at h (parent i) i.

(** The state of [_siftdown]: the heap order holds everywhere but on the
    edge above [pos], and the children of [pos] are above its parent. *)
Definition sift_ok (h : list Event.t) (pos : nat) : Prop :=
  (∀ i, 0 < i → i ≠ pos → le_at h (parent i) i) ∧
  (∀ c, 0 < pos → parent c = pos → 0 < c → le_at h (parent pos) c).

(** ** Work in process *)

Definition station_wip (s : Station.t) : Z :=
  (Station.servers_busy s + Z.of_nat (length (Station.queue s)))%Z.

Definition wip_in_stations (sts : list Station.t) : Z :=
  foldr (fun s acc => (station_wip s + acc)%Z) 0%Z sts.

(** [Σ (servers_busy + len(queue)) + len(jobs_in_transit)] *)
Definition wip (self : Network) : Z :=
  (wip_in_stations (stations self)
   + Z.of_nat (size (jobs_in_transit self)))%Z.

(** A pending arrival of a job that is not in transit: one of the arrivals
    [initialize_jobs] scheduled, not yet processed. *)
Definition initial_arrival (transit : gset Z) (e : Event.t) : Prop :=
  Event.event_type e = ARRIVAL ∧ Event.job_id e ∉ transit.

#[global] Instance initial_arrival_dec transit e :
  Decision (initial_arrival transit e).
Proof. unfold initial_arrival. apply _. Defined.

Definition count_initial (transit : gset Z) (q : list Event.t) : nat :=
  length (filter (initial_arrival transit) q).

Definition pending_initial (self : Network) : nat :=
  count_initial (jobs_in_transit self) (event_queue self).

Definition queued_jobs (sts : list Station.t) : list Z :=
  sts ≫= Station.queue.

(** The jobs the engine holds a handle on: one per pending event, and the
    jobs waiting in the queues. *)
Definition tracked_jobs (self : Network) : list Z :=
  (Event.job_id <$> event_queue self) ++ queued_jobs (stations self).

Record jobs_inv (self : Network) : Prop := {
  ji_heap : heap_ok (event_queue self);
  ji_tracked : tracked_jobs self ≡ₚ seqZ 0 (num_jobs self);
  ji_transit :
    ∀ j, j ∈ jobs_in_transit self →
         ∃ e, e ∈ event_queue self ∧ Event.event_type e = ARRIVAL
              ∧ Event.job_id e = j;
  ji_initial :
    ∀ e, e ∈ event_queue self →
         initial_arrival (jobs_in_transit self) e →
         (Event.time e == 0)%Q;
  ji_wip :
    (wip self + Z.of_nat (pending_initial self))%Z
    = Z.of_nat (length (seqZ 0 (num_jobs self)));
  ji_started :
    (0 < current_time self)%Q → pending_initial self = 0;
}.

(** The same accounting between the pop of event [e] and its handler:
    [e] has left the queue and its job is on its way into the station. *)
Record jobs_mid (e : Event.t) (self : Network) : Prop := {
  jm_heap : heap_ok (event_queue self);
  jm_tracked :
    Event.job_id e :: tracked_jobs self ≡ₚ seqZ 0 (num_jobs self);
  jm_transit :
    ∀ j, j ∈ jobs_in_transit self →
         ∃ x, x ∈ e :: event_queue self ∧ Event.event_type x = ARRIVAL
              ∧ Event.job_id x = j;
  jm_initial :
    ∀ x, x ∈ event_queue self →
         initial_arrival (jobs_in_transit self) x →
         (Event.time x == 0)%Q;
  jm_wip :
    (wip self
     + Z.of_nat (count_initial (jobs_in_transit self)
                   (e :: event_queue self)))%Z
    = Z.of_nat (length (seqZ 0 (num_jobs self)));
  jm_started :
    (0 < current_time self)%Q →
    count_initial (jobs_in_transit self) (event_queue self) = 0;
}.

(** ** Saturation of the servers *)

(** Nobody waits in front of a free server. *)
Definition no_idle_wait (s : Station.t) : Prop :=
  Station.queue s ≠ [] → Station.is_available s = false.

Definition saturated (s : Station.t) : Prop :=
  Station.queue s ≠ [] → Station.servers_busy s = Station.num_servers s.

Definition station_inv (s : Station.t) : Prop :=
  (Station.servers_busy s ≤ Station.num_servers s)%Z ∧ saturated s.

(** ** Time *)

Definition nondecreasing (times : list Q) : Prop :=
  ∀ i j a b, i ≤ j → times !! i = Some a → times !! j = Some b →
             (a <= b)%Q.

(** The draws of a service time are never negative. *)
Definition nonnegative_draws {RNG : Type} {source : RandomSource RNG} : Prop :=
  ∀ scale (g : RNG) d g',
    np_random_exponential scale g = Ok (d, g') → (0 <= d)%Q.

Record time_inv {RNG : Type} {source : RandomSource RNG} (warmup_time : Q)
    (st : LoopState (RNG := RNG)) : Prop := {
  ti_heap : heap_ok (event_queue (network st));
  ti_future :
    ∀ e, e ∈ event_queue (network st) →
         (current_time (network st) <= Event.time e)%Q;
  ti_past :
    ∀ e, e ∈ processed st →
         (Event.time e <= current_time (network st))%Q;
  ti_sorted : nondecreasing (Event.time <$> processed st);
  ti_updated :
    ∀ s, s ∈ stations (network st) →
         (Station.last_update_time s <= current_time (network st))%Q;
  ti_reset :
    warmup_done st = true →
    ∀ s, s ∈ stations (network st) →
         (warmup_time <= Station.last_update_time s)%Q;
}.

(** ** The statistics a reset clears, and the state it keeps *)

Definition accumulators_zero (current_time : Q) (s : Station.t) : Prop :=
  Station.total_arrivals s = 0%Z ∧ Station.total_departures s = 0%Z
  ∧ Station.total_service_time s = 0%Q
  ∧ Station.queue_length_sum s = 0%Q
  ∧ Station.last_update_time s = current_time.

Definition physical (s : Station.t) : list Z * Z :=
  (Station.queue s, Station.servers_busy s).

(** * The reports and further vocabulary *)

(** ** Reporting

    [print_statistics] writes to the standard output; the model keeps the
    values it computes on the way (its local variables [throughput],
    [avg_cycle_time], [bottleneck_util] and [bottleneck_station]), not the
    formatted text.  [None] stands for an exception raised on the way:
    the [ZeroDivisionError] of a division, or the [ValueError] of [max]
    on an empty sequence. *)

(** Python's [a / b] on numbers. *)
Definition truediv (a b : Q) : option Q :=
  if Qeq_bool b 0 then None else Some (a / b)%Q.

Record Statistics := mkStatistics {
  throughput : option Q;
  avg_cycle_time : option Q;
  bottleneck_util : Q;
  bottleneck_station : option Station.t;
}.

(** The [for station in self.stations] loop of [print_statistics]: the
    utilization is printed, then compared with the best one so far. *)
Fixpoint bottleneck_loop (sts : list Station.t) (bottleneck_util : Q)
    (bottleneck_station : option Station.t)
    : option (Q * option Station.t) :=
  match sts with
  | [] => Some (bottleneck_util, bottleneck_station)
  | station :: sts =>
      utilization ← Station.utilization station;
      if Qlt_bool bottleneck_util utilization
      then bottleneck_loop sts utilization (Some station)
      else bottleneck_loop sts bottleneck_util bottleneck_station
  end.

Definition print_statistics (self : Network) : option Statistics :=
  '(throughput, avg_cycle_time) ←
    (if bool_decide (0 < total_completions self)%Z then
       throughput ←
         truediv (inject_Z (total_completions self)) (current_time self);
       per_job ←
         truediv (inject_Z (total_completions self))
           (inject_Z (num_jobs self));
       avg_cycle_time ← truediv (current_time self) per_job;
       Some (Some throughput, Some avg_cycle_time)
     else Some (None, None));
  '(bottleneck_util, bottleneck_station) ←
    bottleneck_loop (stations self) 0%Q None;
  Some (mkStatistics throughput avg_cycle_time bottleneck_util
          bottleneck_station).

(** [max(iterable, key=key)]: the first item whose key is not exceeded
    by the key of any other item. *)
Fixpoint max_loop {A} (key : A → option Q) (l : list A) (maxitem : A)
    (maxval : Q) : option A :=
  match l with
  | [] => Some maxitem
  | item :: l =>
      val ← key item;
      if Qlt_bool maxval val then max_loop key l item val
      else max_loop key l maxitem maxval
  end.

Definition max_by {A} (key : A → option Q) (l : list A) : option A :=
  match l with
  | [] => None
  | item :: l => val ← key item; max_loop key l item val
  end.

(** The metrics [analyze_wip_impact] computes from a network it has run
    with [wip] jobs. *)
Record WipResult := mkWipResult {
  wr_wip : Z;
  wr_throughput : Q;
  wr_cycle_time : Q;
  wr_bottleneck_util : Q;
  wr_bottleneck_queue : Q;
}.

Definition wip_metrics (wip : Z) (network : Network) : option WipResult :=
  throughput ←
    truediv (inject_Z (total_completions network)) (current_time network);
  avg_cycle_time ←
    (if bool_decide (0 < total_completions network)%Z then
       per_job ←
         truediv (inject_Z (total_completions network)) (inject_Z wip);
       truediv (current_time network) per_job
     else Some 0%Q);
  bottleneck ← max_by Station.utilization (stations network);
  bottleneck_util ← Station.utilization bottleneck;
  Some (mkWipResult wip throughput avg_cycle_time bottleneck_util
          (Station.avg_queue_length bottleneck)).

(** ** The operations a handler applies to its station *)

Inductive station_op {RNG : Type} {source : RandomSource RNG} (t : Q)
    : Station.t → Station.t → Prop :=
  | op_add_to_queue j s :
      station_op t s (Station.add_to_queue j t s)
  | op_start_service k s s' :
      Station.start_service t s = (Some k, s') → station_op t s s'
  | op_complete_service s :
      station_op t s (Station.complete_service t s)
  | op_update s :
      station_op t s (Station._update_queue_stats t s)
  | op_book s d (g g' : RNG) :
      np_random_exponential (Station.mean_service_time s) g = Ok (d, g') →
      station_op t s
        (Station.set_total_service_time
           (Station.total_service_time s + d)%Q s).

(** ** Busy servers and pending departures *)

Definition departure_at (i : nat) (e : Event.t) : Prop :=
  Event.event_type e = DEPARTURE ∧ Event.station_id e = i.

#[global] Instance departure_at_dec i e : Decision (departure_at i e).
Proof. unfold departure_at. apply _. Defined.

Definition pending_departures (i : nat) (q : list Event.t) : nat :=
  length (filter (departure_at i) q).

Definition busy_inv (self : Network) : Prop :=
  ∀ i s, stations self !! i = Some s →
         Station.servers_busy s
         = Z.of_nat (pending_departures i (event_queue self)).

(** ** Counters *)

Definition sumZ {A} (f : A → Z) (l : list A) : Z :=
  foldr (fun x acc => (f x + acc)%Z) 0%Z l.

(** The jobs that came in and did not leave are the jobs present. *)
Definition balanced (s : Station.t) : Prop :=
  (Station.total_arrivals s - Station.total_departures s)%Z
  = station_wip s.

(** ** Job histories *)

Definition visit_arrival (v : nat * Q * Q) : Q := v.1.2.
Definition visit_departure (v : nat * Q * Q) : Q := v.2.

(** Every visit ends after it starts, and a later visit starts after
    the earlier ones have ended. *)
Definition chronological (visits : list (nat * Q * Q)) : Prop :=
  (∀ v, v ∈ visits → (visit_arrival v <= visit_departure v)%Q)
  ∧ ∀ i j v w, i < j → visits !! i = Some v → visits !! j = Some w →
               (visit_departure v <= visit_arrival w)%Q.

(** ** Well-formed configurations and well-behaved random sources *)

Definition distribution (n : nat) (p : list Q) : Prop :=
  length p = n ∧ Forall (fun x => (0 <= x)%Q) p ∧ (Qsum p == 1)%Q.

Record well_formed (cfg : Config) : Prop := {
  wf_square :
    length (cfg_routing_matrix cfg) = length (cfg_stations cfg);
  wf_rows :
    Forall (distribution (length (cfg_stations cfg)))
      (cfg_routing_matrix cfg);
  wf_means :
    Forall (fun spec => (0 <= spec.1.2)%Q) (cfg_stations cfg);
  wf_initial :
    (0 < cfg_num_jobs cfg)%Z →
    cfg_initial_station cfg < length (cfg_stations cfg);
}.

(** What NumPy documents of its generator, on the generator states
    [valid] describes: a non-negative scale gives an exponential variate,
    and a probability vector over [n > 0] items gives an index below
    [n]. *)
Record well_behaved {RNG : Type} {source : RandomSource RNG}
    (valid : RNG → Prop) : Prop := {
  wb_seed : ∀ seed g, np_random_seed seed = Ok g → valid g;
  wb_exponential :
    ∀ scale g, valid g → (0 <= scale)%Q →
      ∃ d g', np_random_exponential scale g = Ok (d, g') ∧ valid g';
  wb_choice :
    ∀ n p g, valid g → 0 < n → distribution n p →
      ∃ i g', np_random_choice n p g = Ok (i, g') ∧ i < n ∧ valid g';
}.

(** ** The effect of an event on the counters

    One for a departure, nothing for an arrival. *)
Definition leaves (e : Event.t) : Z :=
  match Event.event_type e with
  | DEPARTURE => 1
  | ARRIVAL => 0
  end.

(** ** The table of the jobs

    A job of the table is filed under its own identifier, with the
    arrival and completion times it was created with. *)
Definition job_as_created (j : Z) (job : Job.t) : Prop :=
  Job.job_id job = j ∧ Job.arrival_time job = 0%Q
  ∧ Job.completion_time job = 0%Q.

(** ** The histories along a run

    A recorded visit is over, or the departure that ends it is pending. *)
Definition visit_accounted (self : Network) (j : Z) (v : nat * Q * Q)
    : Prop :=
  (visit_departure v <= current_time self)%Q
  ∨ ∃ x, x ∈ event_queue self ∧ Event.job_id x = j
         ∧ Event.event_type x = DEPARTURE
         ∧ (visit_departure v <= Event.time x)%Q.

Definition history_inv (self : Network) : Prop :=
  ∀ j job, jobs self !! j = Some job →
    chronological (Job.station_visits job)
    ∧ ∀ v, v ∈ Job.station_visits job → visit_accounted self j v.

(** ** More networks to run

    [line]: three jobs going round two single-server stations, as in the
    first test of the repository.  [frozen]: two jobs on a station whose
    mean service time is zero.  [lost]: a job sent to a station that was
    never added. *)

Definition line : Config :=
  mkConfig 3 [[0%Q; 1%Q]; [1%Q; 0%Q]] (Some 42%Z)
    [(1%Z, 1%Q, Some "Station_A"); (1%Z, 1%Q, Some "Station_B")] 0.

Definition frozen : Config :=
  mkConfig 2 [[1%Q]] (Some 42%Z) [(1%Z, 0%Q, None)] 0.

Definition lost : Config :=
  mkConfig 1 [[1%Q]] None [(1%Z, 1%Q, None)] 3.

(** ** The drivers

    [example_two_station_network] and [example_manufacturing_line] build
    a network, run it and print the report. *)



Section Drivers.
Context {RNG : Type} {source : RandomSource RNG}.



End Drivers.

(** ** The tests

    [test_basic_functionality] runs [line] and [test_wip_conservation]
    runs a cycle of three stations with seven jobs; each returns whether
    its assertions hold. *)


Section Tests.
Context {RNG : Type} {source : RandomSource RNG}.



End Tests.

(** * Lemmas *)

(** ** Comparisons of times *)

Lemma Qlt_bool_iff a b : Qlt_bool a b = true ↔ (a < b)%Q.
Proof.
  unfold Qlt_bool. rewrite negb_true_iff. split.
  - intros Hf. apply Qnot_le_lt. intros Hle.
    apply Qle_bool_iff in Hle. congruence.
  - intros Hlt. destruct (Qle_bool b a) eqn:E; [|done].
    apply Qle_bool_iff in E. lra.
Qed.

Lemma Qlt_bool_false a b : Qlt_bool a b = false ↔ (b <= a)%Q.
Proof.
  unfold Qlt_bool. rewrite negb_false_iff. apply Qle_bool_iff.
Qed.

(** ** The heap of [heapq] keeps its order and its elements *)

Section heap_theory.
Implicit Types (h : list Event.t) (x y p : Event.t) (i j pos : nat).

Lemma delete_insert_same {A} (l : list A) i (x : A) :
  delete i (<[i := x]> l) = delete i l.
Proof.
  revert i. induction l as [|a l IH]; intros [|i]; simpl; auto.
  by rewrite IH.
Qed.

Lemma insert_Permutation {A} (l : list A) i (x : A) :
  i < length l → <[i := x]> l ≡ₚ x :: delete i l.
Proof.
  intros Hi.
  rewrite (delete_Permutation (<[i := x]> l) i x).
  - by rewrite delete_insert_same.
  - by apply list_lookup_insert_eq.
Qed.

(** Moving the hole: writing [p], the element at [j], into [i] and the
    new item into [j] holds the same elements as writing the new item
    into [i]. *)
Lemma insert_swap_Permutation {A} (l : list A) i j (x p : A) :
  i ≠ j → i < length l → l !! j = Some p →
  <[j := x]> (<[i := p]> l) ≡ₚ <[i := x]> l.
Proof.
  intros Hne Hi Hj.
  assert (Hjl : j < length l) by (by eapply lookup_lt_Some).
  rewrite (insert_Permutation (<[i := p]> l) j x) by (by rewrite length_insert).
  rewrite (insert_Permutation l i x) by done.
  apply Permutation_cons; [done|].
  apply (Permutation_cons_inv (a := p)).
  rewrite <- (delete_Permutation (<[i := p]> l) j p)
    by (by rewrite list_lookup_insert_ne).
  by apply insert_Permutation.
Qed.

Ltac same_item H :=
  apply (inj Some) in H;
  match type of H with
  | ?u = ?v => first [subst v | subst u]
  end.

Lemma parent_lt i : 0 < i → parent i < i.
Proof. unfold parent. lia. Qed.

Lemma heap_ok_root h x y i :
  heap_ok h → h !! 0 = Some x → h !! i = Some y →
  (Event.time x <= Event.time y)%Q.
Proof.
  intros Hh H0. revert y.
  induction (lt_wf i) as [i _ IH]. intros y Hi.
  destruct (decide (i = 0)) as [->|Hne].
  - rewrite H0 in Hi. injection Hi as ->. apply Qle_refl.
  - assert (Hp : parent i < i) by (apply parent_lt; lia).
    destruct (lookup_lt_is_Some_2 h (parent i)) as [z Hz].
    { apply lookup_lt_Some in Hi. lia. }
    eapply Qle_trans; [by apply (IH (parent i))|].
    apply (Hh i); [lia|done..].
Qed.

Lemma siftdown_loop_ok fuel h pos x :
  pos ≤ fuel → pos < length h → sift_ok (<[pos := x]> h) pos →
  heap_ok (heapq._siftdown_loop fuel h 0 pos x) ∧
  heapq._siftdown_loop fuel h 0 pos x ≡ₚ <[pos := x]> h.
Proof.
  revert h pos. induction fuel as [|fuel IH]; intros h pos Hf Hlen [Ha Hb].
  - simpl. split; [|done]. intros i Hi. apply Ha; lia.
  - cbn [heapq._siftdown_loop]. destruct (decide (0 < pos)) as [Hpos|Hpos].
    2:{ split; [|done]. intros i Hi. apply Ha; lia. }
    assert (Hp : (pos - 1) / 2 < pos) by (apply (parent_lt pos Hpos)).
    destruct (lookup_lt_is_Some_2 h ((pos - 1) / 2)) as [p Hlk]; [lia|].
    rewrite Hlk.
    assert (Hlk' : <[pos := x]> h !! parent pos = Some p).
    { rewrite list_lookup_insert_ne; [done|unfold parent; lia]. }
    assert (Hx : <[pos := x]> h !! pos = Some x)
      by (by apply list_lookup_insert_eq).
    destruct (Event.lt x p) eqn:Hlt.
    + apply Qlt_bool_iff in Hlt.
      destruct (IH (<[pos := p]> h) ((pos - 1) / 2)) as [Hok Hperm].
      * lia.
      * rewrite length_insert. lia.
      * fold (parent pos). split.
        -- intros i Hi Hne a b Hia Hib.
           destruct (decide (i = pos)) as [->|Hnp].
           ++ rewrite list_lookup_insert_eq in Hia
                by (rewrite length_insert; unfold parent in *; lia).
              rewrite list_lookup_insert_ne in Hib by lia.
              rewrite list_lookup_insert_eq in Hib by done.
              same_item Hia. same_item Hib. lra.
           ++ rewrite list_lookup_insert_ne in Hib by done.
              rewrite list_lookup_insert_ne in Hib by done.
              destruct (decide (parent i = parent pos)) as [Hpp|Hpp].
              ** rewrite Hpp in Hia.
                 rewrite list_lookup_insert_eq in Hia
                   by (rewrite length_insert; unfold parent in *; lia).
                 same_item Hia.
                 assert (Event.time p <= Event.time b)%Q; [|lra].
                 apply (Ha i Hi Hnp p b).
                 --- by rewrite Hpp.
                 --- by rewrite list_lookup_insert_ne.
              ** rewrite list_lookup_insert_ne in Hia by done.
                 destruct (decide (parent i = pos)) as [Hpi|Hpi].
                 --- rewrite Hpi in Hia.
                     rewrite list_lookup_insert_eq in Hia by done.
                     same_item Hia.
                     apply (Hb i Hpos Hpi Hi _ b); [done|].
                     by rewrite list_lookup_insert_ne.
                 --- rewrite list_lookup_insert_ne in Hia by done.
                     apply (Ha i Hi Hnp a b);
                       by rewrite list_lookup_insert_ne.
        -- intros c Hpp Hc Hc0 a b Hia Hib.
           assert (parent (parent pos) < parent pos)
             by (by apply parent_lt).
           rewrite list_lookup_insert_ne in Hia by lia.
           rewrite list_lookup_insert_ne in Hia by (unfold parent in *; lia).
           assert (Hap : (Event.time a <= Event.time p)%Q).
           { apply (Ha (parent pos) Hpp ltac:(unfold parent in *; lia) a p);
               [|done].
             rewrite list_lookup_insert_ne; [done|unfold parent in *; lia]. }
           rewrite list_lookup_insert_ne in Hib by (unfold parent in *; lia).
           destruct (decide (c = pos)) as [->|Hcp].
           ++ rewrite list_lookup_insert_eq in Hib by done.
              by same_item Hib.
           ++ rewrite list_lookup_insert_ne in Hib by done.
              eapply Qle_trans; [exact Hap|].
              apply (Ha c Hc0 Hcp p b).
              ** by rewrite Hc.
              ** by rewrite list_lookup_insert_ne.
      * split; [done|]. rewrite Hperm.
        apply insert_swap_Permutation; [lia|done|done].
    + apply Qlt_bool_false in Hlt. split; [|done].
      intros i Hi. destruct (decide (i = pos)) as [->|Hne].
      * intros a b Hia Hib. rewrite Hlk' in Hia. rewrite Hx in Hib.
        same_item Hia. by same_item Hib.
      * by apply Ha.
Qed.

Lemma siftdown_loop_perm fuel h pos x :
  pos < length h →
  heapq._siftdown_loop fuel h 0 pos x ≡ₚ <[pos := x]> h.
Proof.
  revert h pos. induction fuel as [|fuel IH]; intros h pos Hlen; [done|].
  cbn [heapq._siftdown_loop]. destruct (decide (0 < pos)) as [Hpos|]; [|done].
  assert (Hp : (pos - 1) / 2 < pos) by (apply (parent_lt pos Hpos)).
  destruct (h !! ((pos - 1) / 2)) as [p|] eqn:Hlk; [|done].
  destruct (Event.lt x p); [|done].
  rewrite IH by (rewrite length_insert; lia).
  apply insert_swap_Permutation; [lia|done|done].
Qed.

(** Whatever the order of the list, [heappush] adds the item to it. *)
Lemma heappush_perm h x : heapq.heappush h x ≡ₚ x :: h.
Proof.
  unfold heapq.heappush, heapq._siftdown.
  rewrite length_app. simpl length.
  replace (length h + 1 - 1) with (length h) by lia.
  rewrite lookup_app_r, Nat.sub_diag by lia. simpl.
  rewrite siftdown_loop_perm by (rewrite length_app; simpl; lia).
  rewrite list_insert_id by (by rewrite lookup_app_r, Nat.sub_diag by lia).
  by rewrite Permutation_app_comm.
Qed.

Lemma heappush_ok h x :
  heap_ok h →
  heap_ok (heapq.heappush h x) ∧ heapq.heappush h x ≡ₚ x :: h.
Proof.
  intros Hh. unfold heapq.heappush, heapq._siftdown.
  rewrite length_app. simpl length.
  replace (length h + 1 - 1) with (length h) by lia.
  rewrite lookup_app_r, Nat.sub_diag by lia. simpl.
  destruct (siftdown_loop_ok (length h) (h ++ [x]) (length h) x)
    as [Hok Hperm].
  - done.
  - rewrite length_app. simpl. lia.
  - rewrite list_insert_id by (by rewrite lookup_app_r, Nat.sub_diag by lia).
    split.
    + intros i Hi Hne a b Hia Hib.
      assert (i < length (h ++ [x])) by (by eapply lookup_lt_Some).
      rewrite length_app in *. simpl in *.
      assert (parent i < i) by (by apply parent_lt).
      rewrite lookup_app_l in Hia by lia.
      rewrite lookup_app_l in Hib by lia.
      by apply (Hh i Hi a b).
    + intros c Hpos Hc Hc0 a b Hia Hib.
      apply lookup_lt_Some in Hib. rewrite length_app in Hib. simpl in Hib.
      unfold parent in Hc. lia.
  - split; [done|]. rewrite Hperm.
    rewrite list_insert_id by (by rewrite lookup_app_r, Nat.sub_diag by lia).
    by rewrite Permutation_app_comm.
Qed.

Lemma smaller_child_spec h endpos pos :
  endpos = length h → 2 * pos + 1 < endpos →
  let c := heapq.smaller_child h endpos (2 * pos + 1) in
  c < endpos ∧ parent c = pos ∧ 0 < c ∧
  (∀ i, parent i = pos → 0 < i → le_at h c i).
Proof.
  intros -> Hlt. unfold heapq.smaller_child.
  destruct (decide (2 * pos + 1 + 1 < length h)) as [Hr|Hr].
  - destruct (lookup_lt_is_Some_2 h (2 * pos + 1)) as [l Hl]; [lia|].
    destruct (lookup_lt_is_Some_2 h (2 * pos + 1 + 1)) as [r Hr']; [lia|].
    rewrite Hl, Hr'.
    destruct (Event.lt l r) eqn:Hlr; cbn [negb].
    + apply Qlt_bool_iff in Hlr.
      split; [lia|]. split; [unfold parent; lia|]. split; [lia|].
      intros i Hi Hi0 a b Hia Hib.
      assert (i = 2 * pos + 1 ∨ i = 2 * pos + 1 + 1) as [->| ->]
        by (unfold parent in Hi; lia).
      * rewrite Hia in Hib. same_item Hib. apply Qle_refl.
      * rewrite Hl in Hia. rewrite Hr' in Hib.
        same_item Hia. same_item Hib. lra.
    + apply Qlt_bool_false in Hlr.
      split; [lia|]. split; [unfold parent; lia|]. split; [lia|].
      intros i Hi Hi0 a b Hia Hib.
      assert (i = 2 * pos + 1 ∨ i = 2 * pos + 1 + 1) as [->| ->]
        by (unfold parent in Hi; lia).
      * rewrite Hr' in Hia. rewrite Hl in Hib.
        same_item Hia. by same_item Hib.
      * rewrite Hia in Hib. same_item Hib. apply Qle_refl.
  - split; [lia|]. split; [unfold parent; lia|]. split; [lia|].
    intros i Hi Hi0 a b Hia Hib.
    assert (i < length h) by (by eapply lookup_lt_Some).
    assert (i = 2 * pos + 1) as -> by (unfold parent in Hi; lia).
    rewrite Hia in Hib. same_item Hib. apply Qle_refl.
Qed.

(** The state of the first loop of [_siftup]: some item put into the
    hole at [pos] would make the list a heap. *)
Lemma siftup_loop_ok fuel h pos x :
  length h ≤ fuel + pos → pos < length h →
  heap_ok (<[pos := x]> h) →
  ∃ h' pos' x',
    heapq._siftup_loop fuel h (length h) pos = (h', pos') ∧
    length h' = length h ∧ pos' < length h ∧ length h ≤ 2 * pos' + 1 ∧
    heap_ok (<[pos' := x']> h') ∧
    (∀ y, <[pos' := y]> h' ≡ₚ <[pos := y]> h).
Proof.
  revert h pos x. induction fuel as [|fuel IH]; intros h pos x Hf Hlen Hok.
  - exists h, pos, x. simpl. repeat split; auto; lia.
  - cbn [heapq._siftup_loop].
    destruct (decide (2 * pos + 1 < length h)) as [Hc|Hc].
    2:{ exists h, pos, x. repeat split; auto; lia. }
    destruct (smaller_child_spec h (length h) pos eq_refl Hc)
      as (Hcl & Hcp & Hc0 & Hmin).
    set (c := heapq.smaller_child h (length h) (2 * pos + 1)) in *.
    destruct (lookup_lt_is_Some_2 h c Hcl) as [child Hchild].
    rewrite Hchild.
    assert (Hne : pos ≠ c) by (unfold parent in Hcp; lia).
    destruct (IH (<[pos := child]> h) c child) as (h' & pos' & x' & HH).
    + rewrite length_insert. unfold parent in Hcp. lia.
    + by rewrite length_insert.
    + rewrite list_insert_id by (by rewrite list_lookup_insert_ne).
      intros i Hi a b Hia Hib.
      destruct (decide (i = pos)) as [->|Hip].
      * rewrite list_lookup_insert_eq in Hib by done. same_item Hib.
        assert (parent pos < pos) by (by apply parent_lt).
        rewrite list_lookup_insert_ne in Hia by lia.
        eapply Qle_trans.
        -- apply (Hok pos Hi a x).
           ++ by rewrite list_lookup_insert_ne by lia.
           ++ by rewrite list_lookup_insert_eq.
        -- apply (Hok c Hc0 x child).
           ++ rewrite Hcp. by rewrite list_lookup_insert_eq.
           ++ by rewrite list_lookup_insert_ne.
      * rewrite list_lookup_insert_ne in Hib by done.
        destruct (decide (parent i = pos)) as [Hpi|Hpi].
        -- rewrite Hpi in Hia.
           rewrite list_lookup_insert_eq in Hia by done. same_item Hia.
           by apply (Hmin i Hpi Hi child b).
        -- rewrite list_lookup_insert_ne in Hia by done.
           apply (Hok i Hi a b); by rewrite list_lookup_insert_ne.
    + rewrite length_insert in HH.
      destruct HH as (Heq & Hl' & Hp' & Hleaf & Hok' & Hperm).
      exists h', pos', x'. repeat split; auto.
      intros y. rewrite Hperm.
      by apply insert_swap_Permutation.
Qed.

Lemma heap_ok_removelast h : heap_ok h → heap_ok (removelast h).
Proof.
  intros Hh i Hi a b Hia Hib.
  destruct (decide (h = [])) as [->|Hne]; [done|].
  destruct (exists_last Hne) as (h' & z & ->).
  rewrite removelast_last in Hia, Hib.
  apply (Hh i Hi a b).
  - rewrite lookup_app_l; [done|by eapply lookup_lt_Some].
  - rewrite lookup_app_l; [done|by eapply lookup_lt_Some].
Qed.

Lemma heappop_None h : heapq.heappop h = None ↔ h = [].
Proof.
  unfold heapq.heappop. split.
  - destruct (last h) eqn:E.
    + by destruct (removelast h).
    + intros _. by apply last_None.
  - by intros ->.
Qed.

Lemma heappop_ok h x h' :
  heap_ok h → heapq.heappop h = Some (x, h') →
  heap_ok h' ∧ h ≡ₚ x :: h' ∧
  ∀ y, y ∈ h' → (Event.time x <= Event.time y)%Q.
Proof.
  intros Hh Hpop.
  assert (Hmin : ∀ x h', h !! 0 = Some x → h ≡ₚ x :: h' →
                 ∀ y, y ∈ h' → (Event.time x <= Event.time y)%Q).
  { intros x0 h0 H0 Hp y Hy.
    assert (y ∈ h) as [i Hi]%list_elem_of_lookup
      by (rewrite Hp; by right).
    by eapply heap_ok_root. }
  unfold heapq.heappop in Hpop.
  destruct (last h) as [lastelt|] eqn:Hlast; [|done].
  apply last_Some in Hlast as [l ->].
  pose proof (heap_ok_removelast _ Hh) as Hrl.
  rewrite removelast_last in Hpop, Hrl.
  destruct l as [|returnitem rest].
  - injection Hpop as <- <-. split; [done|]. split; [done|].
    intros y Hy. by apply elem_of_nil in Hy.
  - injection Hpop as <- <-.
    unfold heapq._siftup. cbn [lookup list_lookup].
    destruct (siftup_loop_ok (length (lastelt :: rest))
                (lastelt :: rest) 0 returnitem)
      as (h1 & pos1 & x1 & Heq & Hl1 & Hp1 & Hleaf & Hok1 & Hperm1);
      [lia|simpl; lia|done|].
    rewrite Heq. unfold heapq._siftdown.
    rewrite list_lookup_insert_eq by lia.
    destruct (siftdown_loop_ok pos1 (<[pos1 := lastelt]> h1) pos1 lastelt)
      as [Hok Hperm].
    + done.
    + rewrite length_insert. lia.
    + rewrite list_insert_insert_eq. split.
      * intros i Hi Hne a b Hia Hib.
        assert (i < length h1).
        { apply lookup_lt_Some in Hib. by rewrite length_insert in Hib. }
        assert (parent i ≠ pos1) by (unfold parent; lia).
        rewrite list_lookup_insert_ne in Hia, Hib by done.
        apply (Hok1 i Hi a b); by rewrite list_lookup_insert_ne.
      * intros c Hpos Hc Hc0 a b Hia Hib.
        apply lookup_lt_Some in Hib. rewrite length_insert in Hib.
        unfold parent in Hc. lia.
    + rewrite list_insert_insert_eq in Hperm.
      assert (Hall : (returnitem :: rest) ++ [lastelt]
                     ≡ₚ returnitem ::
                        heapq._siftdown_loop pos1 (<[pos1:=lastelt]> h1)
                          0 pos1 lastelt).
      { rewrite Hperm, Hperm1. simpl.
        apply Permutation_cons; [done|].
        by rewrite Permutation_app_comm. }
      split; [done|]. split; [done|]. by apply Hmin.
Qed.
End heap_theory.

(** ** The error monad *)

Lemma bind_Ok {A B} (m : result A) (f : A → result B) (b : B) :
  m ≫= f = Ok b ↔ ∃ a, m = Ok a ∧ f a = Ok b.
Proof.
  destruct m as [a|e]; simpl; split.
  - intros Hf. by exists a.
  - by intros (a' & [= <-] & Hf).
  - done.
  - by intros (a' & [=] & _).
Qed.

Lemma from_option_Ok {A} (e : exn) (o : option A) (a : A) :
  from_option e o = Ok a ↔ o = Some a.
Proof. destruct o; simpl; split; congruence. Qed.

Ltac bind_inv H :=
  let x := fresh "x" in
  let Hx := fresh "Hx" in
  apply bind_Ok in H as (x & Hx & H);
  try apply from_option_Ok in Hx.

(** ** Station operations *)


Section station_theory.
Implicit Types (s : Station.t) (t : Q) (j k : Z).

Lemma update_queue_stats_facts t s :
  let s' := Station._update_queue_stats t s in
  Station.queue s' = Station.queue s
  ∧ Station.servers_busy s' = Station.servers_busy s
  ∧ Station.num_servers s' = Station.num_servers s
  ∧ Station.mean_service_time s' = Station.mean_service_time s
  ∧ Station.total_service_time s' = Station.total_service_time s
  ∧ Station.last_update_time s' = t.
Proof.
  unfold Station._update_queue_stats.
  by destruct (Qlt_bool 0 (Station.last_update_time s)).
Qed.

Lemma add_to_queue_facts j t s :
  let s' := Station.add_to_queue j t s in
  Station.queue s' = Station.queue s ++ [j]
  ∧ Station.servers_busy s' = Station.servers_busy s
  ∧ Station.num_servers s' = Station.num_servers s
  ∧ Station.mean_service_time s' = Station.mean_service_time s
  ∧ Station.total_service_time s' = Station.total_service_time s
  ∧ Station.last_update_time s' = t.
Proof.
  unfold Station.add_to_queue, Station._update_queue_stats.
  by destruct (Qlt_bool 0 (Station.last_update_time s)).
Qed.

Lemma add_to_queue_available j t s :
  Station.is_available (Station.add_to_queue j t s)
  = Station.is_available s.
Proof.
  destruct (add_to_queue_facts j t s) as (_ & Hb & Hn & _).
  unfold Station.is_available. by rewrite Hb, Hn.
Qed.

Lemma complete_service_facts t s :
  let s' := Station.complete_service t s in
  Station.queue s' = Station.queue s
  ∧ Station.servers_busy s' = (Station.servers_busy s - 1)%Z
  ∧ Station.num_servers s' = Station.num_servers s
  ∧ Station.mean_service_time s' = Station.mean_service_time s
  ∧ Station.total_service_time s' = Station.total_service_time s
  ∧ Station.last_update_time s' = t.
Proof.
  unfold Station.complete_service, Station._update_queue_stats.
  by destruct (Qlt_bool 0 (Station.last_update_time s)).
Qed.

Lemma start_service_Some t s k s' :
  Station.start_service t s = (Some k, s') →
  Station.queue s = k :: Station.queue s'
  ∧ Station.servers_busy s' = (Station.servers_busy s + 1)%Z
  ∧ Station.num_servers s' = Station.num_servers s
  ∧ Station.mean_service_time s' = Station.mean_service_time s
  ∧ Station.total_service_time s' = Station.total_service_time s
  ∧ Station.last_update_time s' = t
  ∧ Station.is_available s = true.
Proof.
  destruct (update_queue_stats_facts t s) as (Hq & Hb & Hn & Hm & Hs & Hl).
  unfold Station.start_service. rewrite Hq.
  destruct (Station.queue s) as [|k' rest]; [done|].
  destruct (Station.is_available _) eqn:Hav; [|done].
  intros [= <- <-].
  unfold Station.is_available in *. rewrite Hb, Hn in Hav.
  change (k' :: rest = k' :: rest
          ∧ (Station.servers_busy (Station._update_queue_stats t s) + 1)%Z
            = (Station.servers_busy s + 1)%Z
          ∧ Station.num_servers (Station._update_queue_stats t s)
            = Station.num_servers s
          ∧ Station.mean_service_time (Station._update_queue_stats t s)
            = Station.mean_service_time s
          ∧ Station.total_service_time (Station._update_queue_stats t s)
            = Station.total_service_time s
          ∧ Station.last_update_time (Station._update_queue_stats t s) = t
          ∧ bool_decide
              (Station.servers_busy s < Station.num_servers s)%Z = true).
  by rewrite Hb.
Qed.

Lemma start_service_None t s s' :
  Station.start_service t s = (None, s') →
  s' = Station._update_queue_stats t s
  ∧ (Station.queue s = [] ∨ Station.is_available s = false).
Proof.
  destruct (update_queue_stats_facts t s) as (Hq & Hb & Hn & Hm & Hs & Hl).
  unfold Station.start_service. rewrite Hq.
  destruct (Station.queue s) as [|k' rest]; [intros [= <-]; auto|].
  destruct (Station.is_available _) eqn:Hav; [done|].
  intros [= <-]. split; [done|]. right.
  unfold Station.is_available in *. by rewrite Hb, Hn in Hav.
Qed.

(** When a server is free and the queue is not empty, service starts
    with the head of the queue. *)
Lemma start_service_head t s k rest :
  Station.queue s = k :: rest → Station.is_available s = true →
  ∃ s', Station.start_service t s = (Some k, s').
Proof.
  intros Hqs Hav.
  destruct (update_queue_stats_facts t s) as (Hq & Hb & Hn & Hm & Hs & Hl).
  unfold Station.start_service. rewrite Hq, Hqs.
  replace (Station.is_available (Station._update_queue_stats t s))
    with true; [by eexists|].
  unfold Station.is_available in *. by rewrite Hb, Hn.
Qed.

End station_theory.

(** ** The handlers, case by case *)

(** Projections of updated networks, the operations left folded. *)
Ltac net_simpl :=
  unfold schedule_event, set_stations, set_jobs, set_event_queue,
    set_current_time, set_jobs_in_transit, set_total_completions,
    set_warmup_completions in *;
  cbn [stations jobs event_queue current_time jobs_in_transit
       total_completions num_jobs routing_matrix num_stations
       warmup_completions] in *.

Section handler_theory.
Context {RNG : Type} {source : RandomSource RNG}.
Implicit Types (e : Event.t) (self : Network) (g : RNG).

(** What [process_arrival] returns: the station either stays saturated
    and only gains the job in its queue, or it starts a service. *)
Lemma process_arrival_Ok e self g self' g' :
  process_arrival e self g = Ok (self', g') →
  ∃ s job,
    stations self !! Event.station_id e = Some s
    ∧ jobs self !! Event.job_id e = Some job
    ∧ let t := current_time self in
      let s1 := Station.add_to_queue (Event.job_id e) t s in
      let base :=
        set_jobs_in_transit
          (jobs_in_transit self ∖ {[Event.job_id e]}) self in
      (Station.is_available s = false ∧ g' = g
       ∧ self' = set_stations
                   (<[Event.station_id e := s1]> (stations self)) base)
      ∨ (Station.is_available s = true
         ∧ ∃ k s2 d,
             Station.start_service t s1 = (Some k, s2)
             ∧ np_random_exponential (Station.mean_service_time s) g
               = Ok (d, g')
             ∧ self' =
               schedule_event (t + d)%Q DEPARTURE k (Event.station_id e)
                 (set_jobs
                    (<[Event.job_id e :=
                         Job.append_visit
                           (Event.station_id e, Event.time e, (t + d)%Q)
                           job]> (jobs self))
                    (set_stations
                       (<[Event.station_id e :=
                            Station.set_total_service_time
                              (Station.total_service_time s2 + d)%Q s2]>
                          (stations self)) base))).
Proof.
  unfold process_arrival. intros Hp.
  bind_inv Hp. rename x into s. bind_inv Hp. rename x into job.
  exists s, job. split; [done|]. split; [done|]. cbn zeta.
  rewrite add_to_queue_available in Hp. simpl current_time in Hp.
  destruct (Station.is_available s) eqn:Hav.
  - right. split; [done|].
    destruct (add_to_queue_facts (Event.job_id e) (current_time self) s)
      as (Hq & _ & _ & Hm & _).
    destruct (Station.queue s ++ [Event.job_id e]) as [|k rest] eqn:Hqs.
    { by destruct (Station.queue s). }
    destruct (start_service_head (current_time self)
                (Station.add_to_queue (Event.job_id e) (current_time self) s)
                k rest) as [s2 Hs2].
    { by rewrite Hq. }
    { by rewrite add_to_queue_available. }
    rewrite Hs2 in Hp.
    bind_inv Hp. destruct x as [d g1].
    injection Hp as <- <-.
    exists k, s2, d. split; [done|]. split; [|done].
    apply start_service_Some in Hs2 as (_ & _ & _ & Hm2 & _).
    unfold Station.generate_service_time in Hx1.
    by rewrite Hm2, Hm in Hx1.
  - left. by injection Hp as <- <-.
Qed.

(** What [process_departure] returns: the freed server either takes the
    head of the queue or stays free; the departing job is routed. *)
Lemma process_departure_Ok e self g self' g' :
  process_departure e self g = Ok (self', g') →
  ∃ s job next g1,
    stations self !! Event.station_id e = Some s
    ∧ jobs self !! Event.job_id e = Some job
    ∧ let t := current_time self in
      let sid := Event.station_id e in
      let s1 := Station.complete_service t s in
      let route self1 :=
        schedule_event t ARRIVAL (Event.job_id e) next
          (set_jobs_in_transit
             ({[Event.job_id e]} ∪ jobs_in_transit self1) self1) in
      let completed sx :=
        set_total_completions (total_completions self + 1)
          (set_stations (<[sid := sx]> (stations self)) self) in
      get_next_station sid self g1 = Ok (next, g')
      ∧ ((Station.queue s = [] ∧ g1 = g
          ∧ self' = route (completed s1))
         ∨ (Station.queue s ≠ [] ∧ Station.is_available s1 = false
            ∧ g1 = g
            ∧ self' =
              route (completed (Station._update_queue_stats t s1)))
         ∨ (Station.is_available s1 = true
            ∧ ∃ k s2 d next_job,
                Station.start_service t s1 = (Some k, s2)
                ∧ np_random_exponential (Station.mean_service_time s) g
                  = Ok (d, g1)
                ∧ jobs self !! k = Some next_job
                ∧ self' =
                  route
                    (schedule_event (t + d)%Q DEPARTURE k sid
                       (set_jobs
                          (<[k := Job.append_visit (sid, t, (t + d)%Q)
                                    next_job]> (jobs self))
                          (completed
                             (Station.set_total_service_time
                                (Station.total_service_time s2 + d)%Q
                                s2)))))).
Proof.
  unfold process_departure. intros Hp.
  bind_inv Hp. rename x into s. bind_inv Hp. rename x into job.
  bind_inv Hp. destruct x as [self1 g1].
  bind_inv Hp. destruct x as [next g2]. injection Hp as <- <-.
  exists s, job, next, g1. split; [done|]. split; [done|]. cbn zeta.
  destruct (complete_service_facts (current_time self) s)
    as (Hq & Hb & Hn & Hm & _).
  rewrite Hq in Hx1.
  destruct (Station.queue s) as [|k rest] eqn:Hqs.
  - injection Hx1 as <- <-. split; [|by left].
    by rewrite <- Hx2.
  - net_simpl.
    destruct (Station.start_service _ _) as [[k'|] s2] eqn:Hs2.
    + bind_inv Hx1. destruct x as [d g3]. net_simpl.
      rewrite !list_insert_insert_eq in Hx1.
      bind_inv Hx1. rename x into next_job.
      injection Hx1 as <- <-.
      pose proof Hs2 as Hs2'.
      apply start_service_Some in Hs2' as (_ & _ & _ & Hm2 & _ & _ & Hav).
      split; [by rewrite <- Hx2|].
      right. right. split; [done|].
      exists k', s2, d, next_job. split; [done|].
      unfold Station.generate_service_time in Hx3.
      rewrite Hm2, Hm in Hx3. split; [done|]. split; [done|].
      net_simpl. by rewrite ?list_insert_insert_eq.
    + injection Hx1 as <- <-.
      apply start_service_None in Hs2 as [-> [Hnil|Hav]].
      { by rewrite Hq in Hnil. }
      split; [by rewrite <- Hx2|].
      right. left. split; [done|]. split; [done|].
      split; [done|]. net_simpl. by rewrite ?list_insert_insert_eq.
Qed.

End handler_theory.

(** ** Counting over the stations and the event queue *)

Section counting.
Implicit Types (sts : list Station.t) (s : Station.t) (q : list Event.t)
  (T : gset Z) (e x : Event.t) (j : Z).

(** A station held in the list, and the list with that station replaced. *)
Lemma stations_split sts i s :
  sts !! i = Some s →
  ∃ l1 l2, sts = l1 ++ s :: l2 ∧ ∀ s', <[i := s']> sts = l1 ++ s' :: l2.
Proof.
  intros Hi. exists (take i sts), (drop (S i) sts). split.
  - by rewrite take_drop_middle.
  - intros s'. apply lookup_lt_Some in Hi as Hlt.
    by rewrite insert_take_drop.
Qed.

Lemma wip_in_stations_app l1 l2 :
  wip_in_stations (l1 ++ l2)
  = (wip_in_stations l1 + wip_in_stations l2)%Z.
Proof.
  induction l1 as [|s l1 IH]; simpl; [done|]. rewrite IH. lia.
Qed.

Lemma wip_in_stations_insert sts i s s' :
  sts !! i = Some s →
  wip_in_stations (<[i := s']> sts)
  = (wip_in_stations sts - station_wip s + station_wip s')%Z.
Proof.
  intros (l1 & l2 & -> & Hins)%stations_split. rewrite Hins.
  rewrite !wip_in_stations_app. simpl. lia.
Qed.

Lemma queued_jobs_insert sts i s s' :
  sts !! i = Some s →
  queued_jobs (<[i := s']> sts) ++ Station.queue s
  ≡ₚ queued_jobs sts ++ Station.queue s'.
Proof.
  intros (l1 & l2 & -> & Hins)%stations_split. rewrite Hins.
  unfold queued_jobs. rewrite !bind_app, !bind_cons. solve_Permutation.
Qed.

Lemma wip_in_stations_physical sts sts' :
  physical <$> sts = physical <$> sts' →
  wip_in_stations sts = wip_in_stations sts'.
Proof.
  revert sts'. induction sts as [|s sts IH]; intros [|s' sts'] Heq;
    try done.
  rewrite !fmap_cons in Heq. injection Heq as Hq Hb Heq.
  simpl. unfold station_wip.
  rewrite Hq, Hb. by rewrite (IH sts').
Qed.

Lemma queued_jobs_physical sts sts' :
  physical <$> sts = physical <$> sts' →
  queued_jobs sts = queued_jobs sts'.
Proof.
  revert sts'. induction sts as [|s sts IH]; intros [|s' sts'] Heq;
    try done.
  rewrite !fmap_cons in Heq. injection Heq as Hq Hb Heq.
  unfold queued_jobs.
  rewrite !bind_cons, Hq. f_equal. by apply IH.
Qed.

Lemma count_initial_cons T e q :
  count_initial T (e :: q)
  = (if decide (initial_arrival T e) then 1 else 0) + count_initial T q.
Proof.
  unfold count_initial. rewrite filter_cons. by case_decide.
Qed.

Lemma count_initial_app T q1 q2 :
  count_initial T (q1 ++ q2) = count_initial T q1 + count_initial T q2.
Proof. unfold count_initial. by rewrite filter_app, length_app. Qed.

#[global] Instance count_initial_perm T :
  Proper ((≡ₚ) ==> (=)) (count_initial T).
Proof. intros q1 q2 Hq. unfold count_initial. by rewrite Hq. Qed.

Lemma count_initial_none T q :
  (∀ x, x ∈ q → ¬ initial_arrival T x) → count_initial T q = 0.
Proof.
  intros Hno. induction q as [|e q IH]; [done|].
  rewrite count_initial_cons, IH.
  - case_decide; [|done]. exfalso. eapply Hno; [left|done].
  - intros x Hx. apply Hno. by right.
Qed.

Lemma count_initial_all q :
  (∀ x, x ∈ q → Event.event_type x = ARRIVAL) →
  count_initial ∅ q = length q.
Proof.
  intros Harr. induction q as [|e q IH]; [done|].
  rewrite count_initial_cons, IH.
  - case_decide as Hd; [done|]. exfalso. apply Hd. split.
    + apply Harr. left.
    + set_solver.
  - intros x Hx. apply Harr. by right.
Qed.

(** The status of a pending event only depends on whether its own job
    is in transit. *)
Lemma count_initial_ext T T' q :
  (∀ x, x ∈ q → Event.job_id x ∈ T ↔ Event.job_id x ∈ T') →
  count_initial T q = count_initial T' q.
Proof.
  intros Hsame. induction q as [|e q IH]; [done|].
  rewrite !count_initial_cons, IH.
  - assert (Event.job_id e ∈ T ↔ Event.job_id e ∈ T') as He
      by (apply Hsame; left).
    unfold initial_arrival. repeat case_decide; naive_solver.
  - intros x Hx. apply Hsame. by right.
Qed.

Lemma size_discard T j :
  Z.of_nat (size (T ∖ {[j]}))
  = (Z.of_nat (size T) - (if decide (j ∈ T) then 1 else 0))%Z.
Proof.
  case_decide as Hj.
  - rewrite size_difference by set_solver. rewrite size_singleton.
    assert (size T ≠ 0); [|lia].
    intros Hz%size_empty_inv. set_solver.
  - replace (T ∖ {[j]}) with T by set_solver. lia.
Qed.

Lemma size_add T j :
  j ∉ T → Z.of_nat (size ({[j]} ∪ T)) = (Z.of_nat (size T) + 1)%Z.
Proof.
  intros Hj. rewrite size_union by set_solver. rewrite size_singleton. lia.
Qed.

End counting.

(** ** The accounting of the jobs across one handler *)

Section accounting.
Implicit Types (self : Network) (s : Station.t) (e x : Event.t).

Lemma jobs_mid_fresh e self x :
  jobs_mid e self → x ∈ event_queue self →
  Event.job_id x ≠ Event.job_id e.
Proof.
  intros Hmid Hx Heq.
  assert (NoDup (Event.job_id e :: tracked_jobs self)) as Hnd.
  { rewrite (jm_tracked _ _ Hmid). apply NoDup_seqZ. }
  apply NoDup_cons in Hnd as [Hnotin _]. apply Hnotin.
  unfold tracked_jobs. apply elem_of_app. left.
  rewrite <- Heq. by apply list_elem_of_fmap_2.
Qed.

(** An arrival: the job enters the queue of its station, and the station
    hands at most one job (in [new], a departure) to a server. *)
Lemma jobs_inv_arrival e self self' s s' new :
  jobs_mid e self → Event.event_type e = ARRIVAL →
  stations self !! Event.station_id e = Some s →
  stations self' = <[Event.station_id e := s']> (stations self) →
  jobs_in_transit self' = jobs_in_transit self ∖ {[Event.job_id e]} →
  num_jobs self' = num_jobs self →
  current_time self' = current_time self →
  heap_ok (event_queue self') →
  event_queue self' ≡ₚ new ++ event_queue self →
  (∀ x, x ∈ new → Event.event_type x = DEPARTURE) →
  (Event.job_id <$> new) ++ Station.queue s'
    ≡ₚ Station.queue s ++ [Event.job_id e] →
  Station.servers_busy s'
    = (Station.servers_busy s + Z.of_nat (length new))%Z →
  jobs_inv self'.
Proof.
  intros Hmid Harr Hs Hsts Htr Hnj Hct Hheap Hq Hnew Hmove Hbusy.
  pose proof (jobs_mid_fresh e self) as Hfresh.
  assert (Hcount : ∀ T', (∀ x, x ∈ new → ¬ initial_arrival T' x)).
  { intros T' x Hx [Hty _]. rewrite (Hnew x Hx) in Hty. discriminate. }
  assert (Hsame : count_initial (jobs_in_transit self') (event_queue self')
                  = count_initial (jobs_in_transit self) (event_queue self)).
  { rewrite Hq, count_initial_app, (count_initial_none _ new)
      by apply Hcount.
    simpl. apply count_initial_ext. intros x Hx. rewrite Htr.
    specialize (Hfresh x Hmid Hx). set_solver. }
  split.
  - done.
  - unfold tracked_jobs. rewrite Hnj, <- (jm_tracked _ _ Hmid), Hsts, Hq.
    unfold tracked_jobs. rewrite fmap_app.
    apply (Permutation_app_inv_r (Station.queue s)).
    trans ((Event.job_id <$> new) ++ (Event.job_id <$> event_queue self)
           ++ (queued_jobs (<[Event.station_id e := s']> (stations self))
               ++ Station.queue s)); [solve_Permutation|].
    rewrite (queued_jobs_insert _ _ s s' Hs).
    trans ((Event.job_id <$> event_queue self)
           ++ queued_jobs (stations self)
           ++ ((Event.job_id <$> new) ++ Station.queue s'));
      [solve_Permutation|].
    rewrite Hmove. solve_Permutation.
  - intros j Hj. rewrite Htr in Hj.
    destruct (jm_transit _ _ Hmid j) as (x & Hx & Hty & Hjx); [set_solver|].
    exists x. split; [|done]. rewrite Hq.
    apply elem_of_cons in Hx as [->|Hx]; [set_solver|].
    apply elem_of_app. by right.
  - intros x Hx [Hty Hnt]. rewrite Hq in Hx.
    apply elem_of_app in Hx as [Hx|Hx].
    { rewrite (Hnew x Hx) in Hty. discriminate. }
    apply (jm_initial _ _ Hmid x Hx). split; [done|].
    rewrite Htr in Hnt. specialize (Hfresh x Hmid Hx). set_solver.
  - unfold pending_initial. rewrite Hsame, Hnj, <- (jm_wip _ _ Hmid).
    rewrite count_initial_cons. unfold wip.
    rewrite Hsts, (wip_in_stations_insert _ _ s s' Hs), Htr, size_discard.
    apply Permutation_length in Hmove.
    rewrite !length_app, length_fmap in Hmove. simpl in Hmove.
    unfold station_wip. rewrite Hbusy.
    unfold initial_arrival.
    destruct (decide (Event.job_id e ∈ jobs_in_transit self)),
      (decide (_ ∧ _)) as [[_ ?]|Hn]; try done; [lia|lia|].
    exfalso. by apply Hn.
  - intros Hpos. unfold pending_initial. rewrite Hsame.
    apply (jm_started _ _ Hmid). by rewrite <- Hct.
Qed.

(** A departure: the job leaves its server and is routed (the new
    arrival [arr]); the freed server takes at most one job of the queue. *)
Lemma jobs_inv_departure e self self' s s' new arr :
  jobs_mid e self → Event.event_type e = DEPARTURE →
  stations self !! Event.station_id e = Some s →
  stations self' = <[Event.station_id e := s']> (stations self) →
  jobs_in_transit self' = {[Event.job_id e]} ∪ jobs_in_transit self →
  num_jobs self' = num_jobs self →
  current_time self' = current_time self →
  heap_ok (event_queue self') →
  event_queue self' ≡ₚ arr :: new ++ event_queue self →
  Event.event_type arr = ARRIVAL → Event.job_id arr = Event.job_id e →
  (∀ x, x ∈ new → Event.event_type x = DEPARTURE) →
  (Event.job_id <$> new) ++ Station.queue s' ≡ₚ Station.queue s →
  Station.servers_busy s'
    = (Station.servers_busy s - 1 + Z.of_nat (length new))%Z →
  jobs_inv self'.
Proof.
  intros Hmid Hdep Hs Hsts Htr Hnj Hct Hheap Hq Harr Hja Hnew Hmove Hbusy.
  pose proof (jobs_mid_fresh e self) as Hfresh.
  assert (Hnotin : Event.job_id e ∉ jobs_in_transit self).
  { intros Hin.
    destruct (jm_transit _ _ Hmid _ Hin) as (x & Hx & Hty & Hjx).
    apply elem_of_cons in Hx as [->|Hx]; [congruence|].
    by apply (Hfresh x Hmid Hx). }
  assert (Hsame : count_initial (jobs_in_transit self') (event_queue self')
                  = count_initial (jobs_in_transit self) (event_queue self)).
  { rewrite Hq, count_initial_cons, count_initial_app.
    rewrite (count_initial_none _ new).
    2:{ intros x Hx [Hty _]. rewrite (Hnew x Hx) in Hty. discriminate. }
    case_decide as Hd.
    { destruct Hd as [_ Hd]. rewrite Htr, Hja in Hd. set_solver. }
    simpl. apply count_initial_ext. intros x Hx. rewrite Htr.
    specialize (Hfresh x Hmid Hx). set_solver. }
  split.
  - done.
  - unfold tracked_jobs. rewrite Hnj, <- (jm_tracked _ _ Hmid), Hsts, Hq.
    unfold tracked_jobs. rewrite fmap_cons, fmap_app, Hja. simpl.
    apply Permutation_cons; [done|].
    apply (Permutation_app_inv_r (Station.queue s)).
    trans ((Event.job_id <$> new) ++ (Event.job_id <$> event_queue self)
           ++ (queued_jobs (<[Event.station_id e := s']> (stations self))
               ++ Station.queue s)); [solve_Permutation|].
    rewrite (queued_jobs_insert _ _ s s' Hs).
    trans ((Event.job_id <$> event_queue self)
           ++ queued_jobs (stations self)
           ++ ((Event.job_id <$> new) ++ Station.queue s'));
      [solve_Permutation|].
    rewrite Hmove. solve_Permutation.
  - intros j Hj. rewrite Htr in Hj.
    apply elem_of_union in Hj as [->%elem_of_singleton|Hj].
    { exists arr. split; [|done]. rewrite Hq. left. }
    destruct (jm_transit _ _ Hmid j Hj) as (x & Hx & Hty & Hjx).
    exists x. split; [|done]. rewrite Hq.
    apply elem_of_cons in Hx as [->|Hx]; [congruence|].
    right. apply elem_of_app. by right.
  - intros x Hx [Hty Hnt]. rewrite Hq in Hx.
    apply elem_of_cons in Hx as [->|Hx].
    { rewrite Htr, Hja in Hnt. set_solver. }
    apply elem_of_app in Hx as [Hx|Hx].
    { rewrite (Hnew x Hx) in Hty. discriminate. }
    apply (jm_initial _ _ Hmid x Hx). split; [done|].
    rewrite Htr in Hnt. set_solver.
  - unfold pending_initial. rewrite Hsame, Hnj, <- (jm_wip _ _ Hmid).
    rewrite count_initial_cons. unfold wip.
    rewrite Hsts, (wip_in_stations_insert _ _ s s' Hs), Htr.
    rewrite (size_add _ _ Hnotin).
    apply Permutation_length in Hmove.
    rewrite !length_app, length_fmap in Hmove.
    unfold station_wip. rewrite Hbusy.
    case_decide as Hd; [|lia].
    destruct Hd as [Hd _]. congruence.
  - intros Hpos. unfold pending_initial. rewrite Hsame.
    apply (jm_started _ _ Hmid). by rewrite <- Hct.
Qed.

End accounting.

(** ** One iteration of the [run] loop *)

Section loop_theory.
Context {RNG : Type} {source : RandomSource RNG}.
Implicit Types (st : LoopState (RNG := RNG)) (self : Network) (g : RNG)
  (e : Event.t).

Lemma loop_body_Ok warmup_time st st' :
  loop_body warmup_time st = Ok st' →
  ∃ e rest,
    heapq.heappop (event_queue (network st)) = Some (e, rest)
    ∧ dispatch e (handler_state warmup_time st e rest) (generator st)
      = Ok (network st', generator st')
    ∧ warmup_done st' = (if fires warmup_time st e then true
                         else warmup_done st)
    ∧ processed st' = processed st ++ [e].
Proof.
  unfold loop_body. intros Hb.
  bind_inv Hb. destruct x as [e rest]. exists e, rest. split; [done|].
  unfold handler_state, fires, popped.
  cbn [current_time set_current_time] in Hb.
  destruct (negb (warmup_done st) && Qle_bool warmup_time (Event.time e));
    bind_inv Hb; destruct x as [self' g']; by injection Hb as <-.
Qed.

Lemma handler_state_facts warmup_time st e rest :
  let mid := handler_state warmup_time st e rest in
  event_queue mid = rest
  ∧ current_time mid = Event.time e
  ∧ jobs_in_transit mid = jobs_in_transit (network st)
  ∧ num_jobs mid = num_jobs (network st)
  ∧ jobs mid = jobs (network st)
  ∧ physical <$> stations mid = physical <$> stations (network st)
  ∧ Station.num_servers <$> stations mid
    = Station.num_servers <$> stations (network st).
Proof.
  unfold handler_state. destruct (fires warmup_time st e); [|done].
  unfold _reset_statistics, popped. net_simpl.
  repeat split; rewrite <- list_fmap_compose; by apply list_fmap_ext.
Qed.

End loop_theory.

(** ** The accounting of the jobs along a run *)

Ltac busy_count Hb2 Hb1 :=
  cbn [Station.servers_busy Station.set_total_service_time length];
  rewrite ?Hb2, ?Hb1; lia.

Ltac no_new_event :=
  try (by intros ? ?%elem_of_nil);
  try (by intros ? ->%list_elem_of_singleton).

Section jobs_run.
Context {RNG : Type} {source : RandomSource RNG}.
Implicit Types (st : LoopState (RNG := RNG)) (self : Network) (g : RNG)
  (e : Event.t).

Lemma jobs_mid_intro self e rest mid :
  jobs_inv self → heapq.heappop (event_queue self) = Some (e, rest) →
  event_queue mid = rest → current_time mid = Event.time e →
  jobs_in_transit mid = jobs_in_transit self →
  num_jobs mid = num_jobs self →
  physical <$> stations mid = physical <$> stations self →
  jobs_mid e mid.
Proof.
  intros Hinv Hpop Hq Hct Htr Hnj Hph.
  destruct (heappop_ok _ _ _ (ji_heap _ Hinv) Hpop) as (Hheap & Hperm & Hmin).
  split.
  - by rewrite Hq.
  - rewrite Hnj, <- (ji_tracked _ Hinv). unfold tracked_jobs.
    rewrite Hq, (queued_jobs_physical _ _ Hph), Hperm. done.
  - intros j Hj. rewrite Htr in Hj.
    destruct (ji_transit _ Hinv j Hj) as (x & Hx & Hty & Hjx).
    exists x. split; [|done]. by rewrite Hq, <- Hperm.
  - intros x Hx Hini. rewrite Htr in Hini. rewrite Hq in Hx.
    apply (ji_initial _ Hinv); [|done]. rewrite Hperm. by right.
  - rewrite Hnj, <- (ji_wip _ Hinv). unfold wip, pending_initial.
    by rewrite Hq, Htr, (wip_in_stations_physical _ _ Hph), Hperm.
  - rewrite Hct, Htr, Hq. intros Hpos.
    apply count_initial_none. intros x Hx Hini.
    assert (Event.time x == 0)%Q as Hz.
    { apply (ji_initial _ Hinv); [|done]. rewrite Hperm. by right. }
    specialize (Hmin x Hx). lra.
Qed.

Lemma dispatch_jobs_inv e mid g self' g' :
  jobs_mid e mid → dispatch e mid g = Ok (self', g') → jobs_inv self'.
Proof.
  intros Hmid. unfold dispatch.
  destruct (Event.event_type e) eqn:Hty.
  - intros (s & job & Hs & _ & Hcases)%process_arrival_Ok.
    cbn zeta in Hcases.
    destruct (add_to_queue_facts (Event.job_id e) (current_time mid) s)
      as (Hq1 & Hb1 & _).
    destruct Hcases as [(_ & _ & ->)|(_ & k & s2 & d & Hst & _ & ->)].
    + eapply (jobs_inv_arrival e mid _ s _ [] Hmid Hty Hs);
        try done; no_new_event.
      * apply (jm_heap _ _ Hmid).
      * by rewrite Hq1.
      * busy_count Hb1 Hb1.
    + apply start_service_Some in Hst as (Hq2 & Hb2 & _).
      destruct (heappush_ok (event_queue mid)
                  (Event.mk (current_time mid + d) DEPARTURE k
                     (Event.station_id e)) (jm_heap _ _ Hmid))
        as [Hheap Hperm].
      eapply (jobs_inv_arrival e mid _ s _ [_] Hmid Hty Hs);
        try done; no_new_event.
      * cbn [Station.queue Station.set_total_service_time].
        by rewrite <- Hq1, Hq2.
      * busy_count Hb2 Hb1.
  - intros (s & job & next & g1 & Hs & _ & Hcases)%process_departure_Ok.
    cbn zeta in Hcases. destruct Hcases as [_ Hcases].
    destruct (complete_service_facts (current_time mid) s)
      as (Hq1 & Hb1 & _).
    set (arr := Event.mk (current_time mid) ARRIVAL (Event.job_id e) next).
    destruct (heappush_ok (event_queue mid) arr (jm_heap _ _ Hmid))
      as [Hheap0 Hperm0].
    destruct Hcases as [(_ & _ & ->)|[(_ & _ & _ & ->)
                                     |(_ & k & s2 & d & nj & Hst & _ & _ & ->)]].
    + eapply (jobs_inv_departure e mid _ s _ [] arr Hmid Hty Hs);
        try done; no_new_event.
      * by rewrite Hq1.
      * busy_count Hb1 Hb1.
    + destruct (update_queue_stats_facts (current_time mid)
                  (Station.complete_service (current_time mid) s))
        as (Hq2 & Hb2 & _).
      eapply (jobs_inv_departure e mid _ s _ [] arr Hmid Hty Hs);
        try done; no_new_event.
      * by rewrite Hq2, Hq1.
      * busy_count Hb2 Hb1.
    + apply start_service_Some in Hst as (Hq2 & Hb2 & _).
      set (dep := Event.mk (current_time mid + d) DEPARTURE k
                    (Event.station_id e)).
      destruct (heappush_ok (event_queue mid) dep (jm_heap _ _ Hmid))
        as [Hheap1 Hperm1].
      destruct (heappush_ok _ arr Hheap1) as [Hheap Hperm].
      eapply (jobs_inv_departure e mid _ s _ [dep] arr Hmid Hty Hs);
        try done; no_new_event.
      * rewrite <- Hperm1. exact Hperm.
      * cbn [Station.queue Station.set_total_service_time].
        by rewrite <- Hq1, Hq2.
      * busy_count Hb2 Hb1.
Qed.

Lemma loop_body_jobs_inv warmup_time st st' :
  jobs_inv (network st) → loop_body warmup_time st = Ok st' →
  jobs_inv (network st').
Proof.
  intros Hinv (e & rest & Hpop & Hdisp & _)%loop_body_Ok.
  destruct (handler_state_facts warmup_time st e rest)
    as (Hq & Hct & Htr & Hnj & _ & Hph & _).
  eapply dispatch_jobs_inv; [|done].
  by eapply jobs_mid_intro.
Qed.

End jobs_run.

(** ** What a handler does to its station and to the event queue *)

Section effect.
Context {RNG : Type} {source : RandomSource RNG}.
Implicit Types (self mid : Network) (g : RNG) (e x : Event.t)
  (s : Station.t).

Lemma available_iff s :
  Station.is_available s = true
  ↔ (Station.servers_busy s < Station.num_servers s)%Z.
Proof. unfold Station.is_available. apply bool_decide_eq_true. Qed.

Lemma not_available_iff s :
  Station.is_available s = false
  ↔ (Station.num_servers s ≤ Station.servers_busy s)%Z.
Proof.
  unfold Station.is_available. rewrite bool_decide_eq_false. lia.
Qed.

Lemma dispatch_effect e mid g self' g' :
  dispatch e mid g = Ok (self', g') →
  ∃ s s' new,
    stations mid !! Event.station_id e = Some s
    ∧ stations self' = <[Event.station_id e := s']> (stations mid)
    ∧ current_time self' = current_time mid
    ∧ num_jobs self' = num_jobs mid
    ∧ Station.last_update_time s' = current_time mid
    ∧ Station.num_servers s' = Station.num_servers s
    ∧ event_queue self' ≡ₚ new ++ event_queue mid
    ∧ (heap_ok (event_queue mid) → heap_ok (event_queue self'))
    ∧ (∀ x, x ∈ new → scheduled_at (current_time mid) x)
    ∧ (no_idle_wait s → no_idle_wait s')
    ∧ (station_inv s → station_inv s')
    ∧ (Event.event_type e = ARRIVAL → no_idle_wait s →
       ∀ x, x ∈ new →
            x = Event.mk (Event.time x) DEPARTURE (Event.job_id e)
                  (Event.station_id e)).
Proof.
  unfold dispatch, no_idle_wait, station_inv, saturated.
  destruct (Event.event_type e) eqn:Hty.
  - intros (s & job & Hs & _ & Hcases)%process_arrival_Ok.
    cbn zeta in Hcases.
    destruct (add_to_queue_facts (Event.job_id e) (current_time mid) s)
      as (Hq1 & Hb1 & Hn1 & _ & _ & Hl1).
    destruct Hcases as [(Hav & _ & ->)|(Hav & k & s2 & d & Hst & Hd & ->)].
    + exists s, (Station.add_to_queue (Event.job_id e) (current_time mid) s),
        []. apply not_available_iff in Hav.
      split_and!; try done.
      * by intros x Hx%elem_of_nil.
      * intros _ _. apply not_available_iff. by rewrite Hb1, Hn1.
      * rewrite Hb1, Hn1. intros [Hle _]. split; [done|]. intros _. lia.
      * by intros _ _ x Hx%elem_of_nil.
    + apply start_service_Some in Hst
        as (Hq2 & Hb2 & Hn2 & _ & _ & Hl2 & _).
      apply available_iff in Hav.
      set (dep := Event.mk (current_time mid + d) DEPARTURE k
                    (Event.station_id e)).
      pose proof (heappush_perm (event_queue mid) dep) as Hperm.
      exists s, (Station.set_total_service_time
                   (Station.total_service_time s2 + d)%Q s2), [dep].
      assert (Hempty : (Station.queue s ≠ [] →
                        Station.is_available s = false) →
                Station.queue s = []
                ∧ k = Event.job_id e ∧ Station.queue s2 = []).
      { intros Hni. destruct (Station.queue s) as [|k0 rest] eqn:Hqs.
        - rewrite Hq1 in Hq2. by injection Hq2 as <- <-.
        - exfalso. assert (Station.is_available s = false) as Hna
            by (by apply Hni).
          apply not_available_iff in Hna. lia. }
      cbn [Station.servers_busy Station.num_servers Station.queue
           Station.last_update_time Station.set_total_service_time].
      split_and!; try done.
      * by rewrite Hn2.
      * intros Hheap. by apply heappush_ok.
      * intros x ->%list_elem_of_singleton. right. by exists (Station.mean_service_time s), g, d, g'.
      * intros Hni Hne. exfalso. apply Hne. by apply Hempty.
      * intros [Hle Hsat]. split; [lia|]. intros Hne. exfalso. apply Hne.
        apply Hempty. intros Hq. apply Hsat in Hq. lia.
      * intros _ Hni x ->%list_elem_of_singleton.
        destruct (Hempty Hni) as (_ & -> & _). done.
  - intros (s & job & next & g1 & Hs & _ & Hcases)%process_departure_Ok.
    cbn zeta in Hcases. destruct Hcases as [_ Hcases].
    destruct (complete_service_facts (current_time mid) s)
      as (Hq1 & Hb1 & Hn1 & _ & _ & Hl1).
    set (arr := Event.mk (current_time mid) ARRIVAL (Event.job_id e) next).
    assert (Harr : scheduled_at (current_time mid) arr) by (by left).
    pose proof (heappush_perm (event_queue mid) arr) as Hperm0.
    destruct Hcases as [(Hnil & _ & ->)|[(Hne & Hav & _ & ->)
                         |(Hav & k & s2 & d & nj & Hst & Hd & _ & ->)]].
    + exists s, (Station.complete_service (current_time mid) s), [arr].
      split_and!; try done.
      * intros Hheap. by apply heappush_ok.
      * by intros x ->%list_elem_of_singleton.
      * intros _ Hq. by rewrite Hq1 in Hq.
      * rewrite Hb1, Hn1, Hq1. intros [Hle _]. split; [lia|done].
    + destruct (update_queue_stats_facts (current_time mid)
                  (Station.complete_service (current_time mid) s))
        as (Hq2 & Hb2 & Hn2 & _ & _ & Hl2).
      apply not_available_iff in Hav. rewrite Hb1, Hn1 in Hav.
      exists s, (Station._update_queue_stats (current_time mid)
                   (Station.complete_service (current_time mid) s)), [arr].
      split_and!; try done.
      * by rewrite Hn2.
      * intros Hheap. by apply heappush_ok.
      * by intros x ->%list_elem_of_singleton.
      * intros _ _. apply not_available_iff. rewrite Hb2, Hn2, Hb1, Hn1. lia.
      * intros [Hle _]. lia.
    + apply start_service_Some in Hst
        as (Hq2 & Hb2 & Hn2 & _ & _ & Hl2 & _).
      apply available_iff in Hav. rewrite Hb1, Hn1 in Hav.
      set (dep := Event.mk (current_time mid + d) DEPARTURE k
                    (Event.station_id e)).
      pose proof (heappush_perm (event_queue mid) dep) as Hperm1.
      pose proof (heappush_perm (heapq.heappush (event_queue mid) dep) arr)
        as Hperm.
      exists s, (Station.set_total_service_time
                   (Station.total_service_time s2 + d)%Q s2), [arr; dep].
      assert (Hqs : Station.queue s ≠ []).
      { rewrite <- Hq1, Hq2. done. }
      cbn [Station.servers_busy Station.num_servers Station.queue
           Station.last_update_time Station.set_total_service_time].
      split_and!; try done.
      * by rewrite Hn2.
      * subst arr dep. net_simpl. rewrite Hperm. simpl. by rewrite Hperm1.
      * intros Hheap. by do 2 apply heappush_ok.
      * intros x [->| ->%list_elem_of_singleton]%elem_of_cons; [done|].
        right. by exists (Station.mean_service_time s), g, d, g1.
      * intros Hni _. apply not_available_iff.
        cbn [Station.servers_busy Station.num_servers
             Station.set_total_service_time].
        apply Hni, not_available_iff in Hqs. lia.
      * intros [Hle Hsat]. apply Hsat in Hqs. split; [lia|]. intros _. lia.
Qed.

End effect.

(** ** Building the network *)

Section setup_theory.
Context {RNG : Type} {source : RandomSource RNG}.
Implicit Types (cfg : Config) (self net : Network) (g : RNG).

Lemma init_Ok num_jobs routing_matrix seed g net g' :
  init num_jobs routing_matrix seed g = Ok (net, g') →
  net = mkNetwork num_jobs routing_matrix (length routing_matrix)
          [] ∅ [] 0 ∅ 0 0
  ∧ match seed with
    | Some seed => np_random_seed seed = Ok g'
    | None => g' = g
    end.
Proof.
  unfold init. intros Hi. bind_inv Hi. injection Hi as <- <-.
  split; [done|]. by destruct seed; [|injection Hx as ->].
Qed.

Lemma add_stations_Ok specs self :
  foldl (fun self '(num_servers, mean_service_time, name) =>
           (add_station num_servers mean_service_time name self).2)
        self specs
  = set_stations
      (stations self
       ++ imap (fun i => station_of (length (stations self) + i)) specs)
      self.
Proof.
  revert self. induction specs as [|[[n m] name] specs IH]; intros self.
  - simpl. rewrite app_nil_r. by destruct self.
  - cbn [foldl]. rewrite IH. unfold add_station. cbn [snd]. net_simpl.
    f_equal. rewrite <- app_assoc. f_equal. cbn [imap app]. f_equal.
    + unfold station_of. by rewrite Nat.add_0_r.
    + apply imap_ext. intros i spec _. rewrite length_app. cbn [length].
      unfold compose. f_equal. lia.
Qed.

Lemma construct_Ok cfg g net g' :
  construct cfg g = Ok (net, g') →
  net = mkNetwork (cfg_num_jobs cfg) (cfg_routing_matrix cfg)
          (length (cfg_routing_matrix cfg))
          (imap station_of (cfg_stations cfg)) ∅ [] 0 ∅ 0 0
  ∧ match cfg_seed cfg with
    | Some seed => np_random_seed seed = Ok g'
    | None => g' = g
    end.
Proof.
  unfold construct. intros Hc. bind_inv Hc. destruct x as [net0 g0].
  injection Hc as <- <-. apply init_Ok in Hx as [-> Hseed].
  split; [|done]. by rewrite add_stations_Ok.
Qed.

Lemma initialize_jobs_facts initial_station self :
  let self' := initialize_jobs initial_station self in
  stations self' = stations self
  ∧ jobs_in_transit self' = jobs_in_transit self
  ∧ current_time self' = current_time self
  ∧ num_jobs self' = num_jobs self
  ∧ event_queue self'
    ≡ₚ ((fun j => Event.mk 0 ARRIVAL j initial_station)
          <$> seqZ 0 (num_jobs self)) ++ event_queue self
  ∧ (heap_ok (event_queue self) → heap_ok (event_queue self')).
Proof.
  unfold initialize_jobs. generalize (seqZ 0 (num_jobs self)) as l.
  intros l. revert self. induction l as [|j l IH]; intros self; [done|].
  cbn [foldl]. cbn zeta.
  match goal with |- context [foldl _ ?a l] =>
    destruct (IH a) as (Hs & Ht & Hc & Hn & Hq & Hh) end.
  rewrite Hs, Ht, Hc, Hn. split_and!; try done.
  - rewrite Hq. net_simpl. rewrite heappush_perm, fmap_cons.
    solve_Permutation.
  - intros Hheap. apply Hh. net_simpl. by apply heappush_ok.
Qed.

Lemma setup_Ok cfg g net g' :
  setup cfg g = Ok (net, g') →
  ∃ net0,
    construct cfg g = Ok (net0, g')
    ∧ net = initialize_jobs (cfg_initial_station cfg) net0.
Proof.
  unfold setup. intros Hs. bind_inv Hs. destruct x as [net0 g0].
  injection Hs as <- <-. by exists net0.
Qed.

Lemma heap_ok_nil : heap_ok [].
Proof. by intros i Hi a b Ha. Qed.

Lemma station_of_idle i spec : idle (station_of i spec).
Proof. by destruct spec as [[n m] name]. Qed.

Lemma setup_facts cfg g net g' :
  setup cfg g = Ok (net, g') →
  stations net = imap station_of (cfg_stations cfg)
  ∧ jobs_in_transit net = ∅
  ∧ current_time net = 0%Q
  ∧ num_jobs net = cfg_num_jobs cfg
  ∧ event_queue net
    ≡ₚ (fun j => Event.mk 0 ARRIVAL j (cfg_initial_station cfg))
         <$> seqZ 0 (cfg_num_jobs cfg)
  ∧ heap_ok (event_queue net)
  ∧ Forall idle (stations net).
Proof.
  intros (net0 & [-> _]%construct_Ok & ->)%setup_Ok.
  match goal with |- context [initialize_jobs ?i ?a] =>
    destruct (initialize_jobs_facts i a) as (Hs & Ht & Hc & Hn & Hq & Hh)
  end.
  rewrite Hs, Ht, Hc, Hn. net_simpl. rewrite app_nil_r in Hq.
  split_and!; try done.
  - by apply Hh, heap_ok_nil.
  - apply Forall_lookup. intros i s Hi.
    rewrite list_lookup_imap in Hi.
    destruct (cfg_stations cfg !! i) as [spec|]; [|done].
    injection Hi as <-. apply station_of_idle.
Qed.

Lemma idle_no_wip sts :
  Forall idle sts → wip_in_stations sts = 0%Z ∧ queued_jobs sts = [].
Proof.
  induction 1 as [|s sts (Hq & Hb & _) _ [IHw IHq]]; [done|].
  unfold queued_jobs in *. rewrite bind_cons. simpl.
  unfold station_wip. rewrite Hq, Hb, IHw, IHq. done.
Qed.

Lemma setup_jobs_inv cfg g net g' :
  setup cfg g = Ok (net, g') → jobs_inv net.
Proof.
  intros (Hs & Ht & Hc & Hn & Hq & Hh & Hidle)%setup_facts.
  destruct (idle_no_wip _ Hidle) as [Hw Hqj].
  assert (Harr : ∀ x, x ∈ event_queue net →
            Event.event_type x = ARRIVAL ∧ Event.time x = 0%Q).
  { intros x Hx. rewrite Hq in Hx.
    by apply list_elem_of_fmap in Hx as (j & -> & _). }
  split.
  - done.
  - unfold tracked_jobs. rewrite Hqj, app_nil_r, Hq, Hn.
    rewrite <- list_fmap_compose.
    erewrite list_fmap_ext; [by rewrite list_fmap_id|done].
  - intros j Hj. rewrite Ht in Hj. set_solver.
  - intros x Hx _. destruct (Harr x Hx) as [_ ->]. done.
  - unfold wip, pending_initial. rewrite Hw, Ht, size_empty.
    rewrite count_initial_all by (intros x Hx; by apply Harr).
    rewrite Hq, Hn, !length_fmap. lia.
  - rewrite Hc. intros Hlt. by apply Qlt_irrefl in Hlt.
Qed.

(** ** Induction along a run *)

Lemma run_loop_inv (P : LoopState (RNG := RNG) → Prop)
    simulation_time warmup_time :
  (∀ st st', P st → loop_guard simulation_time st = true →
             loop_body warmup_time st = Ok st' → P st') →
  ∀ fuel st st',
    P st → run_loop fuel simulation_time warmup_time st = Ok st' → P st'.
Proof.
  intros Hstep fuel. induction fuel as [|fuel IH]; intros st st' HP Hrun.
  - by injection Hrun as <-.
  - simpl in Hrun.
    destruct (loop_guard simulation_time st) eqn:Hg;
      [|by injection Hrun as <-].
    bind_inv Hrun. by eapply IH; [eapply Hstep|].
Qed.

Lemma simulate_inv (P : LoopState (RNG := RNG) → Prop) cfg
    simulation_time warmup_time :
  (∀ g net g', setup cfg g = Ok (net, g') → P (mkLoop net g' false [])) →
  (∀ st st', P st → loop_guard simulation_time st = true →
             loop_body warmup_time st = Ok st' → P st') →
  ∀ fuel g st,
    simulate cfg simulation_time warmup_time fuel g = Ok st → P st.
Proof.
  intros Hinit Hstep fuel g st Hsim. unfold simulate in Hsim.
  bind_inv Hsim. destruct x as [net g'].
  eapply run_loop_inv; [exact Hstep| |exact Hsim]. by eapply Hinit.
Qed.

Lemma simulate_jobs_inv cfg simulation_time warmup_time fuel g st :
  simulate cfg simulation_time warmup_time fuel g = Ok st →
  jobs_inv (network st).
Proof.
  apply (simulate_inv (fun st => jobs_inv (network st))).
  - intros g0 net g' Hs. by eapply setup_jobs_inv.
  - intros st0 st' Hinv _. by apply loop_body_jobs_inv.
Qed.

End setup_theory.

(** ** The stations along a run *)

Section stations_run.
Context {RNG : Type} {source : RandomSource RNG}.
Implicit Types (st : LoopState (RNG := RNG)) (self mid : Network) (g : RNG)
  (e : Event.t) (s : Station.t).

Lemma handler_state_stations warmup_time st e rest :
  let mid := handler_state warmup_time st e rest in
  (fires warmup_time st e = false
   ∧ stations mid = stations (network st))
  ∨ (fires warmup_time st e = true
     ∧ stations mid
       = reset_station (Event.time e) <$> stations (network st)).
Proof.
  unfold handler_state. destruct (fires warmup_time st e); [right|left]; done.
Qed.

Lemma loop_body_stations_inv (P : Station.t → Prop) warmup_time st st' :
  (∀ c s, P s → P (reset_station c s)) →
  (∀ e mid g self' g',
     dispatch e mid g = Ok (self', g') →
     Forall P (stations mid) → Forall P (stations self')) →
  Forall P (stations (network st)) →
  loop_body warmup_time st = Ok st' →
  Forall P (stations (network st')).
Proof.
  intros Hreset Hdisp HP (e & rest & _ & Hd & _)%loop_body_Ok.
  apply (Hdisp _ _ _ _ _ Hd).
  destruct (handler_state_stations warmup_time st e rest)
    as [[_ ->]|[_ ->]]; [done|].
  apply Forall_fmap. eapply Forall_impl; [exact HP|]. intros s. apply Hreset.
Qed.

Lemma dispatch_no_idle_wait e mid g self' g' :
  dispatch e mid g = Ok (self', g') →
  Forall no_idle_wait (stations mid) → Forall no_idle_wait (stations self').
Proof.
  intros (s & s' & new & Hs & -> & _ & _ & _ & _ & _ & _ & _ & Hni & _)
    %dispatch_effect HP.
  apply Forall_insert; [done|]. apply Hni.
  by eapply Forall_lookup_1.
Qed.

Lemma dispatch_station_inv e mid g self' g' :
  dispatch e mid g = Ok (self', g') →
  Forall station_inv (stations mid) → Forall station_inv (stations self').
Proof.
  intros (s & s' & new & Hs & -> & _ & _ & _ & _ & _ & _ & _ & _ & Hsi & _)
    %dispatch_effect HP.
  apply Forall_insert; [done|]. apply Hsi.
  by eapply Forall_lookup_1.
Qed.


Lemma station_of_servers i spec :
  Station.num_servers (station_of i spec) = spec.1.1.
Proof. by destruct spec as [[n m] name]. Qed.

Lemma simulate_station_inv cfg simulation_time warmup_time fuel g st :
  Forall (fun spec => (0 ≤ spec.1.1)%Z) (cfg_stations cfg) →
  simulate cfg simulation_time warmup_time fuel g = Ok st →
  Forall station_inv (stations (network st)).
Proof.
  intros Hpos.
  apply (simulate_inv
           (fun st => Forall station_inv (stations (network st)))).
  - intros g0 net g' (Hs & _ & _ & _ & _ & _ & Hidle)%setup_facts.
    cbn [network]. apply Forall_lookup. intros i s Hi.
    pose proof (Forall_lookup_1 _ _ _ _ Hidle Hi) as (Hq & Hb & _).
    rewrite Hs, list_lookup_imap in Hi.
    destruct (cfg_stations cfg !! i) as [spec|] eqn:Hspec; [|done].
    injection Hi as <-.
    pose proof (Forall_lookup_1 _ _ _ _ Hpos Hspec) as Hn.
    split; [by rewrite Hb, station_of_servers|]. by intros Hne.
  - intros st0 st' HP _.
    apply loop_body_stations_inv; [done|apply dispatch_station_inv|done].
Qed.

End stations_run.

(** ** Time along a run *)

Section time_run.
Context {RNG : Type} {source : RandomSource RNG}.
Implicit Types (st : LoopState (RNG := RNG)) (self mid : Network) (g : RNG)
  (e : Event.t) (s : Station.t).

Lemma nondecreasing_snoc (times : list Q) (t : Q) :
  nondecreasing times → (∀ a, a ∈ times → (a <= t)%Q) →
  nondecreasing (times ++ [t]).
Proof.
  intros Hnd Hle i j a b Hij Hi Hj.
  destruct (decide (j < length times)) as [Hjl|Hjl].
  - rewrite lookup_app_l in Hi, Hj by lia. by apply (Hnd i j).
  - rewrite lookup_app_r in Hj by lia.
    destruct (j - length times) as [|n] eqn:Hjn; [|by destruct n].
    injection Hj as <-.
    destruct (decide (i < length times)) as [Hil|Hil].
    + rewrite lookup_app_l in Hi by lia. apply Hle.
      by eapply list_elem_of_lookup_2.
    + rewrite lookup_app_r in Hi by lia.
      replace (i - length times) with 0 in Hi by lia.
      injection Hi as <-. apply Qle_refl.
Qed.

Lemma scheduled_at_le clock x :
  nonnegative_draws → scheduled_at clock x → (clock <= Event.time x)%Q.
Proof.
  intros Hnn [->|(scale & g0 & d & g1 & Hd & ->)]; [apply Qle_refl|].
  apply Hnn in Hd. lra.
Qed.

Lemma setup_time_inv cfg warmup_time g net g' :
  setup cfg g = Ok (net, g') → time_inv warmup_time (mkLoop net g' false []).
Proof.
  intros (Hs & Ht & Hc & Hn & Hq & Hh & Hidle)%setup_facts.
  split; simpl.
  - done.
  - intros e He. rewrite Hq in He.
    apply list_elem_of_fmap in He as (j & -> & _). rewrite Hc. apply Qle_refl.
  - by intros e He%elem_of_nil.
  - by intros i j a b _ Hi.
  - intros s Hs'. rewrite Hc.
    rewrite Forall_forall in Hidle.
    destruct (Hidle s Hs') as (_ & _ & ->). apply Qle_refl.
  - done.
Qed.

Lemma loop_body_time_inv warmup_time st st' :
  nonnegative_draws → time_inv warmup_time st →
  loop_body warmup_time st = Ok st' → time_inv warmup_time st'.
Proof.
  intros Hnn Hinv (e & rest & Hpop & Hd & Hwd & Hproc)%loop_body_Ok.
  destruct (heappop_ok _ _ _ (ti_heap _ _ Hinv) Hpop)
    as (Hheap & Hperm & Hmin).
  destruct (handler_state_facts warmup_time st e rest)
    as (Hq & Hct & _).
  apply dispatch_effect in Hd
    as (s & s' & new & Hs & Hsts & Hct' & _ & Hl & _ & Hq' & Hh' & Hnew & _).
  rewrite Hct in Hct', Hl, Hnew. rewrite Hq in Hq', Hh'.
  assert (He : (current_time (network st) <= Event.time e)%Q).
  { apply (ti_future _ _ Hinv). rewrite Hperm. left. }
  assert (Hold : Forall (fun s => (Station.last_update_time s
                                   <= Event.time e)%Q)
                   (stations (handler_state warmup_time st e rest))).
  { destruct (handler_state_stations warmup_time st e rest)
      as [[_ ->]|[_ ->]].
    - apply Forall_forall. intros s0 Hs0.
      pose proof (ti_updated _ _ Hinv s0 Hs0). lra.
    - apply Forall_fmap, Forall_forall. intros s0 _. simpl. apply Qle_refl. }
  split.
  - by apply Hh'.
  - intros x Hx. rewrite Hct'. rewrite Hq' in Hx.
    apply elem_of_app in Hx as [Hx|Hx].
    + apply scheduled_at_le; [done|by apply Hnew].
    + by apply Hmin.
  - intros x Hx. rewrite Hct'. rewrite Hproc in Hx.
    apply elem_of_app in Hx as [Hx| ->%list_elem_of_singleton].
    + pose proof (ti_past _ _ Hinv x Hx). lra.
    + apply Qle_refl.
  - rewrite Hproc, fmap_app. apply nondecreasing_snoc.
    + apply (ti_sorted _ _ Hinv).
    + intros a (x & -> & Hx)%list_elem_of_fmap.
      pose proof (ti_past _ _ Hinv x Hx). lra.
  - rewrite Hct', Hsts. apply Forall_forall, Forall_insert; [done|].
    rewrite Hl. apply Qle_refl.
  - intros Hdone. rewrite Hsts. apply Forall_forall.
    destruct (handler_state_stations warmup_time st e rest)
      as [[Hf Heq]|[Hf Heq]].
    + rewrite Hf in Hwd. rewrite Hwd in Hdone.
      assert (Hall : Forall (fun s => (warmup_time
                                       <= Station.last_update_time s)%Q)
                       (stations (network st))).
      { apply Forall_forall. by apply (ti_reset _ _ Hinv). }
      rewrite Heq in Hs |- *. apply Forall_insert; [done|].
      pose proof (Forall_lookup_1 _ _ _ _ Hall Hs) as Hw. cbn beta in Hw.
      assert (Station.last_update_time s
              <= current_time (network st))%Q.
      { apply (ti_updated _ _ Hinv). by eapply list_elem_of_lookup_2. }
      rewrite Hl. lra.
    + assert (Hw : (warmup_time <= Event.time e)%Q).
      { unfold fires in Hf. apply andb_true_iff in Hf as [_ Hf].
        by apply Qle_bool_iff. }
      rewrite Heq. apply Forall_insert; [|by rewrite Hl].
      apply Forall_fmap, Forall_forall. by intros s0 _.
Qed.

Lemma simulate_time_inv cfg simulation_time warmup_time fuel g st :
  nonnegative_draws →
  simulate cfg simulation_time warmup_time fuel g = Ok st →
  time_inv warmup_time st.
Proof.
  intros Hnn. apply (simulate_inv (time_inv warmup_time)).
  - intros g0 net g' Hs. by eapply setup_time_inv.
  - intros st0 st' Hinv _. by apply loop_body_time_inv.
Qed.

End time_run.

(** * The claims *)

(** ** The scripted source draws no negative service time *)

Lemma scripted_nonnegative script :
  nonnegative_draws (source := scripted script).
Proof.
  intros scale g d g'. cbn [np_random_exponential scripted].
  destruct (next_variate g) as [v g1].
  destruct (Qlt_bool scale 0) eqn:Hs; [done|].
  destruct (Qlt_bool v 0) eqn:Hv; [done|].
  intros [= <- <-]. apply Qlt_bool_false in Hs, Hv.
  by apply Qmult_le_0_compat.
Qed.

Section claims.
Context {RNG : Type} {source : RandomSource RNG}.
Implicit Types (st : LoopState (RNG := RNG)) (self mid : Network) (g : RNG)
  (e : Event.t) (s : Station.t) (cfg : Config).

Lemma simulate_num_jobs cfg simulation_time warmup_time fuel g st :
  simulate cfg simulation_time warmup_time fuel g = Ok st →
  num_jobs (network st) = cfg_num_jobs cfg.
Proof.
  apply (simulate_inv (fun st => num_jobs (network st) = cfg_num_jobs cfg)).
  - by intros g0 net g' (_ & _ & _ & Hn & _)%setup_facts.
  - intros st0 st' Hn _ (e & rest & _ & Hd & _)%loop_body_Ok.
    apply dispatch_effect in Hd as (s & s' & new & _ & _ & _ & -> & _).
    destruct (handler_state_facts warmup_time st0 e rest)
      as (_ & _ & _ & -> & _). done.
Qed.

(** C1 (amended): after every processed event of a run, the jobs in the
    stations (busy servers and queues), the jobs in transit and the
    arrivals scheduled by [initialize_jobs] that are still pending add up
    to [num_jobs]; and when a run with a positive horizon ends, no such
    arrival is pending, so that the jobs in the stations and in transit
    are [num_jobs]. *)
Theorem wip_conservation cfg simulation_time warmup_time fuel g st :
  (0 ≤ cfg_num_jobs cfg)%Z →
  simulate cfg simulation_time warmup_time fuel g = Ok st →
  (wip (network st) + Z.of_nat (pending_initial (network st)))%Z
  = num_jobs (network st)
  ∧ ((0 < simulation_time)%Q → loop_guard simulation_time st = false →
     wip (network st) = num_jobs (network st)).
Proof.
  intros Hpos Hsim.
  pose proof (simulate_jobs_inv _ _ _ _ _ _ Hsim) as Hinv.
  pose proof (simulate_num_jobs _ _ _ _ _ _ Hsim) as Hn.
  assert (Hall : (wip (network st)
                  + Z.of_nat (pending_initial (network st)))%Z
                 = num_jobs (network st)).
  { rewrite (ji_wip _ Hinv), length_seqZ, Hn. lia. }
  split; [done|]. intros Hsimpos Hguard.
  assert (pending_initial (network st) = 0) as Hz; [|lia].
  unfold loop_guard in Hguard.
  destruct (event_queue (network st)) eqn:Hq.
  - unfold pending_initial. by rewrite Hq.
  - apply (ji_started _ Hinv). apply Qlt_bool_false in Hguard. lra.
Qed.


(** C3 (amended): construction validates nothing.  Whatever the
    population, the routing matrix, the server counts and the mean
    service times, the constructor followed by the [add_station] calls
    returns a network that stores them as given; the only failure is the
    random source rejecting the seed. *)
Theorem construction_validates_nothing cfg g :
  construct cfg g
  = g' ← match cfg_seed cfg with
         | Some seed => np_random_seed seed
         | None => Ok g
         end;
    Ok (mkNetwork (cfg_num_jobs cfg) (cfg_routing_matrix cfg)
          (length (cfg_routing_matrix cfg))
          (imap station_of (cfg_stations cfg)) ∅ [] 0 ∅ 0 0, g').
Proof.
  unfold construct, init.
  destruct (match cfg_seed cfg with
            | Some seed => np_random_seed seed
            | None => Ok g
            end) as [g'|err]; [|done].
  simpl. by rewrite add_stations_Ok.
Qed.

(** C4: at the warmup transition the handler of the popped event starts
    from the reset state: every station has its accumulators at zero and
    its last statistics update at the clock, the completions are zero,
    and the queues, the busy servers, the jobs in transit, the pending
    events and the clock are those before the reset. *)
Theorem warmup_reset warmup_time st e rest :
  warmup_done st = false →
  heapq.heappop (event_queue (network st)) = Some (e, rest) →
  (warmup_time <= Event.time e)%Q →
  let before := popped e rest (network st) in
  let after := _reset_statistics before in
  loop_body warmup_time st
  = ('(self, g) ← dispatch e after (generator st);
     Ok (mkLoop self g true (processed st ++ [e])))
  ∧ Forall (accumulators_zero (current_time after)) (stations after)
  ∧ total_completions after = 0%Z
  ∧ physical <$> stations after = physical <$> stations before
  ∧ jobs_in_transit after = jobs_in_transit before
  ∧ event_queue after = event_queue before
  ∧ current_time after = current_time before
  ∧ current_time after = Event.time e.
Proof.
  intros Hwd Hpop Hle. cbn zeta. split_and!; try done.
  - unfold loop_body. rewrite Hpop. cbn [from_option mbind result_bind].
    unfold popped. cbn [current_time set_current_time].
    apply Qle_bool_iff in Hle. by rewrite Hwd, Hle.
  - unfold _reset_statistics. net_simpl.
    apply Forall_fmap, Forall_forall. by intros s _.
  - unfold _reset_statistics. net_simpl.
    rewrite <- list_fmap_compose. by apply list_fmap_ext.
Qed.



(** C8: along a run the times of the processed events, which are the
    successive values of the clock, never decrease; no pending event is
    earlier than the clock; and the events an iteration schedules are
    not earlier than the clock of that iteration. *)
Theorem clock_monotone cfg simulation_time warmup_time fuel g st :
  nonnegative_draws →
  simulate cfg simulation_time warmup_time fuel g = Ok st →
  nondecreasing (Event.time <$> processed st)
  ∧ (∀ e, e ∈ event_queue (network st) →
          (current_time (network st) <= Event.time e)%Q)
  ∧ (∀ st', loop_body warmup_time st = Ok st' →
       (current_time (network st) <= current_time (network st'))%Q
       ∧ ∃ e rest new,
           heapq.heappop (event_queue (network st)) = Some (e, rest)
           ∧ current_time (network st') = Event.time e
           ∧ event_queue (network st') ≡ₚ new ++ rest
           ∧ ∀ x, x ∈ new →
                  (current_time (network st') <= Event.time x)%Q).
Proof.
  intros Hnn Hsim.
  pose proof (simulate_time_inv _ _ _ _ _ _ Hnn Hsim) as Hinv.
  split; [apply (ti_sorted _ _ Hinv)|].
  split; [apply (ti_future _ _ Hinv)|].
  intros st' (e & rest & Hpop & Hd & _)%loop_body_Ok.
  destruct (heappop_ok _ _ _ (ti_heap _ _ Hinv) Hpop) as (_ & Hperm & _).
  destruct (handler_state_facts warmup_time st e rest) as (Hq & Hct & _).
  apply dispatch_effect in Hd
    as (s & s' & new & _ & _ & Hct' & _ & _ & _ & Hq' & _ & Hnew & _).
  rewrite Hct in Hct', Hnew. rewrite Hq in Hq'. rewrite Hct'. split.
  - apply (ti_future _ _ Hinv). rewrite Hperm. left.
  - exists e, rest, new. split_and!; try done.
    intros x Hx. by apply scheduled_at_le, Hnew.
Qed.


(** The run loop always takes an earliest pending event: the event
    [heappop] returns is a pending event of smallest time, and the other
    pending events stay in the queue, in heap order. *)
Theorem earliest_event_first cfg simulation_time warmup_time fuel g st
    e rest :
  simulate cfg simulation_time warmup_time fuel g = Ok st →
  heapq.heappop (event_queue (network st)) = Some (e, rest) →
  event_queue (network st) ≡ₚ e :: rest
  ∧ heap_ok rest
  ∧ ∀ x, x ∈ event_queue (network st) →
         (Event.time e <= Event.time x)%Q.
Proof.
  intros Hsim Hpop.
  pose proof (simulate_jobs_inv _ _ _ _ _ _ Hsim) as Hinv.
  destruct (heappop_ok _ _ _ (ji_heap _ Hinv) Hpop)
    as (Hheap & Hperm & Hmin).
  split_and!; try done. intros x Hx. rewrite Hperm in Hx.
  apply elem_of_cons in Hx as [->|Hx]; [apply Qle_refl|by apply Hmin].
Qed.

End claims.

(** ** Claims about single operations, and the concrete runs *)

(** C6 (amended): [add_to_queue] first brings the statistics up to date
    and then appends the job and counts the arrival; the update adds the
    queue length before the call times the time since the last update
    only when that last update time is positive, and leaves the integral
    as it is otherwise. *)
Theorem add_to_queue_statistics (job_id : Z) (now : Q) (s : Station.t) :
  let s' := Station.add_to_queue job_id now s in
  Station.queue s' = Station.queue s ++ [job_id]
  ∧ Station.total_arrivals s' = (Station.total_arrivals s + 1)%Z
  ∧ Station.last_update_time s' = now
  ∧ ((0 < Station.last_update_time s)%Q →
     Station.queue_length_sum s'
     = (Station.queue_length_sum s
        + inject_Z (Z.of_nat (length (Station.queue s)))
          * (now - Station.last_update_time s))%Q)
  ∧ ((Station.last_update_time s <= 0)%Q →
     Station.queue_length_sum s' = Station.queue_length_sum s).
Proof.
  cbn zeta. unfold Station.add_to_queue, Station._update_queue_stats.
  destruct (Qlt_bool 0 (Station.last_update_time s)) eqn:Hlt.
  - apply Qlt_bool_iff in Hlt. split_and!; try done. intros Hle. lra.
  - apply Qlt_bool_false in Hlt. split_and!; try done. intros Hpos. lra.
Qed.

(** C6, counterexample: a second job enqueued at time 5 behind a job
    enqueued at time 0 leaves the integral at 0, where the claim has it
    grow by 1 * (5 - 0). *)
Lemma add_to_queue_at_zero :
  let s1 := Station.add_to_queue 1 0 (Station.init 0 1 1 None) in
  let s2 := Station.add_to_queue 2 5 s1 in
  Station.queue s1 = [1%Z]
  ∧ Station.last_update_time s1 = 0%Q
  ∧ Station.queue_length_sum s1 = 0%Q
  ∧ Station.queue_length_sum s2 = 0%Q
  ∧ ¬ (Station.queue_length_sum s2
       == Station.queue_length_sum s1
          + inject_Z (Z.of_nat (length (Station.queue s1)))
            * (5 - Station.last_update_time s1))%Q.
Proof. cbn zeta. split_and!; try reflexivity. by vm_compute. Qed.

(** C1, counterexample: after the first event of a run of [two_jobs] one
    job is in the station, none is in transit and the other arrival is
    still pending: the sum of the claim is 1, the population 2. *)
Lemma wip_after_first_event :
  ∃ st : LoopState (RNG := list Q),
    simulate (source := scripted demo_script) two_jobs 2 0 1 [] = Ok st
    ∧ length (processed st) = 1
    ∧ wip (network st) = 1%Z
    ∧ num_jobs (network st) = 2%Z
    ∧ pending_initial (network st) = 1
    ∧ wip (network st) ≠ num_jobs (network st).
Proof. eexists. split; [by vm_compute|]. split_and!; by vm_compute. Qed.


(** C3, counterexample: the construction of [bad] succeeds and stores
    the negative population, the routing row [1/2, 3/10], the station
    without server and its negative mean service time. *)
Lemma bad_is_constructed :
  observe (fun '(net, _) =>
             (num_jobs net, routing_matrix net,
              (fun s => (Station.num_servers s,
                         Station.mean_service_time s))
                <$> stations net))
    (construct (source := scripted steady) bad [])
  = Some ((-1)%Z, [[1 # 2; 3 # 10]], [(0%Z, (-1)%Q)]).
Proof. by vm_compute. Qed.

(** C10: when the handler of an arrival starts a service, the whole
    drawn duration [d] is added to the total service time of the station
    at once, while the clock stays where it is and the departure lies
    [d] ahead; and the run of [two_jobs] to the horizon 2 ends with a
    utilization of 5/2. *)
Theorem service_time_booked_ahead :
  (∀ RNG (source : RandomSource RNG) (e : Event.t) (self self' : Network)
     (g g' : RNG) (s : Station.t),
     process_arrival e self g = Ok (self', g') →
     stations self !! Event.station_id e = Some s →
     Station.is_available s = true →
     ∃ d s',
       np_random_exponential (Station.mean_service_time s) g = Ok (d, g')
       ∧ stations self' !! Event.station_id e = Some s'
       ∧ Station.total_service_time s'
         = (Station.total_service_time s + d)%Q
       ∧ current_time self' = current_time self
       ∧ ∃ k, Event.mk (current_time self + d) DEPARTURE k
                (Event.station_id e) ∈ event_queue self')
  ∧ ∃ st s u,
      simulate (source := scripted demo_script) two_jobs 2 0 100 [] = Ok st
      ∧ loop_guard 2 st = false
      ∧ s ∈ stations (network st)
      ∧ Station.utilization s = Some u
      ∧ (1 < u)%Q.
Proof.
  split.
  - intros RNG source e self self' g g' s
      (s0 & job & Hs0 & _ & Hcases)%process_arrival_Ok Hs Hav.
    rewrite Hs in Hs0. injection Hs0 as <-. cbn zeta in Hcases.
    destruct Hcases as [(Hna & _)|(_ & k & s2 & d & Hst & Hd & ->)];
      [congruence|].
    pose proof (lookup_lt_Some _ _ _ Hs) as Hlt.
    destruct (add_to_queue_facts (Event.job_id e) (current_time self) s)
      as (_ & _ & _ & _ & Ht1 & _).
    apply start_service_Some in Hst as (_ & _ & _ & _ & Ht2 & _).
    eexists d, _. net_simpl. split_and!; try done.
    + by apply list_lookup_insert_eq.
    + cbn [Station.total_service_time Station.set_total_service_time].
      by rewrite Ht2, Ht1.
    + exists k. rewrite heappush_perm. left.
  - eexists _, _, _. split; [by vm_compute|].
    split_and!; [by vm_compute|left|by vm_compute|by vm_compute].
Qed.

(** ** The theorems at work on the small networks *)

Lemma wip_conservation_witness :
  ∃ st,
    simulate (source := scripted demo_script) two_jobs 2 0 100 [] = Ok st
    ∧ (wip (network st) + Z.of_nat (pending_initial (network st)))%Z
      = num_jobs (network st)
    ∧ ((0 < 2)%Q → loop_guard 2 st = false →
       wip (network st) = num_jobs (network st)).
Proof.
  eexists. split; [by vm_compute|].
  apply (wip_conservation (source := scripted demo_script) two_jobs 2 0 100 []);
    [by vm_compute|by vm_compute].
Defined.


Lemma warmup_reset_witness :
  ∃ (st : LoopState (RNG := list Q)) e rest,
    let before := popped e rest (network st) in
    let after := _reset_statistics before in
    simulate (source := scripted steady) shop 4 2 8 [] = Ok st
    ∧ warmup_done st = false
    ∧ heapq.heappop (event_queue (network st)) = Some (e, rest)
    ∧ (2 <= Event.time e)%Q
    ∧ loop_body (source := scripted steady) 2 st
      = ('(self, g) ← dispatch (source := scripted steady) e after (generator st);
         Ok (mkLoop self g true (processed st ++ [e])))
    ∧ Forall (accumulators_zero (current_time after)) (stations after)
    ∧ total_completions after = 0%Z
    ∧ physical <$> stations after = physical <$> stations before
    ∧ jobs_in_transit after = jobs_in_transit before
    ∧ event_queue after = event_queue before
    ∧ current_time after = current_time before
    ∧ current_time after = Event.time e.
Proof.
  eexists _, _, _. cbn zeta.
  split; [by vm_compute|]. split; [by vm_compute|].
  split; [by vm_compute|]. split; [by vm_compute|].
  apply (warmup_reset (source := scripted steady)); by vm_compute.
Defined.


Lemma clock_monotone_witness :
  ∃ st : LoopState (RNG := list Q),
    simulate (source := scripted demo_script) two_jobs 2 0 3 [] = Ok st
    ∧ nondecreasing (Event.time <$> processed st)
    ∧ (∀ e, e ∈ event_queue (network st) →
            (current_time (network st) <= Event.time e)%Q)
    ∧ (∀ st', loop_body (source := scripted demo_script) 0 st = Ok st' →
         (current_time (network st) <= current_time (network st'))%Q
         ∧ ∃ e rest new,
             heapq.heappop (event_queue (network st)) = Some (e, rest)
             ∧ current_time (network st') = Event.time e
             ∧ event_queue (network st') ≡ₚ new ++ rest
             ∧ ∀ x, x ∈ new →
                    (current_time (network st') <= Event.time x)%Q).
Proof.
  eexists. split; [by vm_compute|].
  apply (clock_monotone (source := scripted demo_script) two_jobs 2 0 3 []);
    [apply scripted_nonnegative|by vm_compute].
Defined.



Lemma earliest_event_first_witness :
  ∃ (st : LoopState (RNG := list Q)) e rest,
    simulate (source := scripted demo_script) two_jobs 2 0 3 [] = Ok st
    ∧ heapq.heappop (event_queue (network st)) = Some (e, rest)
    ∧ event_queue (network st) ≡ₚ e :: rest
    ∧ heap_ok rest
    ∧ ∀ x, x ∈ event_queue (network st) →
           (Event.time e <= Event.time x)%Q.
Proof.
  eexists _, _, _. split; [by vm_compute|]. split; [by vm_compute|].
  apply (earliest_event_first (source := scripted demo_script)
           two_jobs 2 0 3 []); by vm_compute.
Defined.

(** * The rest of the engine *)

(** ** The counters of a station *)

Section station_counters.
Context {RNG : Type} {source : RandomSource RNG}.
Implicit Types (s : Station.t) (t : Q) (j k : Z).

Lemma update_queue_stats_counters t s :
  let s' := Station._update_queue_stats t s in
  Station.total_arrivals s' = Station.total_arrivals s
  ∧ Station.total_departures s' = Station.total_departures s
  ∧ Station.total_queue_time s' = Station.total_queue_time s
  ∧ Station.queue_length_sum s'
    = (if Qlt_bool 0 (Station.last_update_time s)
       then (Station.queue_length_sum s
             + inject_Z (Z.of_nat (length (Station.queue s)))
               * (t - Station.last_update_time s))%Q
       else Station.queue_length_sum s).
Proof.
  unfold Station._update_queue_stats.
  by destruct (Qlt_bool 0 (Station.last_update_time s)).
Qed.

Lemma start_service_counters t s o s' :
  Station.start_service t s = (o, s') →
  Station.total_arrivals s' = Station.total_arrivals s
  ∧ Station.total_departures s' = Station.total_departures s
  ∧ Station.total_queue_time s' = Station.total_queue_time s
  ∧ Station.queue_length_sum s'
    = Station.queue_length_sum (Station._update_queue_stats t s).
Proof.
  destruct (update_queue_stats_counters t s) as (Ha & Hd & Hqt & _).
  unfold Station.start_service.
  destruct (Station.queue (Station._update_queue_stats t s)).
  { by intros [= <- <-]. }
  destruct (Station.is_available _); by intros [= <- <-].
Qed.

Lemma add_to_queue_counters j t s :
  let s' := Station.add_to_queue j t s in
  Station.total_arrivals s' = (Station.total_arrivals s + 1)%Z
  ∧ Station.total_departures s' = Station.total_departures s
  ∧ Station.total_queue_time s' = Station.total_queue_time s
  ∧ Station.queue_length_sum s'
    = Station.queue_length_sum (Station._update_queue_stats t s).
Proof.
  unfold Station.add_to_queue, Station._update_queue_stats.
  by destruct (Qlt_bool 0 (Station.last_update_time s)).
Qed.

Lemma complete_service_counters t s :
  let s' := Station.complete_service t s in
  Station.total_arrivals s' = Station.total_arrivals s
  ∧ Station.total_departures s' = (Station.total_departures s + 1)%Z
  ∧ Station.total_queue_time s' = Station.total_queue_time s
  ∧ Station.queue_length_sum s'
    = Station.queue_length_sum (Station._update_queue_stats t s).
Proof.
  unfold Station.complete_service, Station._update_queue_stats.
  by destruct (Qlt_bool 0 (Station.last_update_time s)).
Qed.

(** What every operation keeps, and what it does to the clock of the
    statistics. *)
Lemma station_op_facts t s s' :
  station_op t s s' →
  Station.num_servers s' = Station.num_servers s
  ∧ Station.mean_service_time s' = Station.mean_service_time s
  ∧ Station.total_queue_time s' = Station.total_queue_time s
  ∧ (Station.total_arrivals s' - Station.total_departures s'
     - station_wip s')%Z
    = (Station.total_arrivals s - Station.total_departures s
       - station_wip s)%Z
  ∧ (Station.last_update_time s' = t
     ∨ Station.last_update_time s' = Station.last_update_time s).
Proof.
  unfold station_wip.
  destruct 1 as [j s|k s s' Hst|s|s|s d g g' Hd].
  - destruct (add_to_queue_facts j t s) as (-> & -> & -> & -> & _ & ->).
    destruct (add_to_queue_counters j t s) as (-> & -> & -> & _).
    rewrite length_app. cbn. split_and!; try done; [lia|by left].
  - pose proof Hst as (Hq & -> & -> & -> & _ & -> & _)%start_service_Some.
    apply start_service_counters in Hst as (-> & -> & -> & _).
    rewrite Hq. cbn. split_and!; try done; [lia|by left].
  - destruct (complete_service_facts t s) as (-> & -> & -> & -> & _ & ->).
    destruct (complete_service_counters t s) as (-> & -> & -> & _).
    split_and!; try done; [lia|by left].
  - destruct (update_queue_stats_facts t s) as (-> & -> & -> & -> & _ & ->).
    destruct (update_queue_stats_counters t s) as (-> & -> & -> & _).
    split_and!; try done. by left.
  - cbn. split_and!; try done. by right.
Qed.

Lemma station_ops_facts t s s' :
  rtc (station_op t) s s' →
  Station.num_servers s' = Station.num_servers s
  ∧ Station.mean_service_time s' = Station.mean_service_time s
  ∧ Station.total_queue_time s' = Station.total_queue_time s
  ∧ (balanced s → balanced s').
Proof.
  unfold balanced.
  induction 1 as [s|s s1 s' Hop _ (IHn & IHm & IHq & IHb)]; [done|].
  apply station_op_facts in Hop as (Hn & Hm & Hq & Hb & _).
  rewrite IHn, IHm, IHq. split_and!; try done. intros Hbal. apply IHb. lia.
Qed.

(** The accumulators stay non-negative when the clock is not behind the
    last update and no service time is negative. *)
Lemma station_op_nonneg t s s' :
  nonnegative_draws → station_op t s s' →
  (Station.last_update_time s <= t)%Q →
  (Station.last_update_time s' <= t)%Q
  ∧ ((0 <= Station.total_service_time s)%Q →
     (0 <= Station.total_service_time s')%Q)
  ∧ ((0 <= Station.queue_length_sum s)%Q →
     (0 <= Station.queue_length_sum s')%Q).
Proof.
  intros Hnn Hop Hle.
  assert (Hupd : ∀ s0, (Station.last_update_time s0 <= t)%Q →
            (0 <= Station.queue_length_sum s0)%Q →
            (0 <= Station.queue_length_sum
                    (Station._update_queue_stats t s0))%Q).
  { intros s0 Hl0 Hq0.
    destruct (update_queue_stats_counters t s0) as (_ & _ & _ & ->).
    destruct (Qlt_bool 0 (Station.last_update_time s0)); [|done].
    assert (0 <= inject_Z (Z.of_nat (length (Station.queue s0)))
                 * (t - Station.last_update_time s0))%Q; [|lra].
    apply Qmult_le_0_compat; [|lra].
    change 0%Q with (inject_Z 0). rewrite <- Zle_Qle. lia. }
  destruct Hop as [j s|k s s' Hst|s|s|s d g g' Hd].
  - destruct (add_to_queue_facts j t s) as (_ & _ & _ & _ & -> & ->).
    destruct (add_to_queue_counters j t s) as (_ & _ & _ & ->).
    split_and!; [apply Qle_refl|done|]. intros Hq. by apply Hupd.
  - pose proof Hst as (_ & _ & _ & _ & -> & -> & _)%start_service_Some.
    split_and!; [apply Qle_refl|done|]. intros Hq.
    apply start_service_counters in Hst as (_ & _ & _ & ->).
    by apply Hupd.
  - destruct (complete_service_facts t s) as (_ & _ & _ & _ & -> & ->).
    destruct (complete_service_counters t s) as (_ & _ & _ & ->).
    split_and!; [apply Qle_refl|done|]. intros Hq. by apply Hupd.
  - destruct (update_queue_stats_facts t s) as (_ & _ & _ & _ & -> & ->).
    split_and!; [apply Qle_refl|done|]. intros Hq. by apply Hupd.
  - cbn. split_and!; try done. intros Hs.
    pose proof (Hnn _ _ _ _ Hd). lra.
Qed.

Lemma station_ops_nonneg t s s' :
  nonnegative_draws → rtc (station_op t) s s' →
  (Station.last_update_time s <= t)%Q →
  (0 <= Station.total_service_time s)%Q →
  (0 <= Station.queue_length_sum s)%Q →
  (0 <= Station.total_service_time s')%Q
  ∧ (0 <= Station.queue_length_sum s')%Q.
Proof.
  intros Hnn. induction 1 as [s|s s1 s' Hop _ IH]; [done|].
  intros Hl Hs Hq.
  destruct (station_op_nonneg _ _ _ Hnn Hop Hl) as (Hl1 & Hs1 & Hq1).
  apply IH; auto.
Qed.

End station_counters.

(** ** What a handler does, in full *)

Section detail.
Context {RNG : Type} {source : RandomSource RNG}.
Implicit Types (self mid : Network) (g : RNG) (e x : Event.t)
  (s : Station.t).

Lemma dispatch_detail e mid g self' g' :
  dispatch e mid g = Ok (self', g') →
  let t := current_time mid in
  let sid := Event.station_id e in
  ∃ s s' started routed g1,
    stations mid !! sid = Some s
    ∧ stations self' = <[sid := s']> (stations mid)
    ∧ rtc (station_op t) s s'
    ∧ event_queue self' ≡ₚ routed ++ started ++ event_queue mid
    ∧ Station.servers_busy s'
      = (Station.servers_busy s + Z.of_nat (length started) - leaves e)%Z
    ∧ Station.total_departures s'
      = (Station.total_departures s + leaves e)%Z
    ∧ total_completions self' = (total_completions mid + leaves e)%Z
    ∧ warmup_completions self' = warmup_completions mid
    ∧ routing_matrix self' = routing_matrix mid
    ∧ num_stations self' = num_stations mid
    ∧ is_Some (jobs mid !! Event.job_id e)
    ∧ ((started = [] ∧ g1 = g ∧ jobs self' = jobs mid)
       ∨ ∃ k d key job a,
           started = [Event.mk (t + d) DEPARTURE k sid]
           ∧ np_random_exponential (Station.mean_service_time s) g
             = Ok (d, g1)
           ∧ jobs mid !! key = Some job
           ∧ jobs self'
             = <[key := Job.append_visit (sid, a, (t + d)%Q) job]>
                 (jobs mid)
           ∧ match Event.event_type e with
             | ARRIVAL =>
                 key = Event.job_id e ∧ a = Event.time e
                 ∧ head (Station.queue s ++ [Event.job_id e]) = Some k
                 ∧ Station.is_available s = true
             | DEPARTURE =>
                 key = k ∧ a = t ∧ head (Station.queue s) = Some k
             end)
    ∧ match Event.event_type e with
      | ARRIVAL =>
          routed = [] ∧ g' = g1
          ∧ jobs_in_transit self'
            = jobs_in_transit mid ∖ {[Event.job_id e]}
      | DEPARTURE =>
          ∃ next,
            get_next_station sid mid g1 = Ok (next, g')
            ∧ routed = [Event.mk t ARRIVAL (Event.job_id e) next]
            ∧ jobs_in_transit self'
              = {[Event.job_id e]} ∪ jobs_in_transit mid
      end.
Proof.
  unfold dispatch, leaves.
  destruct (Event.event_type e) eqn:Hty.
  - intros (s & job & Hs & Hjob & Hcases)%process_arrival_Ok.
    cbn zeta in Hcases |- *.
    destruct (add_to_queue_facts (Event.job_id e) (current_time mid) s)
      as (Hq1 & Hb1 & Hn1 & Hm1 & _ & Hl1).
    destruct Hcases as [(Hav & -> & ->)|(Hav & k & s2 & d & Hst & Hd & ->)].
    + exists s, (Station.add_to_queue (Event.job_id e) (current_time mid) s),
        [], [], g.
      split_and!; try done; try (net_simpl; lia).
      * apply rtc_once, op_add_to_queue.
      * rewrite Hb1. simpl. lia.
      * destruct (add_to_queue_counters (Event.job_id e)
                    (current_time mid) s) as (_ & -> & _). lia.
      * by left.
    + pose proof Hst as Hst'.
      apply start_service_Some in Hst'
        as (Hq2 & Hb2 & Hn2 & Hm2 & _ & Hl2 & _).
      set (dep := Event.mk (current_time mid + d) DEPARTURE k
                    (Event.station_id e)).
      pose proof (heappush_perm (event_queue mid) dep) as Hperm.
      exists s, (Station.set_total_service_time
                   (Station.total_service_time s2 + d)%Q s2), [dep], [],
        g'.
      split_and!; try done; try (net_simpl; lia).
      * eapply rtc_l; [apply (op_add_to_queue _ (Event.job_id e))|].
        eapply rtc_l; [apply (op_start_service _ _ _ _ Hst)|].
        apply rtc_once. eapply op_book. by rewrite Hm2, Hm1.
      * cbn. rewrite Hb2, Hb1. lia.
      * cbn. apply start_service_counters in Hst as (_ & -> & _).
        destruct (add_to_queue_counters (Event.job_id e)
                    (current_time mid) s) as (_ & -> & _). lia.
      * right. exists k, d, (Event.job_id e), job, (Event.time e).
        split_and!; try done. by rewrite <- Hq1, Hq2.
  - intros (s & job & next & g1 & Hs & Hjob & Hcases)%process_departure_Ok.
    cbn zeta in Hcases |- *. destruct Hcases as [Hnext Hcases].
    destruct (complete_service_facts (current_time mid) s)
      as (Hq1 & Hb1 & Hn1 & Hm1 & _ & Hl1).
    destruct (complete_service_counters (current_time mid) s)
      as (_ & Hd1 & _).
    set (arr := Event.mk (current_time mid) ARRIVAL (Event.job_id e) next).
    pose proof (heappush_perm (event_queue mid) arr) as Hperm0.
    destruct Hcases as [(Hnil & -> & ->)|[(Hne & Hav & -> & ->)
                         |(Hav & k & s2 & d & nj & Hst & Hd & Hnj & ->)]].
    + exists s, (Station.complete_service (current_time mid) s), [], [arr],
        g.
      split_and!; try done; try (net_simpl; lia).
      * apply rtc_once, op_complete_service.
      * rewrite Hb1. simpl. lia.
      * by left.
      * by exists next.
    + destruct (update_queue_stats_facts (current_time mid)
                  (Station.complete_service (current_time mid) s))
        as (Hq2 & Hb2 & Hn2 & _ & _ & Hl2).
      exists s, (Station._update_queue_stats (current_time mid)
                   (Station.complete_service (current_time mid) s)),
        [], [arr], g.
      split_and!; try done; try (net_simpl; lia).
      * eapply rtc_l; [apply op_complete_service|].
        apply rtc_once, op_update.
      * rewrite Hb2, Hb1. simpl. lia.
      * by destruct (update_queue_stats_counters (current_time mid)
                       (Station.complete_service (current_time mid) s))
          as (_ & -> & _).
      * by left.
      * by exists next.
    + pose proof Hst as Hst'.
      apply start_service_Some in Hst'
        as (Hq2 & Hb2 & Hn2 & Hm2 & _ & Hl2 & _).
      set (dep := Event.mk (current_time mid + d) DEPARTURE k
                    (Event.station_id e)).
      pose proof (heappush_perm (event_queue mid) dep) as Hperm1.
      pose proof (heappush_perm (heapq.heappush (event_queue mid) dep) arr)
        as Hperm.
      exists s, (Station.set_total_service_time
                   (Station.total_service_time s2 + d)%Q s2),
        [dep], [arr], g1.
      split_and!; try done; try (net_simpl; lia).
      * eapply rtc_l; [apply op_complete_service|].
        eapply rtc_l; [apply (op_start_service _ _ _ _ Hst)|].
        apply rtc_once. eapply op_book. by rewrite Hm2, Hm1.
      * subst arr dep. net_simpl. rewrite Hperm. simpl. by rewrite Hperm1.
      * cbn. rewrite Hb2, Hb1. lia.
      * cbn. by apply start_service_counters in Hst as (_ & -> & _).
      * right. exists k, d, k, nj, (current_time mid).
        split_and!; try done. by rewrite <- Hq1, Hq2.
      * by exists next.
Qed.

End detail.

(** * More invariants of a run *)

(** ** Tools *)

Section run_tools.
Context {RNG : Type} {source : RandomSource RNG}.
Implicit Types (st : LoopState (RNG := RNG)) (self mid : Network) (g : RNG)
  (e : Event.t) (s : Station.t) (cfg : Config).

(** The counters of the network the handler starts from. *)
Lemma handler_state_counters warmup_time st e rest :
  let mid := handler_state warmup_time st e rest in
  routing_matrix mid = routing_matrix (network st)
  ∧ num_stations mid = num_stations (network st)
  ∧ length (stations mid) = length (stations (network st))
  ∧ ((fires warmup_time st e = false
      ∧ stations mid = stations (network st)
      ∧ total_completions mid = total_completions (network st)
      ∧ warmup_completions mid = warmup_completions (network st))
     ∨ (fires warmup_time st e = true
        ∧ stations mid
          = reset_station (Event.time e) <$> stations (network st)
        ∧ total_completions mid = 0%Z
        ∧ warmup_completions mid = 0%Z)).
Proof.
  unfold handler_state. destruct (fires warmup_time st e).
  - split_and!; try done; [|by right].
    unfold _reset_statistics, popped. net_simpl. by rewrite length_fmap.
  - split_and!; try done. by left.
Qed.

Lemma station_of_fresh i spec :
  let s := station_of i spec in
  Station.total_arrivals s = 0%Z ∧ Station.total_departures s = 0%Z
  ∧ Station.total_queue_time s = 0%Q
  ∧ Station.total_service_time s = 0%Q
  ∧ Station.queue_length_sum s = 0%Q
  ∧ Station.mean_service_time s = spec.1.2
  ∧ Station.station_id s = i.
Proof. by destruct spec as [[n m] name]. Qed.

(** The stations seen through [physical] hold the same jobs. *)
Lemma lookup_physical (sts sts' : list Station.t) i s :
  physical <$> sts = physical <$> sts' → sts !! i = Some s →
  ∃ s', sts' !! i = Some s' ∧ Station.queue s' = Station.queue s
        ∧ Station.servers_busy s' = Station.servers_busy s.
Proof.
  intros Hph Hs.
  assert ((physical <$> sts') !! i = Some (physical s)) as Hi.
  { by rewrite <- Hph, list_lookup_fmap, Hs. }
  rewrite list_lookup_fmap in Hi.
  destruct (sts' !! i) as [s'|]; [|done].
  injection Hi as Hq Hb. by exists s'.
Qed.

(** Induction along a run, with the accounting of the jobs and the
    absence of idle waiting at hand. *)
Lemma simulate_inv_jobs (P : LoopState (RNG := RNG) → Prop) cfg
    simulation_time warmup_time :
  (∀ g net g', setup cfg g = Ok (net, g') → P (mkLoop net g' false [])) →
  (∀ st st',
     jobs_inv (network st) →
     Forall no_idle_wait (stations (network st)) →
     P st → loop_guard simulation_time st = true →
     loop_body warmup_time st = Ok st' → P st') →
  ∀ fuel g st,
    simulate cfg simulation_time warmup_time fuel g = Ok st → P st.
Proof.
  intros Hinit Hstep fuel g st Hsim.
  pose proof (simulate_inv
    (fun st => jobs_inv (network st)
               ∧ Forall no_idle_wait (stations (network st)) ∧ P st)
    cfg simulation_time warmup_time) as Hind.
  eapply Hind; [| |exact Hsim].
  - intros g0 net g' Hs. split_and!.
    + by eapply setup_jobs_inv.
    + apply setup_facts in Hs as (_ & _ & _ & _ & _ & _ & Hidle).
      eapply Forall_impl; [exact Hidle|]. by intros s (Hq & _) Hne.
    + by eapply Hinit.
  - intros st0 st' (Hj & Hni & HP) Hg Hb. split_and!.
    + by eapply loop_body_jobs_inv.
    + eapply loop_body_stations_inv; [|apply dispatch_no_idle_wait|done..].
      done.
    + by eapply Hstep.
Qed.

(** The same with the ordering of the times, when no service time is
    negative. *)
Lemma simulate_inv_time (P : LoopState (RNG := RNG) → Prop) cfg
    simulation_time warmup_time :
  nonnegative_draws →
  (∀ g net g', setup cfg g = Ok (net, g') → P (mkLoop net g' false [])) →
  (∀ st st',
     jobs_inv (network st) →
     Forall no_idle_wait (stations (network st)) →
     time_inv warmup_time st →
     P st → loop_guard simulation_time st = true →
     loop_body warmup_time st = Ok st' → P st') →
  ∀ fuel g st,
    simulate cfg simulation_time warmup_time fuel g = Ok st → P st.
Proof.
  intros Hnn Hinit Hstep fuel g st Hsim.
  pose proof (simulate_inv_jobs
    (fun st => time_inv warmup_time st ∧ P st)
    cfg simulation_time warmup_time) as Hind.
  eapply Hind; [| |exact Hsim].
  - intros g0 net g' Hs. split; [by eapply setup_time_inv|by eapply Hinit].
  - intros st0 st' Hj Hni (Ht & HP) Hg Hb.
    split; [by eapply loop_body_time_inv|by eapply Hstep].
Qed.

(** The event the loop pops, and the state its handler starts from. *)
Lemma loop_body_pop warmup_time st st' :
  jobs_inv (network st) → loop_body warmup_time st = Ok st' →
  ∃ e rest,
    heapq.heappop (event_queue (network st)) = Some (e, rest)
    ∧ event_queue (network st) ≡ₚ e :: rest
    ∧ (∀ y, y ∈ rest → (Event.time e <= Event.time y)%Q)
    ∧ dispatch e (handler_state warmup_time st e rest) (generator st)
      = Ok (network st', generator st')
    ∧ warmup_done st' = (if fires warmup_time st e then true
                         else warmup_done st)
    ∧ processed st' = processed st ++ [e].
Proof.
  intros Hinv (e & rest & Hpop & Hd & Hwd & Hproc)%loop_body_Ok.
  destruct (heappop_ok _ _ _ (ji_heap _ Hinv) Hpop) as (_ & Hperm & Hmin).
  by exists e, rest.
Qed.

End run_tools.

(** ** Busy servers are pending departures *)

#[global] Instance pending_departures_perm i :
  Proper ((≡ₚ) ==> (=)) (pending_departures i).
Proof. intros q1 q2 Hq. unfold pending_departures. by rewrite Hq. Qed.

Lemma pending_departures_app i q1 q2 :
  pending_departures i (q1 ++ q2)
  = pending_departures i q1 + pending_departures i q2.
Proof. unfold pending_departures. by rewrite filter_app, length_app. Qed.

Lemma pending_departures_cons i e q :
  pending_departures i (e :: q)
  = (if decide (departure_at i e) then 1 else 0) + pending_departures i q.
Proof.
  unfold pending_departures. rewrite filter_cons.
  by destruct (decide (departure_at i e)).
Qed.

Lemma pending_departures_none i q :
  (∀ x, x ∈ q → ¬ departure_at i x) → pending_departures i q = 0.
Proof.
  intros Hq. unfold pending_departures.
  induction q as [|x q IH]; [done|]. rewrite filter_cons.
  destruct (decide (departure_at i x)) as [Hx|_].
  - exfalso. apply (Hq x); [left|done].
  - apply IH. intros y Hy. apply Hq. by right.
Qed.

Section busy.
Context {RNG : Type} {source : RandomSource RNG}.
Implicit Types (st : LoopState (RNG := RNG)) (self mid : Network) (g : RNG)
  (e : Event.t) (s : Station.t) (cfg : Config).

Lemma loop_body_busy_inv warmup_time st st' :
  jobs_inv (network st) → busy_inv (network st) →
  loop_body warmup_time st = Ok st' → busy_inv (network st').
Proof.
  intros Hinv Hbusy
    (e & rest & _ & Hperm & _ & Hd & _)%loop_body_pop; [|done].
  destruct (handler_state_facts warmup_time st e rest)
    as (Hq & Hct & _ & _ & _ & Hph & _).
  apply dispatch_detail in Hd
    as (s & s' & started & routed & g1 & Hs & Hsts & _ & Hq' & Hb & _ & _
        & _ & _ & _ & _ & Hstarted & Hrouted).
  cbn zeta in *. rewrite Hq in Hq'.
  assert (Hnr : ∀ i, pending_departures i routed = 0).
  { intros i. apply pending_departures_none. intros x Hx [Hty _].
    destruct (Event.event_type e).
    - destruct Hrouted as (-> & _). by apply elem_of_nil in Hx.
    - destruct Hrouted as (next & _ & -> & _).
      by apply list_elem_of_singleton in Hx as ->. }
  assert (Hns : ∀ i, pending_departures i started
                     = if decide (i = Event.station_id e)
                       then length started else 0).
  { intros i.
    destruct Hstarted as [(-> & _)|(k & d & key & job & a & -> & _)].
    { by destruct (decide _). }
    rewrite pending_departures_cons. simpl.
    unfold pending_departures. simpl.
    destruct (decide (departure_at i _)) as [[_ Hi]|Hn];
      destruct (decide (i = Event.station_id e)) as [->|Hne];
      simpl in *; try done; try lia.
    exfalso. by apply Hn. }
  intros i si Hi. rewrite Hq', !pending_departures_app, Hnr, Hns.
  destruct (decide (i = Event.station_id e)) as [->|Hne].
  - rewrite Hsts, list_lookup_insert_eq in Hi
      by (by eapply lookup_lt_Some).
    injection Hi as <-.
    destruct (lookup_physical _ _ _ _ Hph Hs) as (s0 & Hs0 & _ & Hb0).
    specialize (Hbusy _ _ Hs0). rewrite Hperm in Hbusy.
    rewrite pending_departures_cons in Hbusy.
    rewrite Hb, <- Hb0, Hbusy. unfold leaves.
    destruct (decide (departure_at _ e)) as [[Hty _]|Hn].
    + rewrite Hty. lia.
    + destruct (Event.event_type e) eqn:Hty; [lia|].
      exfalso. by apply Hn.
  - rewrite Hsts, list_lookup_insert_ne in Hi by done.
    destruct (lookup_physical _ _ _ _ Hph Hi) as (s0 & Hs0 & _ & Hb0).
    specialize (Hbusy _ _ Hs0). rewrite Hperm in Hbusy.
    rewrite pending_departures_cons in Hbusy.
    rewrite <- Hb0, Hbusy.
    destruct (decide (departure_at _ e)) as [[_ Hst]|Hn]; [done|]. lia.
Qed.

Lemma simulate_busy_inv cfg simulation_time warmup_time fuel g st :
  simulate cfg simulation_time warmup_time fuel g = Ok st →
  busy_inv (network st).
Proof.
  apply (simulate_inv_jobs (fun st => busy_inv (network st))).
  - intros g0 net g' (Hs & _ & _ & _ & Hq & _ & Hidle)%setup_facts.
    intros i s Hi. cbn [network] in *.
    pose proof (Forall_lookup_1 _ _ _ _ Hidle Hi) as (_ & -> & _).
    rewrite Hq, pending_departures_none; [done|].
    by intros x (j & -> & _)%list_elem_of_fmap [Hty _].
  - intros st0 st' Hj _ Hb _. by apply loop_body_busy_inv.
Qed.

End busy.

(** ** The counters along a run *)

Lemma sumZ_app {A} (f : A → Z) l1 l2 :
  sumZ f (l1 ++ l2) = (sumZ f l1 + sumZ f l2)%Z.
Proof. induction l1 as [|x l1 IH]; simpl; lia. Qed.

Lemma sumZ_insert {A} (f : A → Z) (l : list A) i x y :
  l !! i = Some x →
  sumZ f (<[i := y]> l) = (sumZ f l - f x + f y)%Z.
Proof.
  intros Hi. apply lookup_lt_Some in Hi as Hlt.
  rewrite <- (take_drop_middle l i x Hi) at 2.
  rewrite insert_take_drop by done. rewrite !sumZ_app. simpl. lia.
Qed.

Lemma sumZ_zero {A} (f : A → Z) (l : list A) :
  Forall (fun x => f x = 0%Z) l → sumZ f l = 0%Z.
Proof. induction 1 as [|x l Hx _ IH]; simpl; lia. Qed.

Section counters.
Context {RNG : Type} {source : RandomSource RNG}.
Implicit Types (st : LoopState (RNG := RNG)) (self mid : Network) (g : RNG)
  (e : Event.t) (s : Station.t) (cfg : Config).

Lemma setup_fresh cfg g net g' :
  setup cfg g = Ok (net, g') →
  total_completions net = 0%Z ∧ warmup_completions net = 0%Z
  ∧ routing_matrix net = cfg_routing_matrix cfg
  ∧ num_stations net = length (cfg_routing_matrix cfg)
  ∧ Forall (fun s => Station.total_arrivals s = 0%Z
                     ∧ Station.total_departures s = 0%Z
                     ∧ Station.total_queue_time s = 0%Q
                     ∧ Station.total_service_time s = 0%Q
                     ∧ Station.queue_length_sum s = 0%Q) (stations net).
Proof.
  intros Hs. pose proof Hs as (Hsts & _)%setup_facts.
  apply setup_Ok in Hs as (net0 & [-> _]%construct_Ok & ->).
  rewrite Hsts.
  assert (Hkeep : ∀ i self,
            let self' := initialize_jobs i self in
            total_completions self' = total_completions self
            ∧ warmup_completions self' = warmup_completions self
            ∧ routing_matrix self' = routing_matrix self
            ∧ num_stations self' = num_stations self).
  { intros i self. unfold initialize_jobs.
    generalize (seqZ 0 (num_jobs self)) as l. intros l. revert self.
    induction l as [|j l IH]; intros self; [done|].
    cbn [foldl]. cbn zeta.
    match goal with |- context [foldl _ ?a l] =>
      destruct (IH a) as (-> & -> & -> & ->) end.
    done. }
  match goal with |- context [initialize_jobs ?i ?a] =>
    destruct (Hkeep i a) as (-> & -> & -> & ->) end.
  split_and!; try done.
  apply Forall_lookup. intros i s Hi. rewrite list_lookup_imap in Hi.
  destruct (cfg_stations cfg !! i) as [spec|]; [|done].
  injection Hi as <-.
  by destruct (station_of_fresh i spec) as (-> & -> & -> & -> & -> & _).
Qed.

(** *** Completions are departures *)

Lemma simulate_completions cfg simulation_time warmup_time fuel g st :
  simulate cfg simulation_time warmup_time fuel g = Ok st →
  total_completions (network st)
  = sumZ Station.total_departures (stations (network st)).
Proof.
  apply (simulate_inv
    (fun st => total_completions (network st)
               = sumZ Station.total_departures (stations (network st)))).
  - intros g0 net g' (Hc & _ & _ & _ & Hfresh)%setup_fresh. cbn [network].
    rewrite Hc. symmetry. apply sumZ_zero. eapply Forall_impl; [exact Hfresh|].
    by intros s (_ & -> & _).
  - intros st0 st' HP _ (e & rest & _ & Hd & _)%loop_body_Ok.
    apply dispatch_detail in Hd
      as (s & s' & started & routed & g1 & Hs & -> & _ & _ & _ & Hdep
          & -> & _).
    rewrite (sumZ_insert _ _ _ _ _ Hs), Hdep.
    assert (total_completions (handler_state warmup_time st0 e rest)
            = sumZ Station.total_departures
                (stations (handler_state warmup_time st0 e rest)));
      [|lia].
    destruct (handler_state_counters warmup_time st0 e rest)
      as (_ & _ & _ & [(_ & -> & -> & _)|(_ & -> & -> & _)]); [done|].
    symmetry. apply sumZ_zero, Forall_fmap, Forall_forall. by intros s0 _.
Qed.

(** *** The flow balance of a station *)

Lemma dispatch_balanced e mid g self' g' :
  dispatch e mid g = Ok (self', g') →
  Forall balanced (stations mid) → Forall balanced (stations self').
Proof.
  intros (s & s' & started & routed & g1 & Hs & -> & Hops & _)
    %dispatch_detail Hall.
  apply Forall_insert; [done|].
  apply station_ops_facts in Hops as (_ & _ & _ & Hbal).
  apply Hbal. by eapply Forall_lookup_1.
Qed.

Lemma reset_station_wip c s :
  station_wip (reset_station c s) = station_wip s.
Proof. done. Qed.

Lemma simulate_balanced_before cfg simulation_time warmup_time fuel g st :
  simulate cfg simulation_time warmup_time fuel g = Ok st →
  warmup_done st = false → Forall balanced (stations (network st)).
Proof.
  apply (simulate_inv
    (fun st => warmup_done st = false
               → Forall balanced (stations (network st)))).
  - intros g0 net g' Hs _. cbn [network].
    pose proof Hs as (_ & _ & _ & _ & Hfresh)%setup_fresh.
    apply setup_facts in Hs as (_ & _ & _ & _ & _ & _ & Hidle).
    apply Forall_forall. intros s Hin. rewrite Forall_forall in Hfresh, Hidle.
    destruct (Hfresh s Hin) as (Ha & Hd & _).
    destruct (Hidle s Hin) as (Hq & Hb & _).
    unfold balanced, station_wip. rewrite Ha, Hd, Hq, Hb. done.
  - intros st0 st' HP _ (e & rest & _ & Hd & Hwd & _)%loop_body_Ok Hdone.
    rewrite Hdone in Hwd.
    destruct (handler_state_counters warmup_time st0 e rest)
      as (_ & _ & _ & [(Hf & Hsts & _)|(Hf & _)]);
      rewrite Hf in Hwd; [|done].
    eapply dispatch_balanced; [done|]. rewrite Hsts. by apply HP.
Qed.

Lemma simulate_balanced_early cfg simulation_time warmup_time fuel g st :
  (warmup_time <= 0)%Q →
  simulate cfg simulation_time warmup_time fuel g = Ok st →
  Forall balanced (stations (network st)).
Proof.
  intros Hw Hsim.
  enough (Forall balanced (stations (network st))
          ∧ (warmup_done st = false →
             Forall (fun s => station_wip s = 0%Z) (stations (network st))
             ∧ ∀ x, x ∈ event_queue (network st) →
                    Event.time x = 0%Q)) as [? _]; [done|].
  revert fuel g st Hsim. apply simulate_inv_jobs.
  - intros g0 net g' Hs. cbn [network warmup_done].
    pose proof Hs as (_ & _ & _ & _ & Hfresh)%setup_fresh.
    apply setup_facts in Hs as (_ & _ & _ & _ & Hq & _ & Hidle).
    assert (Forall (fun s => balanced s ∧ station_wip s = 0%Z)
              (stations net)) as Hall.
    { apply Forall_forall. intros s Hin.
      rewrite Forall_forall in Hfresh, Hidle.
      destruct (Hfresh s Hin) as (Ha & Hd & _).
      destruct (Hidle s Hin) as (Hqs & Hb & _).
      unfold balanced, station_wip. rewrite Ha, Hd, Hqs, Hb. done. }
    split; [eapply Forall_impl; [exact Hall|]; by intros s [? _]|].
    intros _. split; [eapply Forall_impl; [exact Hall|]; by intros s [_ ?]|].
    intros x Hx. rewrite Hq in Hx.
    by apply list_elem_of_fmap in Hx as (j & -> & _).
  - intros st0 st' Hj _ [Hbal Hinit] _
      (e & rest & _ & Hperm & _ & Hd & Hwd & _)%loop_body_pop; [|done].
    assert (Hmid : Forall balanced
              (stations (handler_state warmup_time st0 e rest))
            ∧ fires warmup_time st0 e = negb (warmup_done st0)).
    { destruct (handler_state_counters warmup_time st0 e rest)
        as (_ & _ & _ & [(Hf & -> & _)|(Hf & -> & _)]); rewrite Hf.
      - split; [done|]. unfold fires in *.
        destruct (warmup_done st0) eqn:Hdone; [done|].
        destruct (Hinit eq_refl) as [_ Hzero].
        rewrite (Hzero e) in Hf by (rewrite Hperm; left).
        simpl in Hf. apply not_true_iff_false in Hf.
        exfalso. apply Hf. by apply Qle_bool_iff.
      - unfold fires in Hf. apply andb_true_iff in Hf as [Hnd _].
        apply negb_true_iff in Hnd. rewrite Hnd. split; [|done].
        destruct (Hinit Hnd) as [Hwip _].
        apply Forall_fmap. eapply Forall_impl; [exact Hwip|].
        intros s Hs. unfold balanced. cbn [compose].
        rewrite reset_station_wip, Hs. done. }
    destruct Hmid as [Hmid Hf]. split.
    + by eapply dispatch_balanced.
    + rewrite Hwd, Hf. by destruct (warmup_done st0).
Qed.

(** *** The table of the jobs *)

Lemma initialize_jobs_jobs initial_station self j :
  jobs (initialize_jobs initial_station self) !! j
  = if decide (0 ≤ j < num_jobs self)%Z
    then Some (Job.mk j 0 0 []) else jobs self !! j.
Proof.
  assert (Hl : ∀ l self,
    jobs (foldl (fun self job_id =>
                   let job := Job.mk job_id 0 0 [] in
                   let self := set_jobs (<[job_id := job]> (jobs self))
                                 self in
                   let event := Event.mk 0 ARRIVAL job_id initial_station in
                   set_event_queue
                     (heapq.heappush (event_queue self) event) self)
            self l) !! j
    = if decide (j ∈ l) then Some (Job.mk j 0 0 []) else jobs self !! j).
  { intros l. induction l as [|i l IH]; intros self0.
    - simpl. by destruct (decide (j ∈ [])) as [?%elem_of_nil|].
    - cbn [foldl]. rewrite IH. cbn zeta. net_simpl.
      destruct (decide (j ∈ l)) as [Hin|Hnin].
      + rewrite decide_True by (by right). done.
      + destruct (decide (j = i)) as [->|Hne].
        * rewrite decide_True by left. by rewrite lookup_insert_eq.
        * rewrite decide_False by (by intros [?|?]%elem_of_cons).
          by rewrite lookup_insert_ne. }
  unfold initialize_jobs. rewrite Hl.
  destruct (decide (0 ≤ j < num_jobs self)%Z) as [Hj|Hj].
  - rewrite decide_True; [done|]. apply elem_of_seqZ. lia.
  - rewrite decide_False; [done|]. rewrite elem_of_seqZ. lia.
Qed.

Lemma simulate_jobs_table cfg simulation_time warmup_time fuel g st :
  simulate cfg simulation_time warmup_time fuel g = Ok st →
  (∀ j, is_Some (jobs (network st) !! j) ↔ (0 ≤ j < cfg_num_jobs cfg)%Z)
  ∧ (∀ j job, jobs (network st) !! j = Some job → job_as_created j job)
  ∧ warmup_completions (network st) = 0%Z
  ∧ Forall (fun s => Station.total_queue_time s = 0%Q)
      (stations (network st)).
Proof.
  apply (simulate_inv
    (fun st =>
       (∀ j, is_Some (jobs (network st) !! j)
             ↔ (0 ≤ j < cfg_num_jobs cfg)%Z)
       ∧ (∀ j job, jobs (network st) !! j = Some job
                   → job_as_created j job)
       ∧ warmup_completions (network st) = 0%Z
       ∧ Forall (fun s => Station.total_queue_time s = 0%Q)
           (stations (network st)))).
  - intros g0 net g' Hs. cbn [network].
    pose proof Hs as (_ & Hw & _ & _ & Hfresh)%setup_fresh.
    apply setup_Ok in Hs as (net0 & [-> _]%construct_Ok & ->).
    split_and!; try done.
    + intros j. rewrite initialize_jobs_jobs. net_simpl.
      destruct (decide _) as [Hj|Hj]; [done|].
      rewrite lookup_empty. split; [by intros [? ?]|done].
    + intros j job. rewrite initialize_jobs_jobs. net_simpl.
      destruct (decide _) as [Hj|Hj]; [by intros [= <-]|].
      by rewrite lookup_empty.
    + eapply Forall_impl; [exact Hfresh|]. by intros s (_ & _ & -> & _).
  - intros st0 st' (Hdom & Hjobs & Hwc & Hqt) _
      (e & rest & _ & Hd & _)%loop_body_Ok.
    destruct (handler_state_facts warmup_time st0 e rest)
      as (_ & _ & _ & _ & Hj & _).
    apply dispatch_detail in Hd
      as (s & s' & started & routed & g1 & Hs & -> & Hops & _ & _ & _ & _
          & -> & _ & _ & _ & Hstarted & _).
    rewrite Hj in Hstarted.
    assert (Hmid : warmup_completions
                     (handler_state warmup_time st0 e rest) = 0%Z
                   ∧ Forall (fun s => Station.total_queue_time s = 0%Q)
                       (stations (handler_state warmup_time st0 e rest))).
    { destruct (handler_state_counters warmup_time st0 e rest)
        as (_ & _ & _ & [(_ & -> & _ & ->)|(_ & -> & _ & ->)]); [done|].
      split; [done|]. apply Forall_fmap, Forall_forall. by intros s0 _. }
    destruct Hmid as [Hwc' Hqt'].
    assert (Hsid : Station.total_queue_time s' = 0%Q).
    { apply station_ops_facts in Hops as (_ & _ & -> & _).
      by apply (Forall_lookup_1 _ _ _ _ Hqt' Hs). }
    destruct Hstarted as [(_ & _ & ->)
      |(k & d & key & job & a & _ & _ & Hkey & -> & _)].
    { split_and!; try done. by apply Forall_insert. }
    split_and!; try done; [| |by apply Forall_insert].
    + intros j. rewrite <- Hdom.
      destruct (decide (j = key)) as [->|Hne].
      * rewrite lookup_insert_eq, Hkey. split; by eauto.
      * by rewrite lookup_insert_ne.
    + intros j job'. destruct (decide (j = key)) as [->|Hne].
      * rewrite lookup_insert_eq. intros [= <-].
        by apply (Hjobs _ _ Hkey).
      * rewrite lookup_insert_ne by done. apply Hjobs.
Qed.

End counters.

(** ** What a run never changes *)

Section static.
Context {RNG : Type} {source : RandomSource RNG}.
Implicit Types (st : LoopState (RNG := RNG)) (self mid : Network) (g : RNG)
  (e : Event.t) (s : Station.t) (cfg : Config).

Lemma simulate_static cfg simulation_time warmup_time fuel g st :
  simulate cfg simulation_time warmup_time fuel g = Ok st →
  routing_matrix (network st) = cfg_routing_matrix cfg
  ∧ num_stations (network st) = length (cfg_routing_matrix cfg)
  ∧ Forall2 (fun s spec => Station.num_servers s = spec.1.1
                           ∧ Station.mean_service_time s = spec.1.2)
      (stations (network st)) (cfg_stations cfg).
Proof.
  apply (simulate_inv
    (fun st =>
       routing_matrix (network st) = cfg_routing_matrix cfg
       ∧ num_stations (network st) = length (cfg_routing_matrix cfg)
       ∧ Forall2 (fun s spec => Station.num_servers s = spec.1.1
                                ∧ Station.mean_service_time s = spec.1.2)
           (stations (network st)) (cfg_stations cfg))).
  - intros g0 net g' Hs. cbn [network].
    pose proof Hs as (_ & _ & -> & -> & _)%setup_fresh.
    apply setup_facts in Hs as (-> & _). split_and!; try done.
    apply Forall2_same_length_lookup. split; [by rewrite length_imap|].
    intros i s spec Hi Hspec. rewrite list_lookup_imap, Hspec in Hi.
    injection Hi as <-. by destruct spec as [[n m] name].
  - intros st0 st' (Hr & Hn & Hst) _ (e & rest & _ & Hd & _)%loop_body_Ok.
    destruct (handler_state_counters warmup_time st0 e rest)
      as (Hr' & Hn' & _ & Hmid).
    apply dispatch_detail in Hd
      as (s & s' & started & routed & g1 & Hs & -> & Hops & _ & _ & _ & _
          & _ & -> & -> & _).
    rewrite Hr', Hn'. split_and!; try done.
    assert (Hst' : Forall2 (fun s spec =>
                      Station.num_servers s = spec.1.1
                      ∧ Station.mean_service_time s = spec.1.2)
              (stations (handler_state warmup_time st0 e rest))
              (cfg_stations cfg)).
    { destruct Hmid as [(_ & -> & _)|(_ & -> & _)]; [done|].
      by apply Forall2_fmap_l. }
    destruct (Forall2_lookup_l _ _ _ _ _ Hst' Hs) as (spec & Hspec & Hn0 & Hm0).
    rewrite <- (list_insert_id _ _ _ Hspec).
    apply Forall2_insert; [done|].
    apply station_ops_facts in Hops as (-> & -> & _). done.
Qed.

(** *** The event queue never runs dry *)

Lemma simulate_pending cfg simulation_time warmup_time fuel g st :
  Forall (fun spec => (1 ≤ spec.1.1)%Z) (cfg_stations cfg) →
  (0 < cfg_num_jobs cfg)%Z →
  simulate cfg simulation_time warmup_time fuel g = Ok st →
  event_queue (network st) ≠ [].
Proof.
  intros Hservers Hjobs Hsim Hempty.
  pose proof (simulate_jobs_inv _ _ _ _ _ _ Hsim) as Hinv.
  pose proof (simulate_busy_inv _ _ _ _ _ _ Hsim) as Hbusy.
  pose proof (simulate_num_jobs _ _ _ _ _ _ Hsim) as Hn.
  pose proof (simulate_static _ _ _ _ _ _ Hsim) as (_ & _ & Hstatic).
  assert (Forall (fun spec => (0 ≤ spec.1.1)%Z) (cfg_stations cfg)) as Hpos.
  { eapply Forall_impl; [exact Hservers|]. intros spec ?. simpl in *. lia. }
  pose proof (simulate_station_inv _ _ _ _ _ _ Hpos Hsim) as Hsat.
  pose proof (ji_tracked _ Hinv) as Htr.
  unfold tracked_jobs in Htr. rewrite Hempty, Hn in Htr. simpl in Htr.
  assert (0%Z ∈ queued_jobs (stations (network st))) as Hin.
  { rewrite Htr. apply elem_of_seqZ. lia. }
  unfold queued_jobs in Hin.
  apply list_elem_of_bind in Hin as (s & Hjs & Hs).
  apply list_elem_of_lookup in Hs as [i Hi].
  pose proof (Forall_lookup_1 _ _ _ _ Hsat Hi) as [_ Hfull].
  specialize (Hbusy _ _ Hi). rewrite Hempty in Hbusy.
  destruct (Forall2_lookup_l _ _ _ _ _ Hstatic Hi) as (spec & Hspec & Hns & _).
  pose proof (Forall_lookup_1 _ _ _ _ Hservers Hspec) as Hone.
  simpl in Hone. rewrite <- Hns, <- Hfull in Hone.
  - rewrite Hbusy in Hone. unfold pending_departures in Hone.
    simpl in Hone. lia.
  - intros Hq. rewrite Hq in Hjs. by apply elem_of_nil in Hjs.
Qed.

End static.

(** ** More on the clock *)

Section clock.
Context {RNG : Type} {source : RandomSource RNG}.
Implicit Types (st : LoopState (RNG := RNG)) (self mid : Network) (g : RNG)
  (e : Event.t) (s : Station.t) (cfg : Config).

(** *** The horizon *)

Lemma simulate_horizon cfg simulation_time warmup_time fuel g st :
  simulate cfg simulation_time warmup_time fuel g = Ok st →
  (∀ i e, processed st !! i = Some e → S i < length (processed st) →
          (Event.time e < simulation_time)%Q)
  ∧ current_time (network st)
    = match last (processed st) with
      | Some e => Event.time e
      | None => 0%Q
      end.
Proof.
  apply (simulate_inv
    (fun st =>
       (∀ i e, processed st !! i = Some e → S i < length (processed st) →
               (Event.time e < simulation_time)%Q)
       ∧ current_time (network st)
         = match last (processed st) with
           | Some e => Event.time e
           | None => 0%Q
           end)).
  - intros g0 net g' (_ & _ & Hc & _)%setup_facts. cbn. split; [|done].
    intros i e Hi. by rewrite lookup_nil in Hi.
  - intros st0 st' [Hbefore Hclock] Hguard
      (e & rest & _ & Hd & _ & Hproc)%loop_body_Ok.
    destruct (handler_state_facts warmup_time st0 e rest) as (_ & Hct & _).
    apply dispatch_effect in Hd as (_ & _ & _ & _ & _ & Hct' & _).
    rewrite Hproc, last_snoc, Hct', Hct. split; [|done].
    assert (Hnow : (current_time (network st0) < simulation_time)%Q).
    { unfold loop_guard in Hguard.
      destruct (event_queue (network st0)); [done|].
      by apply Qlt_bool_iff. }
    intros i x Hi Hlt. rewrite length_app in Hlt. simpl in Hlt.
    rewrite lookup_app_l in Hi by lia.
    destruct (decide (S i < length (processed st0))) as [Hin|Hlast].
    + by eapply Hbefore.
    + assert (last (processed st0) = Some x) as Hl.
      { rewrite last_lookup.
        replace (pred (length (processed st0))) with i by lia. done. }
      rewrite Hl in Hclock. by rewrite <- Hclock.
Qed.

(** *** Pending arrivals are due at once *)

Lemma simulate_arrivals_due cfg simulation_time warmup_time fuel g st :
  nonnegative_draws →
  simulate cfg simulation_time warmup_time fuel g = Ok st →
  ∀ x, x ∈ event_queue (network st) → Event.event_type x = ARRIVAL →
       (Event.time x == current_time (network st))%Q.
Proof.
  intros Hnn.
  apply (simulate_inv_time
    (fun st => ∀ x, x ∈ event_queue (network st) →
                    Event.event_type x = ARRIVAL →
                    (Event.time x == current_time (network st))%Q));
    [done|..].
  - intros g0 net g' (_ & _ & Hc & _ & Hq & _)%setup_facts x Hx _.
    cbn [network] in *. rewrite Hq in Hx.
    apply list_elem_of_fmap in Hx as (j & -> & _). by rewrite Hc.
  - intros st0 st' Hj _ Ht HP _
      (e & rest & _ & Hperm & Hmin & Hd & _)%loop_body_pop; [|done].
    destruct (handler_state_facts warmup_time st0 e rest)
      as (Hq & Hct & _).
    pose proof Hd as (_ & _ & _ & _ & _ & Hct' & _)%dispatch_effect.
    apply dispatch_detail in Hd
      as (s & s' & started & routed & g1 & _ & _ & _ & Hq' & _ & _ & _
          & _ & _ & _ & _ & Hstarted & Hrouted).
    cbn zeta in *. rewrite Hq in Hq'. rewrite Hct in *.
    intros x Hx Hty. rewrite Hct'. rewrite Hq' in Hx.
    apply elem_of_app in Hx as [Hx|[Hx|Hx]%elem_of_app].
    + destruct (Event.event_type e).
      * destruct Hrouted as (-> & _). by apply elem_of_nil in Hx.
      * destruct Hrouted as (next & _ & -> & _).
        by apply list_elem_of_singleton in Hx as ->.
    + destruct Hstarted as [(-> & _)|(k & d & key & job & a & -> & _)].
      * by apply elem_of_nil in Hx.
      * by apply list_elem_of_singleton in Hx as ->.
    + assert (x ∈ event_queue (network st0)) as Hold
        by (rewrite Hperm; by right).
      assert (e ∈ event_queue (network st0)) as He
        by (rewrite Hperm; left).
      pose proof (HP x Hold Hty) as Hxc.
      pose proof (ti_future _ _ Ht e He) as Hec.
      pose proof (Hmin x Hx) as Hex. lra.
Qed.

(** *** The accumulators are never negative *)

Lemma simulate_nonneg cfg simulation_time warmup_time fuel g st :
  nonnegative_draws →
  simulate cfg simulation_time warmup_time fuel g = Ok st →
  (0 <= current_time (network st))%Q
  ∧ Forall (fun s => (0 <= Station.total_service_time s)%Q
                     ∧ (0 <= Station.queue_length_sum s)%Q
                     ∧ (0 <= Station.last_update_time s)%Q)
      (stations (network st)).
Proof.
  intros Hnn.
  apply (simulate_inv_time
    (fun st =>
       (0 <= current_time (network st))%Q
       ∧ Forall (fun s => (0 <= Station.total_service_time s)%Q
                          ∧ (0 <= Station.queue_length_sum s)%Q
                          ∧ (0 <= Station.last_update_time s)%Q)
           (stations (network st)))); [done|..].
  - intros g0 net g' Hs. cbn [network].
    pose proof Hs as (_ & _ & _ & _ & Hfresh)%setup_fresh.
    apply setup_facts in Hs as (_ & _ & -> & _ & _ & _ & Hidle).
    split; [done|]. apply Forall_forall. intros s Hin.
    rewrite Forall_forall in Hfresh, Hidle.
    destruct (Hfresh s Hin) as (_ & _ & _ & -> & ->).
    by destruct (Hidle s Hin) as (_ & _ & ->).
  - intros st0 st' Hj _ Ht [Hc Hall] _
      (e & rest & _ & Hperm & _ & Hd & _)%loop_body_pop; [|done].
    destruct (handler_state_facts warmup_time st0 e rest) as (_ & Hct & _).
    pose proof Hd as (_ & s1 & _ & _ & Hsts1 & Hct' & _ & Hl & _)
      %dispatch_effect.
    apply dispatch_detail in Hd
      as (s & s' & started & routed & g1 & Hs & Hsts & Hops & _).
    cbn zeta in *. rewrite Hct in *.
    assert (He : (current_time (network st0) <= Event.time e)%Q).
    { apply (ti_future _ _ Ht). rewrite Hperm. left. }
    assert (Hs1 : s1 = s').
    { rewrite Hsts in Hsts1.
      assert (<[Event.station_id e := s']>
                 (stations (handler_state warmup_time st0 e rest))
               !! Event.station_id e = Some s') as Hi
        by (apply list_lookup_insert_eq; by eapply lookup_lt_Some).
      rewrite Hsts1, list_lookup_insert_eq in Hi
        by (by eapply lookup_lt_Some).
      by injection Hi. }
    subst s1. rewrite Hct'. split; [lra|]. rewrite Hsts.
    assert (Hmid : Forall (fun s =>
                      (0 <= Station.total_service_time s)%Q
                      ∧ (0 <= Station.queue_length_sum s)%Q
                      ∧ (0 <= Station.last_update_time s)%Q
                      ∧ (Station.last_update_time s <= Event.time e)%Q)
              (stations (handler_state warmup_time st0 e rest))).
    { destruct (handler_state_counters warmup_time st0 e rest)
        as (_ & _ & _ & [(_ & -> & _)|(_ & -> & _)]).
      - apply Forall_forall. intros s0 Hs0.
        rewrite Forall_forall in Hall.
        destruct (Hall s0 Hs0) as (? & ? & ?).
        pose proof (ti_updated _ _ Ht s0 Hs0). split_and!; try done. lra.
      - apply Forall_fmap, Forall_forall. intros s0 _. simpl.
        split_and!; try done; lra. }
    apply Forall_insert.
    + eapply Forall_impl; [exact Hmid|]. by intros s0 (? & ? & ? & _).
    + pose proof (Forall_lookup_1 _ _ _ _ Hmid Hs) as (H1 & H2 & H3 & H4).
      destruct (station_ops_nonneg _ _ _ Hnn Hops H4 H1 H2) as [? ?].
      split_and!; try done. rewrite Hl. lra.
Qed.

End clock.

(** ** The histories of the jobs *)

Lemma chronological_snoc visits w c :
  chronological visits →
  (∀ v, v ∈ visits → (visit_departure v <= c)%Q) →
  (c <= visit_arrival w)%Q →
  (visit_arrival w <= visit_departure w)%Q →
  chronological (visits ++ [w]).
Proof.
  intros [Hvis Hord] Hc Hw Hwd. split.
  - intros v [Hv| ->%list_elem_of_singleton]%elem_of_app.
    + by apply Hvis.
    + done.
  - intros i j v x Hij Hi Hj.
    destruct (decide (j < length visits)) as [Hjl|Hjl].
    + rewrite lookup_app_l in Hi, Hj by lia. by apply (Hord i j).
    + rewrite lookup_app_r in Hj by lia.
      destruct (j - length visits) as [|n] eqn:Hjn; [|by destruct n].
      injection Hj as <-. rewrite lookup_app_l in Hi by lia.
      assert (visit_departure v <= c)%Q; [|lra].
      apply Hc. by eapply list_elem_of_lookup_2.
Qed.

Section histories.
Context {RNG : Type} {source : RandomSource RNG}.
Implicit Types (st : LoopState (RNG := RNG)) (self mid : Network) (g : RNG)
  (e : Event.t) (s : Station.t) (cfg : Config).

Lemma simulate_history_inv cfg simulation_time warmup_time fuel g st :
  nonnegative_draws →
  simulate cfg simulation_time warmup_time fuel g = Ok st →
  history_inv (network st).
Proof.
  intros Hnn.
  apply (simulate_inv_time (fun st => history_inv (network st)));
    [done|..].
  - intros g0 net g' (net0 & [-> _]%construct_Ok & ->)%setup_Ok j job.
    cbn [network]. rewrite initialize_jobs_jobs. net_simpl.
    destruct (decide _) as [Hj|Hj]; [|by rewrite lookup_empty].
    intros [= <-]. simpl. split.
    + split; [by intros v Hv%elem_of_nil|].
      intros i k v w _ Hi. by rewrite lookup_nil in Hi.
    + by intros v Hv%elem_of_nil.
  - intros st0 st' Hj Hni Ht HP _
      (e & rest & _ & Hperm & Hmin & Hd & _)%loop_body_pop; [|done].
    destruct (handler_state_facts warmup_time st0 e rest)
      as (Hq & Hct & _ & _ & Hjobs & Hph & _).
    pose proof Hd as (_ & _ & _ & _ & _ & Hct' & _)%dispatch_effect.
    apply dispatch_detail in Hd
      as (s & s' & started & routed & g1 & Hs & _ & _ & Hq' & _ & _ & _
          & _ & _ & _ & _ & Hstarted & _).
    cbn zeta in *. rewrite Hq in Hq'. rewrite Hct in *. rewrite Hjobs in *.
    assert (He : (current_time (network st0) <= Event.time e)%Q).
    { apply (ti_future _ _ Ht). rewrite Hperm. left. }
    assert (Hnd : NoDup ((Event.job_id <$> e :: rest)
                         ++ queued_jobs (stations (network st0)))).
    { rewrite <- Hperm. fold (tracked_jobs (network st0)).
      rewrite (ji_tracked _ Hj). apply NoDup_seqZ. }
    (* An earlier visit is over by now, or its departure is still
       pending. *)
    assert (Hcarry : ∀ j job v,
              jobs (network st0) !! j = Some job →
              v ∈ Job.station_visits job →
              (visit_departure v <= Event.time e)%Q
              ∨ ∃ x, x ∈ rest ∧ Event.job_id x = j
                     ∧ Event.event_type x = DEPARTURE
                     ∧ (visit_departure v <= Event.time x)%Q).
    { intros j job v Hjob Hv.
      destruct (HP j job Hjob) as [_ Hacc].
      destruct (Hacc v Hv) as [Hle|(x & Hx & Hxj & Hxt & Hxv)].
      - left. lra.
      - rewrite Hperm in Hx.
        apply elem_of_cons in Hx as [->|Hx]; [by left|].
        right. by exists x. }
    assert (Hkeep : ∀ j job v,
              jobs (network st0) !! j = Some job →
              v ∈ Job.station_visits job →
              visit_accounted (network st') j v).
    { intros j job v Hjob Hv.
      destruct (Hcarry j job v Hjob Hv) as [Hle|(x & Hx & Hrest)].
      - left. by rewrite Hct'.
      - right. exists x. split; [|done]. rewrite Hq'.
        apply elem_of_app. right. apply elem_of_app. by right. }
    destruct Hstarted as [(_ & _ & Hsame)
      |(k & d & key & job & a & -> & Hdraw & Hkey & Hnew & Hwho)].
    { intros j job Hjob. rewrite Hsame in Hjob.
      split; [by apply (HP j job)|]. intros v Hv. by eapply Hkeep. }
    (* The job that starts its service has no departure pending. *)
    assert (Hfree : ∀ x, x ∈ rest → Event.job_id x = key → k = key →
                         False).
    { intros x Hx Hxk Hkk.
      destruct (Event.event_type e) eqn:Hty.
      - destruct Hwho as (-> & _). rewrite fmap_cons in Hnd.
        apply NoDup_app in Hnd as (Hnd & _). apply NoDup_cons in Hnd as [Hn _].
        apply Hn. rewrite <- Hxk. by apply list_elem_of_fmap_2.
      - destruct Hwho as (_ & _ & Hhead).
        destruct (lookup_physical _ _ _ _ Hph Hs) as (s0 & Hs0 & Hq0 & _).
        apply NoDup_app in Hnd as (_ & Hdis & _).
        apply (Hdis key).
        + rewrite <- Hxk. apply list_elem_of_fmap_2. by right.
        + unfold queued_jobs. apply list_elem_of_bind. exists s0.
          split; [|by eapply list_elem_of_lookup_2].
          rewrite Hq0. subst k.
          destruct (Station.queue s) as [|k0 q0]; [done|].
          injection Hhead as ->. left. }
    assert (Hk : k = key ∧ a = Event.time e).
    { destruct (Event.event_type e) eqn:Hty.
      - destruct Hwho as (-> & -> & Hhead & Hav). split; [|done].
        destruct (lookup_physical _ _ _ _ Hph Hs) as (s0 & Hs0 & Hq0 & Hb0).
        pose proof (Forall_lookup_1 _ _ _ _ Hni Hs0) as Hw.
        unfold no_idle_wait in Hw.
        destruct (Station.queue s) as [|k0 q0] eqn:Hqs.
        + simpl in Hhead. by injection Hhead.
        + exfalso. pose proof (handler_state_facts warmup_time st0 e rest)
            as (_ & _ & _ & _ & _ & _ & Hns).
          assert (Station.num_servers s0 = Station.num_servers s) as Hn0.
          { assert ((Station.num_servers <$> stations (network st0))
                    !! Event.station_id e
                    = Some (Station.num_servers s)) as Hi
              by (by rewrite <- Hns, list_lookup_fmap, Hs).
            rewrite list_lookup_fmap, Hs0 in Hi. by injection Hi. }
          assert (Station.is_available s0 = false) as Hna
            by (apply Hw; by rewrite Hq0).
          unfold Station.is_available in *.
          rewrite Hb0, Hn0 in Hna. congruence.
      - by destruct Hwho as (-> & -> & _). }
    destruct Hk as [-> ->].
    assert (Hdone : ∀ v, v ∈ Job.station_visits job →
                         (visit_departure v <= Event.time e)%Q).
    { intros v Hv.
      destruct (Hcarry key job v Hkey Hv) as [Hle|(x & Hx & Hxk & _)];
        [done|].
      exfalso. by eapply Hfree. }
    pose proof (Hnn _ _ _ _ Hdraw) as Hd0.
    intros j job' Hjob'. rewrite Hnew in Hjob'.
    destruct (decide (j = key)) as [->|Hne].
    + rewrite lookup_insert_eq in Hjob'. injection Hjob' as <-.
      cbn [Job.station_visits Job.append_visit]. split.
      * apply (chronological_snoc _ _ (Event.time e)).
        -- by apply (HP key job).
        -- done.
        -- apply Qle_refl.
        -- unfold visit_arrival, visit_departure. simpl. lra.
      * intros v [Hv| ->%list_elem_of_singleton]%elem_of_app.
        -- left. rewrite Hct'. by apply Hdone.
        -- right.
           exists (Event.mk (Event.time e + d) DEPARTURE key
                     (Event.station_id e)).
           split; [rewrite Hq'; apply elem_of_app; right; left|].
           split_and!; try done. apply Qle_refl.
    + rewrite lookup_insert_ne in Hjob' by done.
      split; [by apply (HP j job')|]. intros v Hv. by eapply Hkeep.
Qed.

End histories.

(** ** A run of a well-formed network raises no exception *)

Section safety.
Context {RNG : Type} {source : RandomSource RNG}.
Implicit Types (st : LoopState (RNG := RNG)) (self mid : Network) (g : RNG)
  (e : Event.t) (s : Station.t) (cfg : Config).

(** One more iteration. *)
Lemma run_loop_step fuel simulation_time warmup_time st0 st :
  run_loop fuel simulation_time warmup_time st0 = Ok st →
  (loop_guard simulation_time st = false →
   run_loop (S fuel) simulation_time warmup_time st0 = Ok st)
  ∧ (loop_guard simulation_time st = true →
     run_loop (S fuel) simulation_time warmup_time st0
     = loop_body warmup_time st).
Proof.
  revert st0. induction fuel as [|fuel IH]; intros st0 Hrun.
  - injection Hrun as <-. simpl. split; intros ->; [done|].
    by destruct (loop_body warmup_time st0).
  - simpl in Hrun.
    destruct (loop_guard simulation_time st0) eqn:Hg0.
    + bind_inv Hrun. destruct (IH _ Hrun) as [Hstop Hgo].
      change (run_loop (S (S fuel)) simulation_time warmup_time st0)
        with (if loop_guard simulation_time st0
              then st1 ← loop_body warmup_time st0;
                   run_loop (S fuel) simulation_time warmup_time st1
              else Ok st0).
      rewrite Hg0, Hx. by split.
    + injection Hrun as <-. split; [|by rewrite Hg0].
      intros _. simpl. by rewrite Hg0.
Qed.

Lemma simulate_step cfg simulation_time warmup_time fuel g st :
  simulate cfg simulation_time warmup_time fuel g = Ok st →
  (loop_guard simulation_time st = false →
   simulate cfg simulation_time warmup_time (S fuel) g = Ok st)
  ∧ (loop_guard simulation_time st = true →
     simulate cfg simulation_time warmup_time (S fuel) g
     = loop_body warmup_time st).
Proof.
  unfold simulate, run. intros Hsim. bind_inv Hsim.
  destruct x as [net g']. rewrite Hx. cbn [mbind result_bind].
  by apply run_loop_step.
Qed.

(** The handlers succeed on a station and a job that exist, when the
    random source does. *)
Lemma process_arrival_total valid e self g s :
  well_behaved valid → valid g →
  stations self !! Event.station_id e = Some s →
  (0 <= Station.mean_service_time s)%Q →
  is_Some (jobs self !! Event.job_id e) →
  ∃ self' g', process_arrival e self g = Ok (self', g').
Proof.
  intros Hwb Hg Hs Hm [job Hjob]. unfold process_arrival.
  rewrite Hs, Hjob. cbn [from_option mbind result_bind].
  destruct (Station.is_available _); [|by eauto].
  destruct (Station.start_service _ _) as [[k|] s2] eqn:Hst; [|by eauto].
  apply start_service_Some in Hst as (_ & _ & _ & Hm2 & _).
  destruct (add_to_queue_facts (Event.job_id e)
              (current_time
                 (set_jobs_in_transit
                    (jobs_in_transit self ∖ {[Event.job_id e]}) self)) s)
    as (_ & _ & _ & Hm1 & _).
  destruct (wb_exponential _ Hwb (Station.mean_service_time s2) g Hg)
    as (d & g' & Hd & _); [by rewrite Hm2, Hm1|].
  unfold Station.generate_service_time. rewrite Hd.
  cbn [mbind result_bind]. by eauto.
Qed.

Lemma process_departure_total valid e self g s :
  well_behaved valid → valid g →
  stations self !! Event.station_id e = Some s →
  (0 <= Station.mean_service_time s)%Q →
  is_Some (jobs self !! Event.job_id e) →
  (∀ k, k ∈ Station.queue s → is_Some (jobs self !! k)) →
  0 < num_stations self →
  (∃ p, routing_matrix self !! Event.station_id e = Some p
        ∧ distribution (num_stations self) p) →
  ∃ self' g', process_departure e self g = Ok (self', g').
Proof.
  intros Hwb Hg Hs Hm [job Hjob] Hqueue Hn (p & Hp & Hdist).
  assert (Hroute : ∀ self1 g1,
            valid g1 → routing_matrix self1 = routing_matrix self →
            num_stations self1 = num_stations self →
            ∃ next g', get_next_station (Event.station_id e) self1 g1
                       = Ok (next, g')).
  { intros self1 g1 Hg1 Hr Hns. unfold get_next_station.
    rewrite Hr, Hp, Hns. cbn [from_option mbind result_bind].
    destruct (wb_choice _ Hwb _ p g1 Hg1 Hn Hdist) as (i & g' & Hc & _).
    by eauto. }
  unfold process_departure.
  rewrite Hs, Hjob. cbn [from_option mbind result_bind].
  destruct (complete_service_facts (current_time self) s)
    as (Hq1 & _ & _ & Hm1 & _).
  destruct (Station.queue (Station.complete_service _ s)) eqn:Hqs.
  { cbn [mbind result_bind].
    edestruct Hroute as (next & g' & ->); [exact Hg|done..|].
    cbn [mbind result_bind]. by eauto. }
  destruct (Station.start_service _ _) as [[k|] s2] eqn:Hst.
  - pose proof Hst as (Hq2 & _ & _ & Hm2 & _)%start_service_Some.
    destruct (wb_exponential _ Hwb (Station.mean_service_time s2) g Hg)
      as (d & g1 & Hd & Hg1); [by rewrite Hm2, Hm1|].
    unfold Station.generate_service_time. rewrite Hd.
    cbn [mbind result_bind]. net_simpl.
    destruct (Hqueue k) as [next_job Hk].
    { rewrite <- Hq1. rewrite Hqs in Hq2. injection Hq2 as -> _. left. }
    rewrite Hk. cbn [from_option mbind result_bind].
    edestruct Hroute as (next & g' & ->); [exact Hg1|done..|].
    cbn [mbind result_bind]. by eauto.
  - cbn [mbind result_bind].
    edestruct Hroute as (next & g' & ->); [exact Hg|done..|].
    cbn [mbind result_bind]. by eauto.
Qed.

(** The generator stays valid, and the events a handler schedules are
    for stations of the routing matrix. *)
Lemma dispatch_safe valid e mid g self' g' n :
  well_behaved valid → valid g →
  dispatch e mid g = Ok (self', g') →
  Forall (fun s => (0 <= Station.mean_service_time s)%Q) (stations mid) →
  num_stations mid = n →
  Forall (distribution n) (routing_matrix mid) →
  Event.station_id e < n →
  valid g'
  ∧ ∀ x, x ∈ event_queue self' →
         x ∈ event_queue mid ∨ Event.station_id x < n.
Proof.
  intros Hwb Hg Hd Hmeans Hn Hrows Hsid.
  apply dispatch_detail in Hd
    as (s & s' & started & routed & g1 & Hs & _ & _ & Hq' & _ & _ & _
        & _ & _ & _ & _ & Hstarted & Hrouted).
  cbn zeta in *.
  pose proof (Forall_lookup_1 _ _ _ _ Hmeans Hs) as Hm. cbn beta in Hm.
  assert (Hg1 : valid g1
                ∧ ∀ x, x ∈ started → Event.station_id x < n).
  { destruct Hstarted as [(-> & -> & _)|(k & d & key & job & a & -> & Hdraw & _)].
    - split; [done|]. by intros x Hx%elem_of_nil.
    - destruct (wb_exponential _ Hwb _ g Hg Hm) as (d' & g'' & Hd' & Hv).
      rewrite Hdraw in Hd'. injection Hd' as _ <-. split; [done|].
      by intros x ->%list_elem_of_singleton. }
  destruct Hg1 as [Hg1 Hst].
  assert (Hg' : valid g' ∧ ∀ x, x ∈ routed → Event.station_id x < n).
  { destruct (Event.event_type e).
    - destruct Hrouted as (-> & -> & _). split; [done|].
      by intros x Hx%elem_of_nil.
    - destruct Hrouted as (next & Hnext & -> & _).
      unfold get_next_station in Hnext. bind_inv Hnext.
      pose proof (Forall_lookup_1 _ _ _ _ Hrows Hx) as Hdist.
      rewrite Hn in Hnext.
      destruct (wb_choice _ Hwb n x g1 Hg1) as (i & g'' & Hc & Hi & Hv);
        [lia|done|].
      rewrite Hnext in Hc. injection Hc as <- <-. split; [done|].
      by intros y ->%list_elem_of_singleton. }
  destruct Hg' as [Hg' Hrt]. split; [done|].
  intros x Hx. rewrite Hq' in Hx.
  apply elem_of_app in Hx as [Hx|[Hx|Hx]%elem_of_app]; auto.
Qed.

Lemma setup_total valid cfg g :
  well_behaved valid →
  match cfg_seed cfg with
  | Some seed => ∃ g', np_random_seed seed = Ok g'
  | None => valid g
  end →
  ∃ net g', setup cfg g = Ok (net, g') ∧ valid g'.
Proof.
  intros Hwb Hseed. unfold setup, construct, init.
  destruct (cfg_seed cfg) as [seed|].
  - destruct Hseed as [g' Hg']. rewrite Hg'.
    cbn [mbind result_bind]. do 2 eexists. split; [done|].
    by eapply wb_seed.
  - cbn [mbind result_bind]. by eauto.
Qed.

Lemma simulate_total valid cfg simulation_time warmup_time fuel g :
  well_behaved valid → well_formed cfg →
  match cfg_seed cfg with
  | Some seed => ∃ g', np_random_seed seed = Ok g'
  | None => valid g
  end →
  ∃ st,
    simulate cfg simulation_time warmup_time fuel g = Ok st
    ∧ valid (generator st)
    ∧ ∀ x, x ∈ event_queue (network st) →
           Event.station_id x < length (cfg_stations cfg).
Proof.
  intros Hwb Hwf Hseed. induction fuel as [|fuel IH].
  - destruct (setup_total valid cfg g Hwb Hseed) as (net & g' & Hs & Hg').
    exists (mkLoop net g' false []). unfold simulate. rewrite Hs.
    split_and!; try done. cbn [network].
    apply setup_facts in Hs as (_ & _ & _ & _ & Hq & _).
    intros x Hx. rewrite Hq in Hx.
    apply list_elem_of_fmap in Hx as (j & -> & Hj%elem_of_seqZ).
    apply (wf_initial _ Hwf). lia.
  - destruct IH as (st & Hsim & Hg & Hev).
    destruct (simulate_step _ _ _ _ _ _ Hsim) as [Hstop Hgo].
    destruct (loop_guard simulation_time st) eqn:Hguard.
    2: { exists st. by rewrite Hstop. }
    rewrite Hgo by done. clear Hstop Hgo.
    pose proof (simulate_jobs_inv _ _ _ _ _ _ Hsim) as Hinv.
    pose proof (simulate_static _ _ _ _ _ _ Hsim) as (Hr & Hn & Hstatic).
    pose proof (simulate_jobs_table _ _ _ _ _ _ Hsim) as (Hdom & _).
    pose proof (simulate_num_jobs _ _ _ _ _ _ Hsim) as Hnj.
    destruct (heapq.heappop (event_queue (network st)))
      as [[e rest]|] eqn:Hpop.
    2: { apply heappop_None in Hpop. unfold loop_guard in Hguard.
         by rewrite Hpop in Hguard. }
    destruct (heappop_ok _ _ _ (ji_heap _ Hinv) Hpop) as (_ & Hperm & _).
    set (mid := handler_state warmup_time st e rest).
    destruct (handler_state_facts warmup_time st e rest)
      as (Hq & _ & _ & _ & Hjobs & Hph & _).
    destruct (handler_state_counters warmup_time st e rest)
      as (Hr' & Hn' & Hlen & Hmid).
    fold mid in Hq, Hjobs, Hph, Hr', Hn', Hlen, Hmid.
    assert (Hsid : Event.station_id e < length (cfg_stations cfg)).
    { apply Hev. rewrite Hperm. left. }
    assert (Hmeans : Forall (fun s => (0 <= Station.mean_service_time s)%Q)
                       (stations mid)).
    { assert (Forall (fun s => (0 <= Station.mean_service_time s)%Q)
                (stations (network st))) as Hm.
      { apply Forall_lookup. intros i s Hi.
        destruct (Forall2_lookup_l _ _ _ _ _ Hstatic Hi)
          as (spec & Hspec & _ & ->).
        apply (Forall_lookup_1 _ _ _ _ (wf_means _ Hwf) Hspec). }
      destruct Hmid as [(_ & -> & _)|(_ & -> & _)]; [done|].
      apply Forall_fmap. eapply Forall_impl; [exact Hm|]. by intros s. }
    assert (Htracked : ∀ j, j ∈ tracked_jobs (network st) →
                            is_Some (jobs mid !! j)).
    { intros j Hj. rewrite (ji_tracked _ Hinv), Hnj in Hj.
      apply elem_of_seqZ in Hj. rewrite Hjobs. apply Hdom. lia. }
    destruct (lookup_lt_is_Some_2 (stations mid) (Event.station_id e))
      as [s Hs].
    { rewrite Hlen, (Forall2_length _ _ _ Hstatic). done. }
    pose proof (Forall_lookup_1 _ _ _ _ Hmeans Hs) as Hm. cbn beta in Hm.
    assert (Hjob : is_Some (jobs mid !! Event.job_id e)).
    { apply Htracked. unfold tracked_jobs. rewrite Hperm, fmap_cons.
      left. }
    assert (Hd : ∃ self' g',
              dispatch e mid (generator st) = Ok (self', g')).
    { unfold dispatch. destruct (Event.event_type e).
      - by eapply process_arrival_total.
      - eapply process_departure_total; try done.
        + intros k Hk. apply Htracked. unfold tracked_jobs.
          apply elem_of_app. right. unfold queued_jobs.
          apply list_elem_of_bind.
          destruct (lookup_physical _ _ _ _ Hph Hs) as (s0 & Hs0 & Hq0 & _).
          exists s0. split; [by rewrite Hq0|].
          by eapply list_elem_of_lookup_2.
        + rewrite Hn', Hn, (wf_square _ Hwf). lia.
        + rewrite Hr', Hr, Hn', Hn, (wf_square _ Hwf).
          destruct (lookup_lt_is_Some_2 (cfg_routing_matrix cfg)
                      (Event.station_id e)) as [p Hp].
          { by rewrite (wf_square _ Hwf). }
          exists p. split; [done|].
          apply (Forall_lookup_1 _ _ _ _ (wf_rows _ Hwf) Hp). }
    destruct Hd as (self' & g' & Hd).
    destruct (dispatch_safe valid e mid (generator st) self' g'
                (length (cfg_stations cfg)) Hwb Hg Hd Hmeans)
      as [Hg' Hev'].
    { by rewrite Hn', Hn, (wf_square _ Hwf). }
    { rewrite Hr', Hr. apply (wf_rows _ Hwf). }
    { done. }
    unfold loop_body. rewrite Hpop. cbn [from_option mbind result_bind].
    fold (popped e rest (network st)).
    change (Event.time e) with (current_time (popped e rest (network st))).
    unfold mid, handler_state, fires in Hd.
    change (Event.time e) with (current_time (popped e rest (network st)))
      in Hd.
    destruct (negb (warmup_done st)
              && Qle_bool warmup_time
                   (current_time (popped e rest (network st))));
      rewrite Hd; cbn [mbind result_bind]; eexists;
      (split; [done|]); cbn [generator network]; (split; [done|]);
      intros x Hx; destruct (Hev' x Hx) as [Hold|Hnew]; try done;
      apply Hev; rewrite Hperm; right; by rewrite <- Hq.
Qed.

End safety.

(** * The reports *)

Section reports.
Implicit Types (self : Network) (r : Statistics).

Lemma truediv_Some (x y q : Q) :
  truediv x y = Some q ↔ ¬ (y == 0)%Q ∧ q = (x / y)%Q.
Proof.
  unfold truediv. destruct (Qeq_bool y 0) eqn:Hy.
  - apply Qeq_bool_iff in Hy. split; [done|]. by intros [? _].
  - apply Qeq_bool_neq in Hy. split.
    + by intros [= <-].
    + by intros [_ ->].
Qed.

Lemma truediv_None (x y : Q) : truediv x y = None ↔ (y == 0)%Q.
Proof.
  unfold truediv. destruct (Qeq_bool y 0) eqn:Hy.
  - by apply Qeq_bool_iff in Hy.
  - apply Qeq_bool_neq in Hy. split; [done|]. by intros ?.
Qed.

(** *** The loop that looks for the bottleneck *)

Lemma bottleneck_loop_Some sts u0 b0 u b :
  bottleneck_loop sts u0 b0 = Some (u, b) →
  (u0 <= u)%Q
  ∧ Forall (fun s => ∃ us, Station.utilization s = Some us
                           ∧ (us <= u)%Q) sts
  ∧ ((u = u0 ∧ b = b0)
     ∨ ∃ i s, sts !! i = Some s ∧ b = Some s
              ∧ Station.utilization s = Some u ∧ (u0 < u)%Q
              ∧ ∀ j s', j < i → sts !! j = Some s' →
                        ∃ us, Station.utilization s' = Some us
                              ∧ (us < u)%Q).
Proof.
  revert u0 b0. induction sts as [|s sts IH]; intros u0 b0 Hloop.
  - injection Hloop as <- <-. split_and!; [apply Qle_refl|done|by left].
  - cbn [bottleneck_loop] in Hloop.
    destruct (Station.utilization s) as [us|] eqn:Hus; [|done].
    cbn [mbind option_bind] in Hloop.
    destruct (Qlt_bool u0 us) eqn:Hlt.
    + apply Qlt_bool_iff in Hlt.
      apply IH in Hloop as (Hle & Hall & Hb). split_and!.
      * lra.
      * apply Forall_cons. split; [by exists us|done].
      * right. destruct Hb as [[-> ->]|(i & s' & Hi & -> & Hu & Hlt' & Hfirst)].
        -- exists 0, s. split_and!; try done. intros j s' Hj. lia.
        -- exists (S i), s'. split_and!; try done; [lra|].
           intros [|j] s'' Hj Hs''.
           ++ injection Hs'' as <-. exists us. split; [done|lra].
           ++ apply (Hfirst j); [lia|done].
    + apply Qlt_bool_false in Hlt.
      apply IH in Hloop as (Hle & Hall & Hb). split_and!.
      * done.
      * apply Forall_cons. split; [exists us; split; [done|lra]|done].
      * destruct Hb as [[-> ->]|(i & s' & Hi & -> & Hu & Hlt' & Hfirst)];
          [by left|right].
        exists (S i), s'. split_and!; try done.
        intros [|j] s'' Hj Hs''.
        -- injection Hs'' as <-. exists us. split; [done|lra].
        -- apply (Hfirst j); [lia|done].
Qed.

Lemma bottleneck_loop_None sts u0 b0 :
  bottleneck_loop sts u0 b0 = None
  ↔ Exists (fun s => Station.utilization s = None) sts.
Proof.
  revert u0 b0. induction sts as [|s sts IH]; intros u0 b0.
  - split; [done|]. by intros ?%Exists_nil.
  - cbn [bottleneck_loop]. rewrite Exists_cons.
    destruct (Station.utilization s) as [us|]; cbn [mbind option_bind].
    + destruct (Qlt_bool u0 us); rewrite IH; naive_solver.
    + naive_solver.
Qed.

(** *** [max] and the bottleneck loop choose the same station *)

Lemma max_loop_bottleneck sts u0 b0 u b :
  bottleneck_loop sts u0 (Some b0) = Some (u, Some b) →
  max_loop Station.utilization sts b0 u0 = Some b.
Proof.
  revert u0 b0. induction sts as [|s sts IH]; intros u0 b0 Hloop.
  - by injection Hloop as <- <-.
  - cbn [bottleneck_loop max_loop] in *.
    destruct (Station.utilization s) as [us|]; [|done].
    cbn [mbind option_bind] in *.
    destruct (Qlt_bool u0 us); by apply IH.
Qed.

Lemma max_loop_first_positive sts m mv u b :
  (mv <= 0)%Q →
  bottleneck_loop sts 0 None = Some (u, Some b) →
  max_loop Station.utilization sts m mv = Some b.
Proof.
  revert m mv. induction sts as [|s sts IH]; intros m mv Hmv Hloop.
  - done.
  - cbn [bottleneck_loop max_loop] in *.
    destruct (Station.utilization s) as [us|]; [|done].
    cbn [mbind option_bind] in *.
    destruct (Qlt_bool 0 us) eqn:Hpos.
    + apply Qlt_bool_iff in Hpos.
      replace (Qlt_bool mv us) with true
        by (symmetry; apply Qlt_bool_iff; lra).
      by eapply max_loop_bottleneck.
    + apply Qlt_bool_false in Hpos.
      destruct (Qlt_bool mv us); by eapply IH.
Qed.

Lemma max_by_bottleneck sts u b :
  bottleneck_loop sts 0 None = Some (u, Some b) →
  max_by Station.utilization sts = Some b.
Proof.
  destruct sts as [|s sts]; [done|].
  cbn [bottleneck_loop max_by].
  destruct (Station.utilization s) as [us|]; [|done].
  cbn [mbind option_bind].
  destruct (Qlt_bool 0 us) eqn:Hpos.
  - intros Hloop. by eapply max_loop_bottleneck.
  - apply Qlt_bool_false in Hpos. intros Hloop.
    by eapply max_loop_first_positive.
Qed.

Lemma max_loop_Some {A} (key : A → option Q) l m mv b :
  max_loop key l m mv = Some b →
  Forall (fun x => is_Some (key x)) l
  ∧ (b = m ∨ b ∈ l).
Proof.
  revert m mv. induction l as [|x l IH]; intros m mv Hloop.
  - injection Hloop as <-. split; [done|by left].
  - cbn [max_loop] in Hloop. destruct (key x) as [v|] eqn:Hv; [|done].
    cbn [mbind option_bind] in Hloop.
    destruct (Qlt_bool mv v); apply IH in Hloop as [Hall Hb];
      (split; [apply Forall_cons; by split|]);
      destruct Hb as [->|Hb]; try (by left); right;
      try (by left); by right.
Qed.

Lemma max_by_Some {A} (key : A → option Q) l b :
  max_by key l = Some b →
  Forall (fun x => is_Some (key x)) l ∧ b ∈ l.
Proof.
  destruct l as [|x l]; [done|]. cbn [max_by].
  destruct (key x) as [v|] eqn:Hv; [|done]. cbn [mbind option_bind].
  intros [Hall Hb]%max_loop_Some. split.
  - apply Forall_cons. by split.
  - destruct Hb as [->|Hb]; [left|by right].
Qed.

Lemma bottleneck_loop_is_Some sts u0 b0 :
  Forall (fun s => is_Some (Station.utilization s)) sts →
  is_Some (bottleneck_loop sts u0 b0).
Proof.
  intros Hall.
  destruct (bottleneck_loop sts u0 b0) eqn:Hloop; [done|].
  apply bottleneck_loop_None, Exists_exists in Hloop as (s & Hs & Hn).
  rewrite Forall_forall in Hall. destruct (Hall s Hs) as [u Hu]. congruence.
Qed.

(** *** When the report fails *)

Lemma print_statistics_None self :
  print_statistics self = None
  ↔ ((0 < total_completions self)%Z
     ∧ ((current_time self == 0)%Q ∨ num_jobs self = 0%Z))
    ∨ Exists (fun s => Station.utilization s = None) (stations self).
Proof.
  unfold print_statistics. rewrite <- (bottleneck_loop_None _ 0%Q None).
  destruct (bool_decide (0 < total_completions self)%Z) eqn:Hc.
  - apply bool_decide_eq_true in Hc.
    assert (¬ (inject_Z (total_completions self) == 0)%Q) as HC.
    { change 0%Q with (inject_Z 0). rewrite inject_Z_injective. lia. }
    destruct (truediv _ (current_time self)) as [th|] eqn:Hth.
    2: { apply truediv_None in Hth. cbn [mbind option_bind].
         split; [|done]. intros _. left. auto. }
    apply truediv_Some in Hth as [HT _]. cbn [mbind option_bind].
    destruct (truediv _ (inject_Z (num_jobs self))) as [pj|] eqn:Hpj.
    2: { apply truediv_None in Hpj. cbn [mbind option_bind].
         split; [|done]. intros _. left. split; [done|]. right.
         by apply (inject_Z_injective _ 0). }
    apply truediv_Some in Hpj as [HN ->]. cbn [mbind option_bind].
    destruct (truediv (current_time self) _) as [ct|] eqn:Hct.
    2: { exfalso. apply truediv_None in Hct.
         apply HC. rewrite <- (Qmult_div_r (inject_Z (total_completions self))
                                 (inject_Z (num_jobs self))) by done.
         rewrite Hct. ring. }
    cbn [mbind option_bind].
    destruct (bottleneck_loop _ _ _) as [[u b]|]; cbn [mbind option_bind].
    + split; [done|]. intros [(_ & [HT0|HN0])|?]; [done| |done].
      exfalso. apply HN. by rewrite HN0.
    + split; [by right|done].
  - apply bool_decide_eq_false in Hc. cbn [mbind option_bind].
    destruct (bottleneck_loop _ _ _) as [[u b]|]; cbn [mbind option_bind].
    + split; [done|]. intros [[? _]|?]; [lia|done].
    + split; [by right|done].
Qed.

End reports.

(** * Edge cases of a run *)

Section edges.
Context {RNG : Type} {source : RandomSource RNG}.
Implicit Types (st : LoopState (RNG := RNG)) (self mid : Network) (g : RNG)
  (e : Event.t) (s : Station.t) (cfg : Config).

(** ** The warmup reset happens once *)

Lemma simulate_warmup_done cfg simulation_time warmup_time fuel g st :
  simulate cfg simulation_time warmup_time fuel g = Ok st →
  warmup_done st = true
  ↔ Exists (fun e => (warmup_time <= Event.time e)%Q) (processed st).
Proof.
  apply (simulate_inv
    (fun st => warmup_done st = true
               ↔ Exists (fun e => (warmup_time <= Event.time e)%Q)
                   (processed st))).
  - intros g0 net g' _. cbn. split; [done|]. by intros ?%Exists_nil.
  - intros st0 st' HP _ (e & rest & _ & _ & -> & ->)%loop_body_Ok.
    rewrite Exists_app, Exists_cons, Exists_nil, <- HP. unfold fires.
    destruct (warmup_done st0); simpl; [naive_solver|].
    destruct (Qle_bool warmup_time (Event.time e)) eqn:Hle.
    + apply Qle_bool_iff in Hle. naive_solver.
    + split; [done|]. intros [?|[Hw|[]]]; [done|].
      apply Qle_bool_iff in Hw. congruence.
Qed.

Lemma simulate_warm_clock cfg simulation_time warmup_time fuel g st :
  nonnegative_draws →
  simulate cfg simulation_time warmup_time fuel g = Ok st →
  warmup_done st = true →
  (warmup_time <= current_time (network st))%Q.
Proof.
  intros Hnn Hsim Hdone.
  pose proof (simulate_time_inv _ _ _ _ _ _ Hnn Hsim) as Ht.
  apply (simulate_warmup_done _ _ _ _ _ _ Hsim) in Hdone.
  apply Exists_exists in Hdone as (e & He & Hle).
  pose proof (ti_past _ _ Ht e He). lra.
Qed.

(** ** A network without jobs *)

Lemma simulate_no_jobs cfg simulation_time warmup_time fuel g st :
  (cfg_num_jobs cfg ≤ 0)%Z →
  simulate cfg simulation_time warmup_time fuel g = Ok st →
  processed st = [] ∧ total_completions (network st) = 0%Z
  ∧ current_time (network st) = 0%Q.
Proof.
  intros Hn Hsim.
  enough (num_jobs (network st) = cfg_num_jobs cfg
          ∧ processed st = []
          ∧ total_completions (network st) = 0%Z
          ∧ current_time (network st) = 0%Q) as (_ & ? & ? & ?); [done|].
  revert fuel g st Hsim. apply simulate_inv_jobs.
  - intros g0 net g' Hs. cbn.
    pose proof Hs as (Hc & _)%setup_fresh.
    by apply setup_facts in Hs as (_ & _ & ? & ? & _).
  - intros st0 st' Hj _ (Hnj & _) Hguard _. exfalso.
    pose proof (ji_tracked _ Hj) as Htr. unfold tracked_jobs in Htr.
    rewrite Hnj in Htr. unfold seqZ in Htr.
    replace (Z.to_nat (cfg_num_jobs cfg)) with 0 in Htr by lia.
    simpl in Htr. apply Permutation_nil_r in Htr.
    apply app_eq_nil in Htr as [Hq _]. apply fmap_nil_inv in Hq.
    unfold loop_guard in Hguard. by rewrite Hq in Hguard.
Qed.

(** ** Service times that are all zero *)

Lemma simulate_frozen cfg simulation_time warmup_time fuel g st :
  (∀ scale g d g', (scale == 0)%Q →
     np_random_exponential scale g = Ok (d, g') → (d == 0)%Q) →
  Forall (fun spec => (spec.1.2 == 0)%Q) (cfg_stations cfg) →
  simulate cfg simulation_time warmup_time fuel g = Ok st →
  (current_time (network st) == 0)%Q
  ∧ ∀ x, x ∈ event_queue (network st) → (Event.time x == 0)%Q.
Proof.
  intros Hzero Hmeans Hsim.
  enough ((current_time (network st) == 0)%Q
          ∧ (∀ x, x ∈ event_queue (network st) → (Event.time x == 0)%Q)
          ∧ Forall (fun s => (Station.mean_service_time s == 0)%Q)
              (stations (network st))) as (? & ? & _); [done|].
  revert fuel g st Hsim. apply simulate_inv_jobs.
  - intros g0 net g' (Hsts & _ & Hc & _ & Hq & _)%setup_facts.
    cbn [network]. rewrite Hsts, Hc. split_and!; [done| |].
    + intros x Hx. rewrite Hq in Hx.
      by apply list_elem_of_fmap in Hx as (j & -> & _).
    + apply Forall_lookup. intros i s Hi. rewrite list_lookup_imap in Hi.
      destruct (cfg_stations cfg !! i) as [spec|] eqn:Hspec; [|done].
      injection Hi as <-.
      destruct (station_of_fresh i spec) as (_ & _ & _ & _ & _ & -> & _).
      apply (Forall_lookup_1 _ _ _ _ Hmeans Hspec).
  - intros st0 st' Hj _ (Hc & Hq & Hm) _
      (e & rest & _ & Hperm & _ & Hd & _)%loop_body_pop; [|done].
    destruct (handler_state_facts warmup_time st0 e rest)
      as (Hqm & Hct & _).
    pose proof Hd as (_ & _ & _ & _ & _ & Hct' & _)%dispatch_effect.
    apply dispatch_detail in Hd
      as (s & s' & started & routed & g1 & Hs & Hsts & Hops & Hq' & _ & _
          & _ & _ & _ & _ & _ & Hstarted & Hrouted).
    cbn zeta in *. rewrite Hqm in Hq'. rewrite Hct in *.
    assert (He : (Event.time e == 0)%Q).
    { apply Hq. rewrite Hperm. left. }
    assert (Hmid : Forall (fun s => (Station.mean_service_time s == 0)%Q)
                     (stations (handler_state warmup_time st0 e rest))).
    { destruct (handler_state_counters warmup_time st0 e rest)
        as (_ & _ & _ & [(_ & -> & _)|(_ & -> & _)]); [done|].
      apply Forall_fmap. eapply Forall_impl; [exact Hm|]. by intros s0. }
    pose proof (Forall_lookup_1 _ _ _ _ Hmid Hs) as Hms. cbn beta in Hms.
    split_and!.
    + by rewrite Hct'.
    + intros x Hx. rewrite Hq' in Hx.
      apply elem_of_app in Hx as [Hx|[Hx|Hx]%elem_of_app].
      * destruct (Event.event_type e).
        -- destruct Hrouted as (-> & _). by apply elem_of_nil in Hx.
        -- destruct Hrouted as (next & _ & -> & _).
           by apply list_elem_of_singleton in Hx as ->.
      * destruct Hstarted
          as [(-> & _)|(k & d & key & job & a & -> & Hdraw & _)].
        -- by apply elem_of_nil in Hx.
        -- apply list_elem_of_singleton in Hx as ->. simpl.
           pose proof (Hzero _ _ _ _ Hms Hdraw). lra.
      * apply Hq. rewrite Hperm. by right.
    + rewrite Hsts. apply Forall_insert; [done|].
      apply station_ops_facts in Hops as (_ & -> & _). done.
Qed.

(** The state one iteration earlier. *)
Lemma run_loop_prefix fuel simulation_time warmup_time st0 st :
  run_loop (S fuel) simulation_time warmup_time st0 = Ok st →
  ∃ st1,
    run_loop fuel simulation_time warmup_time st0 = Ok st1
    ∧ ((loop_guard simulation_time st1 = false ∧ st = st1)
       ∨ (loop_guard simulation_time st1 = true
          ∧ loop_body warmup_time st1 = Ok st)).
Proof.
  revert st0. induction fuel as [|fuel IH]; intros st0 Hrun.
  - exists st0. split; [done|]. simpl in Hrun.
    destruct (loop_guard simulation_time st0).
    + right. split; [done|]. by destruct (loop_body warmup_time st0).
    + left. split; [done|]. by injection Hrun.
  - change (run_loop (S (S fuel)) simulation_time warmup_time st0)
      with (if loop_guard simulation_time st0
            then st1 ← loop_body warmup_time st0;
                 run_loop (S fuel) simulation_time warmup_time st1
            else Ok st0) in Hrun.
    destruct (loop_guard simulation_time st0) eqn:Hg0.
    + bind_inv Hrun. destruct (IH _ Hrun) as (st1 & Hst1 & Hcases).
      exists st1. split; [|done]. simpl. by rewrite Hg0, Hx.
    + injection Hrun as <-. exists st0. split; [|by left].
      simpl. by rewrite Hg0.
Qed.

Lemma simulate_prefix cfg simulation_time warmup_time fuel g st :
  simulate cfg simulation_time warmup_time (S fuel) g = Ok st →
  ∃ st1,
    simulate cfg simulation_time warmup_time fuel g = Ok st1
    ∧ ((loop_guard simulation_time st1 = false ∧ st = st1)
       ∨ (loop_guard simulation_time st1 = true
          ∧ loop_body warmup_time st1 = Ok st)).
Proof.
  unfold simulate, run. intros Hsim. bind_inv Hsim.
  destruct x as [net g']. rewrite Hx. cbn [mbind result_bind].
  by apply run_loop_prefix.
Qed.

(** ** A station that does not exist *)

Lemma simulate_missing_station cfg simulation_time warmup_time fuel g :
  (∃ r, setup cfg g = Ok r) →
  (0 < cfg_num_jobs cfg)%Z →
  length (cfg_stations cfg) ≤ cfg_initial_station cfg →
  (0 < simulation_time)%Q →
  simulate cfg simulation_time warmup_time (S fuel) g = Raise IndexError.
Proof.
  intros [[net g'] Hs] Hjobs Hlen Hsim. unfold simulate, run.
  rewrite Hs. cbn [mbind result_bind].
  pose proof Hs as (Hsts & _ & Hc & _ & Hq & Hheap & _)%setup_facts.
  assert (Hne : event_queue net ≠ []).
  { intros Hnil. rewrite Hnil in Hq. symmetry in Hq.
    apply Permutation_nil_r, fmap_nil_inv in Hq.
    assert (0%Z ∈ seqZ 0 (cfg_num_jobs cfg)) as Hin
      by (apply elem_of_seqZ; lia).
    rewrite Hq in Hin. by apply elem_of_nil in Hin. }
  simpl run_loop. unfold loop_guard. cbn [network].
  destruct (event_queue net) as [|e0 q0] eqn:Hqe; [done|].
  replace (Qlt_bool (current_time net) simulation_time) with true
    by (symmetry; apply Qlt_bool_iff; by rewrite Hc).
  unfold loop_body. cbn [network]. rewrite Hqe.
  destruct (heapq.heappop (e0 :: q0)) as [[e rest]|] eqn:Hpop.
  2: { by apply heappop_None in Hpop. }
  destruct (heappop_ok _ _ _ Hheap Hpop) as (_ & Hperm & _).
  assert (He : Event.event_type e = ARRIVAL
               ∧ Event.station_id e = cfg_initial_station cfg).
  { assert (e ∈ e0 :: q0) as Hin by (rewrite Hperm; left).
    rewrite Hq in Hin.
    by apply list_elem_of_fmap in Hin as (j & -> & _). }
  destruct He as [Hty Hst].
  cbn [from_option mbind result_bind].
  assert (Hraise : ∀ self g0,
            length (stations self) = length (cfg_stations cfg) →
            dispatch e self g0 = Raise IndexError).
  { intros self g0 Hl. unfold dispatch, process_arrival.
    rewrite Hty, Hst, lookup_ge_None_2 by lia. done. }
  cbn [warmup_done generator].
  destruct (negb false && Qle_bool warmup_time _).
  - rewrite Hraise; [done|]. unfold _reset_statistics. net_simpl.
    by rewrite length_fmap, Hsts, length_imap.
  - rewrite Hraise; [done|]. net_simpl. by rewrite Hsts, length_imap.
Qed.

(** ** The report after the warmup *)

Lemma simulate_report cfg simulation_time warmup_time fuel g st :
  nonnegative_draws →
  Forall (fun spec => spec.1.1 ≠ 0%Z) (cfg_stations cfg) →
  (0 < warmup_time)%Q →
  simulate cfg simulation_time warmup_time fuel g = Ok st →
  warmup_done st = true →
  ∃ r, print_statistics (network st) = Some r.
Proof.
  intros Hnn Hservers Hw Hsim Hdone.
  destruct (print_statistics (network st)) as [r|] eqn:Hr; [by exists r|].
  exfalso. apply print_statistics_None in Hr.
  pose proof (simulate_time_inv _ _ _ _ _ _ Hnn Hsim) as Ht.
  pose proof (simulate_warm_clock _ _ _ _ _ _ Hnn Hsim Hdone) as Hclock.
  pose proof (simulate_static _ _ _ _ _ _ Hsim) as (_ & _ & Hstatic).
  pose proof (simulate_num_jobs _ _ _ _ _ _ Hsim) as Hn.
  destruct Hr as [(Hc & [HT|HN])|Hu].
  - lra.
  - destruct (simulate_no_jobs cfg simulation_time warmup_time fuel g st)
      as (_ & Hzero & _); [lia|done|lia].
  - apply Exists_exists in Hu as (s & Hs & Hu).
    pose proof (ti_reset _ _ Ht Hdone s Hs) as Hl.
    apply list_elem_of_lookup in Hs as [i Hi].
    destruct (Forall2_lookup_l _ _ _ _ _ Hstatic Hi) as (spec & Hspec & Hns & _).
    pose proof (Forall_lookup_1 _ _ _ _ Hservers Hspec) as Hne.
    cbn beta in Hne. rewrite <- Hns in Hne.
    unfold Station.utilization in Hu.
    destruct (Qeq_bool (Station.total_service_time s) 0); [done|].
    cbn zeta in Hu.
    destruct (Qeq_bool (inject_Z (Station.num_servers s)
                        * Station.last_update_time s) 0) eqn:Hz; [|done].
    apply Qeq_bool_iff in Hz. apply Qmult_integral in Hz as [Hz|Hz]; [|lra].
    apply Hne. apply (inject_Z_injective _ 0). exact Hz.
Qed.

(** ** Running, then reporting *)

Lemma simulate_then_report valid cfg simulation_time warmup_time fuel g :
  well_behaved valid → nonnegative_draws → well_formed cfg →
  Forall (fun spec => (1 ≤ spec.1.1)%Z) (cfg_stations cfg) →
  (0 < cfg_num_jobs cfg)%Z →
  (0 < warmup_time)%Q → (warmup_time <= simulation_time)%Q →
  match cfg_seed cfg with
  | Some seed => ∃ g', np_random_seed seed = Ok g'
  | None => valid g
  end →
  ∃ st,
    simulate cfg simulation_time warmup_time fuel g = Ok st
    ∧ (loop_guard simulation_time st = false →
       (simulation_time <= current_time (network st))%Q
       ∧ warmup_done st = true
       ∧ ∃ r, print_statistics (network st) = Some r).
Proof.
  intros Hwb Hnn Hwf Hservers Hjobs Hw Hws Hseed.
  destruct (simulate_total valid cfg simulation_time warmup_time fuel g
              Hwb Hwf Hseed) as (st & Hsim & _).
  exists st. split; [done|]. intros Hguard.
  pose proof (simulate_pending _ _ _ _ _ _ Hservers Hjobs Hsim) as Hne.
  assert (Hend : (simulation_time <= current_time (network st))%Q).
  { unfold loop_guard in Hguard.
    destruct (event_queue (network st)); [done|].
    by apply Qlt_bool_false. }
  assert (Hdone : warmup_done st = true).
  { apply (simulate_warmup_done _ _ _ _ _ _ Hsim).
    destruct (simulate_horizon _ _ _ _ _ _ Hsim) as [_ Hclock].
    destruct (last (processed st)) as [e|] eqn:Hlast.
    - apply Exists_exists. exists e. split.
      + apply last_Some in Hlast as [l ->]. apply elem_of_app. right. left.
      + rewrite <- Hclock. lra.
    - rewrite Hclock in Hend. lra. }
  split_and!; try done.
  eapply simulate_report; try done.
  eapply Forall_impl; [exact Hservers|]. intros spec ?. simpl in *. lia.
Qed.

End edges.

(** ** The networks of the examples *)

Ltac rows_ok :=
  repeat (apply Forall_cons_2;
          [unfold distribution; split_and!;
           [done
           |repeat (apply Forall_cons_2; [by vm_compute|]);
            apply Forall_nil_2
           |by vm_compute]|]);
  apply Forall_nil_2.



(** * How a run ends *)

Section ending.
Context {RNG : Type} {source : RandomSource RNG}.
Implicit Types (st : LoopState (RNG := RNG)) (self mid : Network) (g : RNG)
  (e : Event.t) (s : Station.t) (cfg : Config).

Lemma simulate_completions_nonneg cfg simulation_time warmup_time fuel g
    st :
  simulate cfg simulation_time warmup_time fuel g = Ok st →
  (0 ≤ total_completions (network st))%Z.
Proof.
  apply (simulate_inv (fun st => (0 ≤ total_completions (network st))%Z)).
  - intros g0 net g' (Hc & _)%setup_fresh. cbn [network]. lia.
  - intros st0 st' HP _ (e & rest & _ & Hd & _)%loop_body_Ok.
    apply dispatch_detail in Hd
      as (s & s' & started & routed & g1 & _ & _ & _ & _ & _ & _ & -> & _).
    assert (0 ≤ total_completions (handler_state warmup_time st0 e rest))%Z.
    { destruct (handler_state_counters warmup_time st0 e rest)
        as (_ & _ & _ & [(_ & _ & -> & _)|(_ & _ & -> & _)]); lia. }
    unfold leaves. destruct (Event.event_type e); lia.
Qed.

(** A run that has ended has ended on a departure. *)
Lemma simulate_ends_on_departure cfg simulation_time warmup_time fuel g
    st :
  nonnegative_draws →
  Forall (fun spec => (1 ≤ spec.1.1)%Z) (cfg_stations cfg) →
  (0 < cfg_num_jobs cfg)%Z → (0 < simulation_time)%Q →
  simulate cfg simulation_time warmup_time fuel g = Ok st →
  loop_guard simulation_time st = false →
  ∃ e, last (processed st) = Some e
       ∧ Event.event_type e = DEPARTURE
       ∧ (simulation_time <= Event.time e)%Q
       ∧ current_time (network st) = Event.time e
       ∧ (0 < total_completions (network st))%Z.
Proof.
  intros Hnn Hservers Hjobs Hpos. revert st.
  induction fuel as [|fuel IH]; intros st Hsim Hguard.
  - exfalso.
    pose proof (simulate_pending _ _ _ _ _ _ Hservers Hjobs Hsim) as Hne.
    unfold simulate, run in Hsim. bind_inv Hsim. destruct x as [net g'].
    injection Hsim as <-.
    apply setup_facts in Hx as (_ & _ & Hc & _).
    unfold loop_guard in Hguard. cbn [network] in *.
    destruct (event_queue net); [done|].
    apply Qlt_bool_false in Hguard. rewrite Hc in Hguard. lra.
  - pose proof (simulate_pending _ _ _ _ _ _ Hservers Hjobs Hsim) as Hne.
    apply simulate_prefix in Hsim as (st1 & Hst1 & Hcases).
    destruct Hcases as [[Hstop ->]|[Hgo Hbody]]; [by apply IH|].
    pose proof (simulate_jobs_inv _ _ _ _ _ _ Hst1) as Hj.
    apply loop_body_pop in Hbody
      as (e & rest & _ & Hperm & _ & Hd & _ & Hproc); [|done].
    destruct (handler_state_facts warmup_time st1 e rest) as (_ & Hct & _).
    pose proof Hd as (_ & _ & _ & _ & _ & Hct' & _)%dispatch_effect.
    rewrite Hct in Hct'.
    assert (Hend : (simulation_time <= Event.time e)%Q).
    { unfold loop_guard in Hguard.
      destruct (event_queue (network st)); [done|].
      apply Qlt_bool_false in Hguard. by rewrite <- Hct'. }
    assert (Hbefore : (current_time (network st1) < simulation_time)%Q).
    { unfold loop_guard in Hgo.
      destruct (event_queue (network st1)); [done|].
      by apply Qlt_bool_iff. }
    assert (Hty : Event.event_type e = DEPARTURE).
    { destruct (Event.event_type e) eqn:Hty; [|done]. exfalso.
      assert (e ∈ event_queue (network st1)) as He
        by (rewrite Hperm; left).
      pose proof (simulate_arrivals_due _ _ _ _ _ _ Hnn Hst1 e He Hty).
      lra. }
    exists e. rewrite Hproc, last_snoc. split_and!; try done.
    apply dispatch_detail in Hd
      as (s & s' & started & routed & g1 & _ & _ & _ & _ & _ & _ & -> & _).
    assert (0 ≤ total_completions (handler_state warmup_time st1 e rest))%Z.
    { pose proof (simulate_completions_nonneg _ _ _ _ _ _ Hst1).
      destruct (handler_state_counters warmup_time st1 e rest)
        as (_ & _ & _ & [(_ & _ & -> & _)|(_ & _ & -> & _)]); lia. }
    unfold leaves. rewrite Hty. lia.
Qed.



End ending.


Lemma line_well_formed : well_formed line.
Proof.
  split.
  - done.
  - rows_ok.
  - repeat (apply Forall_cons_2; [by vm_compute|]). apply Forall_nil_2.
  - intros _. simpl. lia.
Qed.

(** * Further properties of the engine and of its reports *)

Section more_properties.
Context {RNG : Type} {source : RandomSource RNG}.
Implicit Types (st : LoopState (RNG := RNG)) (self mid : Network) (g : RNG)
  (e : Event.t) (s : Station.t) (cfg : Config).

(** X2: on a well-formed configuration (a square routing matrix whose
    rows are probability vectors, one row per station, non-negative mean
    service times, an initial station that exists) and with a random
    source that behaves as NumPy documents, building the network and
    running it raises no exception, however long the run. *)
Theorem run_raises_nothing valid cfg simulation_time warmup_time fuel g :
  well_behaved valid → well_formed cfg →
  match cfg_seed cfg with
  | Some seed => ∃ g', np_random_seed seed = Ok g'
  | None => valid g
  end →
  ∃ st, simulate cfg simulation_time warmup_time fuel g = Ok st.
Proof.
  intros Hwb Hwf Hseed.
  destruct (simulate_total valid cfg simulation_time warmup_time fuel g
              Hwb Hwf Hseed) as (st & Hsim & _).
  by exists st.
Qed.

(** X3: in every state reached by a run, the number of busy servers of
    a station is the number of departures pending for that station; in
    particular it is never negative. *)
Theorem busy_servers_are_pending_departures cfg simulation_time
    warmup_time fuel g st i s :
  simulate cfg simulation_time warmup_time fuel g = Ok st →
  stations (network st) !! i = Some s →
  Station.servers_busy s
  = Z.of_nat (pending_departures i (event_queue (network st)))
  ∧ (0 ≤ Station.servers_busy s)%Z.
Proof.
  intros Hsim Hs.
  pose proof (simulate_busy_inv _ _ _ _ _ _ Hsim i s Hs) as Hb.
  split; [done|]. rewrite Hb. lia.
Qed.

(** X4: when there is at least one job and every station has at least
    one server, the event queue is never empty in a run; the loop can
    only stop because the clock has reached the horizon. *)
Theorem run_stops_only_at_horizon cfg simulation_time warmup_time fuel g
    st :
  Forall (fun spec => (1 ≤ spec.1.1)%Z) (cfg_stations cfg) →
  (0 < cfg_num_jobs cfg)%Z →
  simulate cfg simulation_time warmup_time fuel g = Ok st →
  event_queue (network st) ≠ []
  ∧ (loop_guard simulation_time st = false →
     (simulation_time <= current_time (network st))%Q).
Proof.
  intros Hservers Hjobs Hsim.
  pose proof (simulate_pending _ _ _ _ _ _ Hservers Hjobs Hsim) as Hne.
  split; [done|]. unfold loop_guard.
  destruct (event_queue (network st)); [done|]. apply Qlt_bool_false.
Qed.

(** X5: in every state reached by a run, the completions counted by the
    network are the departures counted by its stations. *)
Theorem completions_are_departures cfg simulation_time warmup_time fuel g
    st :
  simulate cfg simulation_time warmup_time fuel g = Ok st →
  total_completions (network st)
  = sumZ Station.total_departures (stations (network st)).
Proof. apply simulate_completions. Qed.

(** X6: as long as the statistics have not been reset, and for the whole
    run when the warmup time is not positive (the reset then happens at
    the first event, with every station empty), the arrivals of a station
    minus its departures are the jobs it holds. *)
Theorem flow_balance cfg simulation_time warmup_time fuel g st s :
  simulate cfg simulation_time warmup_time fuel g = Ok st →
  warmup_done st = false ∨ (warmup_time <= 0)%Q →
  s ∈ stations (network st) →
  (Station.total_arrivals s - Station.total_departures s)%Z
  = (Station.servers_busy s + Z.of_nat (length (Station.queue s)))%Z.
Proof.
  intros Hsim Hcase Hs.
  assert (Forall balanced (stations (network st))) as Hall.
  { destruct Hcase as [Hnd|Hw].
    - by eapply simulate_balanced_before.
    - by eapply simulate_balanced_early. }
  rewrite Forall_forall in Hall. apply (Hall s Hs).
Qed.

(** X7: in every state reached by a run the table of the jobs holds
    exactly the identifiers [0 .. num_jobs - 1]; no job ever gets a
    completion time, so that every cycle time is zero; and the counters
    [warmup_completions] and [total_queue_time] stay at zero. *)
Theorem jobs_never_complete cfg simulation_time warmup_time fuel g st :
  simulate cfg simulation_time warmup_time fuel g = Ok st →
  (∀ j, is_Some (jobs (network st) !! j) ↔ (0 ≤ j < cfg_num_jobs cfg)%Z)
  ∧ (∀ j job, jobs (network st) !! j = Some job →
       Job.job_id job = j ∧ Job.arrival_time job = 0%Q
       ∧ Job.completion_time job = 0%Q ∧ Job.cycle_time job = 0%Q)
  ∧ warmup_completions (network st) = 0%Z
  ∧ (∀ s, s ∈ stations (network st) → Station.total_queue_time s = 0%Q).
Proof.
  intros (Hdom & Hjobs & Hw & Hqt)%simulate_jobs_table.
  split_and!; try done.
  - intros j job Hjob. destruct (Hjobs j job Hjob) as (Hid & Ha & Hc).
    split_and!; try done. unfold Job.cycle_time. by rewrite Hc.
  - by apply Forall_forall.
Qed.

(** X8: when no service time is negative, the visits recorded for a job
    are in chronological order: every visit ends no earlier than it
    starts, and a later visit starts no earlier than the earlier visits
    end. *)
Theorem histories_chronological cfg simulation_time warmup_time fuel g st
    j job :
  nonnegative_draws →
  simulate cfg simulation_time warmup_time fuel g = Ok st →
  jobs (network st) !! j = Some job →
  chronological (Job.station_visits job).
Proof.
  intros Hnn Hsim Hjob.
  by destruct (simulate_history_inv _ _ _ _ _ _ Hnn Hsim j job Hjob).
Qed.

(** X13: when no service time is negative, the average queue length of
    a station is never negative in a run, and neither is its utilization
    when the station has no negative server count. *)
Theorem statistics_nonnegative cfg simulation_time warmup_time fuel g st
    s :
  nonnegative_draws →
  simulate cfg simulation_time warmup_time fuel g = Ok st →
  s ∈ stations (network st) →
  (0 <= Station.avg_queue_length s)%Q
  ∧ ∀ u, (0 ≤ Station.num_servers s)%Z →
         Station.utilization s = Some u → (0 <= u)%Q.
Proof.
  intros Hnn Hsim Hs.
  pose proof (simulate_nonneg _ _ _ _ _ _ Hnn Hsim) as [_ Hall].
  rewrite Forall_forall in Hall. destruct (Hall s Hs) as (Hts & Hql & Hl).
  split.
  - unfold Station.avg_queue_length.
    destruct (Qeq_bool (Station.last_update_time s) 0) eqn:Hz; [done|].
    apply Qeq_bool_neq in Hz. apply Qle_shift_div_l; lra.
  - intros u Hn. unfold Station.utilization.
    destruct (Qeq_bool (Station.total_service_time s) 0); [by intros [= <-]|].
    cbn zeta.
    destruct (Qeq_bool (inject_Z (Station.num_servers s)
                        * Station.last_update_time s) 0) eqn:Hz; [done|].
    apply Qeq_bool_neq in Hz. intros [= <-].
    assert (0 <= inject_Z (Station.num_servers s)
                 * Station.last_update_time s)%Q as Hden.
    { apply Qmult_le_0_compat; [|done].
      change 0%Q with (inject_Z 0). by rewrite <- Zle_Qle. }
    apply Qle_shift_div_l; lra.
Qed.

(** X14: every event a run processes before the last one is strictly
    before the horizon, and the clock is the time of the last processed
    event: the loop handles at most one event at or beyond
    [simulation_time], and ends on it. *)
Theorem horizon_overshoot cfg simulation_time warmup_time fuel g st :
  simulate cfg simulation_time warmup_time fuel g = Ok st →
  (∀ i e, processed st !! i = Some e → S i < length (processed st) →
          (Event.time e < simulation_time)%Q)
  ∧ current_time (network st)
    = match last (processed st) with
      | Some e => Event.time e
      | None => 0%Q
      end.
Proof. apply simulate_horizon. Qed.

(** X15: when no service time is negative, every pending arrival of a
    run is due at the current clock value: a job spends no time between
    two stations. *)
Theorem arrivals_due_now cfg simulation_time warmup_time fuel g st x :
  nonnegative_draws →
  simulate cfg simulation_time warmup_time fuel g = Ok st →
  x ∈ event_queue (network st) → Event.event_type x = ARRIVAL →
  (Event.time x == current_time (network st))%Q.
Proof. intros Hnn Hsim. by eapply simulate_arrivals_due. Qed.


(** X17: when every mean service time is zero (and the random source
    then draws zero), with at least one job, one server per station and
    a positive horizon, the clock never leaves zero: after any number of
    iterations the loop has processed that many events and its guard
    still holds, so the run does not end. *)
Theorem zero_service_times_never_end cfg simulation_time warmup_time fuel
    g st :
  (∀ scale g d g', (scale == 0)%Q →
     np_random_exponential scale g = Ok (d, g') → (d == 0)%Q) →
  Forall (fun spec => (spec.1.2 == 0)%Q ∧ (1 ≤ spec.1.1)%Z)
    (cfg_stations cfg) →
  (0 < cfg_num_jobs cfg)%Z → (0 < simulation_time)%Q →
  simulate cfg simulation_time warmup_time fuel g = Ok st →
  (current_time (network st) == 0)%Q
  ∧ loop_guard simulation_time st = true
  ∧ length (processed st) = fuel.
Proof.
  intros Hzero Hspecs Hjobs Hsim.
  assert (Hmeans : Forall (fun spec => (spec.1.2 == 0)%Q)
                     (cfg_stations cfg)).
  { eapply Forall_impl; [exact Hspecs|]. by intros spec [? _]. }
  assert (Hservers : Forall (fun spec => (1 ≤ spec.1.1)%Z)
                       (cfg_stations cfg)).
  { eapply Forall_impl; [exact Hspecs|]. by intros spec [_ ?]. }
  assert (Hgo : ∀ fuel st,
            simulate cfg simulation_time warmup_time fuel g = Ok st →
            (current_time (network st) == 0)%Q
            ∧ loop_guard simulation_time st = true).
  { intros fuel0 st0 Hrun.
    destruct (simulate_frozen _ _ _ _ _ _ Hzero Hmeans Hrun) as [Hc _].
    split; [done|].
    pose proof (simulate_pending _ _ _ _ _ _ Hservers Hjobs Hrun) as Hne.
    unfold loop_guard. destruct (event_queue (network st0)); [done|].
    apply Qlt_bool_iff. lra. }
  intros Hrun. destruct (Hgo _ _ Hrun) as [Hc Hg].
  split_and!; try done. clear Hc Hg.
  revert st Hrun. induction fuel as [|fuel IH]; intros st Hrun.
  - unfold simulate, run in Hrun. bind_inv Hrun. destruct x as [net g'].
    by injection Hrun as <-.
  - apply simulate_prefix in Hrun as (st1 & Hst1 & Hcases).
    destruct (Hgo _ _ Hst1) as [_ Hg1].
    destruct Hcases as [[Hstop _]|[_ Hbody]]; [congruence|].
    apply loop_body_Ok in Hbody as (e & rest & _ & _ & _ & ->).
    rewrite length_app, (IH _ Hst1). simpl. lia.
Qed.

(** X19: in every state reached by a run each job is at exactly one
    place: the identifiers carried by the pending events, together with
    the identifiers waiting in the queues of the stations, are the
    identifiers [0 .. num_jobs - 1], each once. *)
Theorem each_job_in_one_place cfg simulation_time warmup_time fuel g st :
  simulate cfg simulation_time warmup_time fuel g = Ok st →
  (Event.job_id <$> event_queue (network st))
  ++ queued_jobs (stations (network st))
  ≡ₚ seqZ 0 (cfg_num_jobs cfg)
  ∧ NoDup ((Event.job_id <$> event_queue (network st))
           ++ queued_jobs (stations (network st))).
Proof.
  intros Hsim.
  pose proof (simulate_jobs_inv _ _ _ _ _ _ Hsim) as Hinv.
  pose proof (simulate_num_jobs _ _ _ _ _ _ Hsim) as Hn.
  pose proof (ji_tracked _ Hinv) as Htr. unfold tracked_jobs in Htr.
  rewrite Hn in Htr. split; [done|]. rewrite Htr. apply NoDup_seqZ.
Qed.

(** X21: [initialize_jobs] accepts a station that does not exist; with
    at least one job and a positive horizon the run then raises
    [IndexError] on its first event. *)
Theorem missing_station_raises cfg simulation_time warmup_time fuel g :
  match cfg_seed cfg with
  | Some seed => ∃ g', np_random_seed seed = Ok g'
  | None => True
  end →
  (0 < cfg_num_jobs cfg)%Z →
  length (cfg_stations cfg) ≤ cfg_initial_station cfg →
  (0 < simulation_time)%Q →
  simulate cfg simulation_time warmup_time (S fuel) g = Raise IndexError.
Proof.
  intros Hseed. apply simulate_missing_station.
  unfold setup, construct, init. destruct (cfg_seed cfg) as [seed|].
  - destruct Hseed as [g' ->]. cbn [mbind result_bind]. by eexists.
  - cbn [mbind result_bind]. by eexists.
Qed.

End more_properties.

(** X18: [initialize_jobs] files a fresh job under each identifier
    [0 .. num_jobs - 1] (replacing a job already filed there, keeping the
    others) and adds to the event queue one arrival at time zero at the
    initial station for each of them; it keeps the heap order of the
    queue and changes neither the stations, nor the jobs in transit, nor
    the clock.  With a population that is not positive it does
    nothing. *)
Theorem initialize_jobs_spec initial_station self :
  let self' := initialize_jobs initial_station self in
  (∀ j, jobs self' !! j
        = if decide (0 ≤ j < num_jobs self)%Z
          then Some (Job.mk j 0 0 []) else jobs self !! j)
  ∧ event_queue self'
    ≡ₚ ((fun j => Event.mk 0 ARRIVAL j initial_station)
          <$> seqZ 0 (num_jobs self)) ++ event_queue self
  ∧ (heap_ok (event_queue self) → heap_ok (event_queue self'))
  ∧ stations self' = stations self
  ∧ jobs_in_transit self' = jobs_in_transit self
  ∧ current_time self' = current_time self
  ∧ ((num_jobs self ≤ 0)%Z → self' = self).
Proof.
  cbn zeta.
  destruct (initialize_jobs_facts initial_station self)
    as (Hs & Ht & Hc & _ & Hq & Hh).
  split_and!; try done.
  - intros j. apply initialize_jobs_jobs.
  - intros Hn. unfold initialize_jobs, seqZ.
    by replace (Z.to_nat (num_jobs self)) with 0 by lia.
Qed.

(** * Properties of the reports *)

(** X9: when [print_statistics] reports a throughput and an average
    cycle time, at least one completion was counted, the throughput is
    the completions per unit of clock time, and the product of the two
    figures is the population: the cycle time is the one Little's law
    gives, not a measurement of the jobs. *)
Theorem report_is_littles_law self r :
  print_statistics self = Some r →
  match throughput r, avg_cycle_time r with
  | Some th, Some ct =>
      (0 < total_completions self)%Z
      ∧ th = (inject_Z (total_completions self) / current_time self)%Q
      ∧ (th * ct == inject_Z (num_jobs self))%Q
  | None, None => (total_completions self ≤ 0)%Z
  | _, _ => False
  end.
Proof.
  unfold print_statistics.
  destruct (bool_decide (0 < total_completions self)%Z) eqn:Hc.
  - apply bool_decide_eq_true in Hc.
    destruct (truediv _ (current_time self)) as [th|] eqn:Hth; [|done].
    cbn [mbind option_bind].
    destruct (truediv _ (inject_Z (num_jobs self))) as [pj|] eqn:Hpj;
      [|done].
    cbn [mbind option_bind].
    destruct (truediv (current_time self) pj) as [ct|] eqn:Hct; [|done].
    cbn [mbind option_bind].
    destruct (bottleneck_loop _ _ _) as [[u b]|]; [|done].
    cbn [mbind option_bind]. intros [= <-]. cbn.
    apply truediv_Some in Hth as [HT ->], Hpj as [HN ->], Hct as [Hr ->].
    split_and!; try done.
    assert (¬ (inject_Z (total_completions self) == 0)%Q) as HC.
    { change 0%Q with (inject_Z 0). rewrite inject_Z_injective. lia. }
    field. split_and!; done.
  - apply bool_decide_eq_false in Hc. cbn [mbind option_bind].
    destruct (bottleneck_loop _ _ _) as [[u b]|]; [|done].
    cbn [mbind option_bind]. intros [= <-]. cbn. lia.
Qed.

(** X10: the bottleneck [print_statistics] reports is the first station
    whose utilization is the largest, and that utilization is positive;
    it reports none exactly when no station has a positive
    utilization. *)
Theorem report_bottleneck self r :
  print_statistics self = Some r →
  match bottleneck_station r with
  | Some b =>
      ∃ i, stations self !! i = Some b
           ∧ Station.utilization b = Some (bottleneck_util r)
           ∧ (0 < bottleneck_util r)%Q
           ∧ (∀ s, s ∈ stations self →
                   ∃ u, Station.utilization s = Some u
                        ∧ (u <= bottleneck_util r)%Q)
           ∧ ∀ j s, j < i → stations self !! j = Some s →
                    ∃ u, Station.utilization s = Some u
                         ∧ (u < bottleneck_util r)%Q
  | None =>
      bottleneck_util r = 0%Q
      ∧ ∀ s, s ∈ stations self →
             ∃ u, Station.utilization s = Some u ∧ (u <= 0)%Q
  end.
Proof.
  unfold print_statistics.
  destruct (if bool_decide (0 < total_completions self)%Z then _ else _)
    as [[th ct]|]; [|done].
  cbn [mbind option_bind].
  destruct (bottleneck_loop _ _ _) as [[u b]|] eqn:Hloop; [|done].
  cbn [mbind option_bind]. intros [= <-]. cbn.
  apply bottleneck_loop_Some in Hloop as (_ & Hall & Hb).
  rewrite Forall_forall in Hall.
  destruct Hb as [[-> ->]|(i & s & Hi & -> & Hu & Hpos & Hfirst)]; [done|].
  exists i. split_and!; done.
Qed.

(** X11: [print_statistics] raises an exception exactly when a
    completion was counted while the clock or the population is zero, or
    when the utilization of some station is a division by zero. *)
Theorem print_statistics_fails_iff self :
  print_statistics self = None
  ↔ ((0 < total_completions self)%Z
     ∧ ((current_time self == 0)%Q ∨ num_jobs self = 0%Z))
    ∨ ∃ s, s ∈ stations self ∧ Station.utilization s = None.
Proof. rewrite print_statistics_None. by rewrite Exists_exists. Qed.

(** X12: the figures [analyze_wip_impact] derives from a network agree
    with the report of [print_statistics]: whenever the former are
    defined so is the latter, with the same throughput and cycle time
    when a completion was counted, and the bottleneck that
    [max(..., key=utilization)] selects is the one the report names,
    whenever the report names one. *)
Theorem wip_metrics_agree network m :
  wip_metrics (num_jobs network) network = Some m →
  ∃ r b,
    print_statistics network = Some r
    ∧ max_by Station.utilization (stations network) = Some b
    ∧ Station.utilization b = Some (wr_bottleneck_util m)
    ∧ wr_bottleneck_queue m = Station.avg_queue_length b
    ∧ ((0 < total_completions network)%Z →
       throughput r = Some (wr_throughput m)
       ∧ avg_cycle_time r = Some (wr_cycle_time m))
    ∧ ((total_completions network ≤ 0)%Z →
       throughput r = None ∧ wr_cycle_time m = 0%Q)
    ∧ (∀ b', bottleneck_station r = Some b' → b' = b)
    ∧ (bottleneck_station r = None → (wr_bottleneck_util m <= 0)%Q).
Proof.
  unfold wip_metrics, print_statistics.
  destruct (truediv _ (current_time network)) as [th|] eqn:Hth; [|done].
  cbn [mbind option_bind].
  destruct (max_by Station.utilization (stations network)) as [b|] eqn:Hmax.
  2: { by destruct (if bool_decide _ then _ else _). }
  pose proof (max_by_Some _ _ _ Hmax) as [Hall Hb].
  destruct (bottleneck_loop_is_Some (stations network) 0%Q None Hall)
    as [[u ob] Hloop].
  rewrite Hloop.
  assert (Hagree : ∀ b', ob = Some b' → b' = b).
  { intros b' ->. apply max_by_bottleneck in Hloop. congruence. }
  assert (Hnone : ∀ v, ob = None → Station.utilization b = Some v →
                       (v <= 0)%Q).
  { intros v -> Hv.
    apply bottleneck_loop_Some in Hloop as (_ & Hle & [[-> _]|Hsome]).
    - rewrite Forall_forall in Hle.
      destruct (Hle b Hb) as (v' & Hv' & Hle'). congruence.
    - by destruct Hsome as (? & ? & _ & ? & _). }
  destruct (bool_decide (0 < total_completions network)%Z) eqn:Hc.
  - apply bool_decide_eq_true in Hc.
    destruct (truediv _ (inject_Z (num_jobs network))) as [pj|]; [|done].
    cbn [mbind option_bind].
    destruct (truediv (current_time network) pj) as [ct|]; [|done].
    cbn [mbind option_bind].
    destruct (Station.utilization b) as [ub|] eqn:Hub; [|done].
    cbn [mbind option_bind]. intros [= <-]. cbn.
    eexists _, b. split; [done|]. cbn. split_and!; try done; try lia.
    intros Hob. by eapply Hnone.
  - apply bool_decide_eq_false in Hc. cbn [mbind option_bind].
    destruct (Station.utilization b) as [ub|] eqn:Hub; [|done].
    cbn [mbind option_bind]. intros [= <-]. cbn.
    eexists _, b. split; [done|]. cbn. split_and!; try done; try lia.
    intros Hob. by eapply Hnone.
Qed.

Section report_after_run.
Context {RNG : Type} {source : RandomSource RNG}.

(** X20: after a run whose statistics were reset at a positive warmup
    time, on stations whose server count is not zero and with no
    negative service time, [print_statistics] raises no exception. *)
Theorem report_after_warmup cfg simulation_time warmup_time fuel g
    (st : LoopState (RNG := RNG)) :
  nonnegative_draws →
  Forall (fun spec => spec.1.1 ≠ 0%Z) (cfg_stations cfg) →
  (0 < warmup_time)%Q →
  simulate cfg simulation_time warmup_time fuel g = Ok st →
  warmup_done st = true →
  ∃ r, print_statistics (network st) = Some r.
Proof. apply simulate_report. Qed.

(** X22: the drivers of the repository build a network, run it and
    print the report.  On a well-formed configuration with at least one
    job, at least one server per station and a positive warmup time not
    beyond the horizon, with a random source that behaves as NumPy
    documents and draws no negative service time, the run raises no
    exception, and when its loop has ended the report raises none
    either. *)
Theorem run_then_report valid cfg simulation_time warmup_time fuel
    (g : RNG) :
  well_behaved valid → nonnegative_draws → well_formed cfg →
  Forall (fun spec => (1 ≤ spec.1.1)%Z) (cfg_stations cfg) →
  (0 < cfg_num_jobs cfg)%Z →
  (0 < warmup_time)%Q → (warmup_time <= simulation_time)%Q →
  match cfg_seed cfg with
  | Some seed => ∃ g', np_random_seed seed = Ok g'
  | None => valid g
  end →
  ∃ st,
    simulate cfg simulation_time warmup_time fuel g = Ok st
    ∧ (loop_guard simulation_time st = false →
       (simulation_time <= current_time (network st))%Q
       ∧ warmup_done st = true
       ∧ ∃ r, print_statistics (network st) = Some r).
Proof. apply simulate_then_report. Qed.


End report_after_run.

Section endings.
Context {RNG : Type} {source : RandomSource RNG}.

(** X24: with at least one job, at least one server per station, a
    positive horizon and no negative service time, a run whose loop has
    ended has ended on a departure at or beyond the horizon: the last
    processed event is a departure, the clock is its time, and at least
    one completion is counted. *)
Theorem run_ends_on_a_departure cfg simulation_time warmup_time fuel g
    (st : LoopState (RNG := RNG)) :
  nonnegative_draws →
  Forall (fun spec => (1 ≤ spec.1.1)%Z) (cfg_stations cfg) →
  (0 < cfg_num_jobs cfg)%Z → (0 < simulation_time)%Q →
  simulate cfg simulation_time warmup_time fuel g = Ok st →
  loop_guard simulation_time st = false →
  ∃ e, last (processed st) = Some e
       ∧ Event.event_type e = DEPARTURE
       ∧ (simulation_time <= Event.time e)%Q
       ∧ current_time (network st) = Event.time e
       ∧ (0 < total_completions (network st))%Z.
Proof. apply simulate_ends_on_departure. Qed.


End endings.

(** * The scripted source behaves *)

Lemma searchsorted_right_lt p acc u i :
  (acc <= u)%Q → (u < acc + Qsum p)%Q →
  searchsorted_right p acc u i < i + length p.
Proof.
  revert acc i. induction p as [|x p IH]; intros acc i Hle Hlt.
  - unfold Qsum in Hlt. simpl in Hlt. lra.
  - cbn [searchsorted_right length].
    destruct (Qlt_bool u (acc + x)) eqn:Hx; [lia|].
    apply Qlt_bool_false in Hx.
    specialize (IH (acc + x)%Q (S i) Hx).
    unfold Qsum in *. simpl in Hlt.
    assert (searchsorted_right p (acc + x) u (S i) < S i + length p);
      [|lia].
    apply IH. lra.
Qed.

Lemma steady_well_behaved :
  well_behaved (source := scripted steady) (fun g => g = []).
Proof.
  split.
  - intros seed g. cbn. destruct (decide _); [|done]. by intros [= <-].
  - intros scale g -> Hs. cbn.
    replace (Qlt_bool scale 0) with false
      by (symmetry; by apply Qlt_bool_false).
    by eexists _, _.
  - intros n p g -> Hn (Hlen & Hpos & Hsum). cbn.
    rewrite bool_decide_eq_false_2 by lia.
    rewrite bool_decide_eq_false_2 by (intros ?; lia).
    rewrite bool_decide_eq_false_2.
    2: { intros (x & Hx & Hneg)%Exists_exists.
         apply Qlt_bool_iff in Hneg. rewrite Forall_forall in Hpos.
         specialize (Hpos x Hx). lra. }
    replace (Qeq_bool (Qsum p) 1) with true
      by (symmetry; by apply Qeq_bool_iff).
    cbn. eexists _, _. split; [done|]. split; [|done].
    rewrite <- Hlen. apply (searchsorted_right_lt p 0 (1 # 2) 0); lra.
Qed.

Lemma scripted_zero_scale script scale (g : list Q) d g' :
  (scale == 0)%Q →
  np_random_exponential (RandomSource := scripted script) scale g
  = Ok (d, g') →
  (d == 0)%Q.
Proof.
  intros Hs. cbn. destruct (next_variate g) as [v g1].
  destruct (Qlt_bool scale 0 || Qlt_bool v 0); [done|].
  intros [= <- _]. rewrite Hs. ring.
Qed.

(** * The further properties at work on the small networks *)

Lemma run_raises_nothing_witness :
  ∃ st, simulate (source := scripted steady) line 4 1 50 [] = Ok st.
Proof.
  apply (run_raises_nothing (source := scripted steady) (fun g => g = [])
           line 4 1 50 []).
  - apply steady_well_behaved.
  - apply line_well_formed.
  - eexists. by vm_compute.
Defined.

Lemma busy_servers_are_pending_departures_witness :
  ∃ st s,
    simulate (source := scripted steady) line 4 1 6 [] = Ok st
    ∧ stations (network st) !! 0 = Some s
    ∧ Station.servers_busy s
      = Z.of_nat (pending_departures 0 (event_queue (network st)))
    ∧ (0 ≤ Station.servers_busy s)%Z.
Proof.
  eexists _, _. split; [by vm_compute|]. split; [by vm_compute|].
  apply (busy_servers_are_pending_departures (source := scripted steady)
           line 4 1 6 []); by vm_compute.
Defined.

Lemma run_stops_only_at_horizon_witness :
  ∃ st,
    simulate (source := scripted steady) line 4 1 100 [] = Ok st
    ∧ event_queue (network st) ≠ []
    ∧ (loop_guard 4 st = false → (4 <= current_time (network st))%Q).
Proof.
  eexists. split; [by vm_compute|].
  apply (run_stops_only_at_horizon (source := scripted steady)
           line 4 1 100 []).
  - repeat (apply Forall_cons_2; [by vm_compute|]). apply Forall_nil_2.
  - done.
  - by vm_compute.
Defined.

Lemma completions_are_departures_witness :
  ∃ st,
    simulate (source := scripted steady) line 4 1 100 [] = Ok st
    ∧ total_completions (network st)
      = sumZ Station.total_departures (stations (network st)).
Proof.
  eexists. split; [by vm_compute|].
  apply (completions_are_departures (source := scripted steady)
           line 4 1 100 []). by vm_compute.
Defined.

Lemma flow_balance_witness :
  ∃ st s,
    simulate (source := scripted steady) line 4 0 100 [] = Ok st
    ∧ s ∈ stations (network st)
    ∧ (Station.total_arrivals s - Station.total_departures s)%Z
      = (Station.servers_busy s + Z.of_nat (length (Station.queue s)))%Z.
Proof.
  eexists _, _. split; [by vm_compute|]. split; [left|].
  eapply (flow_balance (source := scripted steady) line 4 0 100 []).
  - by vm_compute.
  - right. apply Qle_refl.
  - left.
Defined.

Lemma jobs_never_complete_witness :
  ∃ st,
    simulate (source := scripted steady) line 4 1 100 [] = Ok st
    ∧ (∀ j, is_Some (jobs (network st) !! j) ↔ (0 ≤ j < 3)%Z)
    ∧ (∀ j job, jobs (network st) !! j = Some job →
         Job.job_id job = j ∧ Job.arrival_time job = 0%Q
         ∧ Job.completion_time job = 0%Q ∧ Job.cycle_time job = 0%Q)
    ∧ warmup_completions (network st) = 0%Z
    ∧ (∀ s, s ∈ stations (network st) →
            Station.total_queue_time s = 0%Q).
Proof.
  eexists. split; [by vm_compute|].
  apply (jobs_never_complete (source := scripted steady) line 4 1 100 []).
  by vm_compute.
Defined.

Lemma histories_chronological_witness :
  ∃ st job,
    simulate (source := scripted steady) line 4 1 100 [] = Ok st
    ∧ jobs (network st) !! 0%Z = Some job
    ∧ chronological (Job.station_visits job).
Proof.
  eexists _, _. split; [by vm_compute|]. split; [by vm_compute|].
  eapply (histories_chronological (source := scripted steady)
            line 4 1 100 []) with (j := 0%Z).
  - apply scripted_nonnegative.
  - by vm_compute.
  - by vm_compute.
Defined.

Lemma statistics_nonnegative_witness :
  ∃ st s,
    simulate (source := scripted steady) line 4 1 100 [] = Ok st
    ∧ s ∈ stations (network st)
    ∧ (0 <= Station.avg_queue_length s)%Q
    ∧ ∀ u, (0 ≤ Station.num_servers s)%Z →
           Station.utilization s = Some u → (0 <= u)%Q.
Proof.
  eexists _, _. split; [by vm_compute|]. split; [left|].
  eapply (statistics_nonnegative (source := scripted steady)
           line 4 1 100 []).
  - apply scripted_nonnegative.
  - by vm_compute.
  - left.
Defined.

Lemma horizon_overshoot_witness :
  ∃ st,
    simulate (source := scripted demo_script) two_jobs 2 0 100 [] = Ok st
    ∧ (∀ i e, processed st !! i = Some e → S i < length (processed st) →
              (Event.time e < 2)%Q)
    ∧ current_time (network st)
      = match last (processed st) with
        | Some e => Event.time e
        | None => 0%Q
        end.
Proof.
  eexists. split; [by vm_compute|].
  apply (horizon_overshoot (source := scripted demo_script)
           two_jobs 2 0 100 []). by vm_compute.
Defined.

Lemma arrivals_due_now_witness :
  ∃ st x rest,
    simulate (source := scripted demo_script) two_jobs 2 0 3 [] = Ok st
    ∧ event_queue (network st) = x :: rest
    ∧ Event.event_type x = ARRIVAL
    ∧ (Event.time x == current_time (network st))%Q.
Proof.
  eexists _, _, _. split; [by vm_compute|]. split; [by vm_compute|].
  split; [by vm_compute|].
  eapply (arrivals_due_now (source := scripted demo_script)
           two_jobs 2 0 3 []).
  - apply scripted_nonnegative.
  - by vm_compute.
  - left.
  - by vm_compute.
Defined.


Lemma zero_service_times_never_end_witness :
  ∃ st,
    simulate (source := scripted steady) frozen 1 0 30 [] = Ok st
    ∧ (current_time (network st) == 0)%Q
    ∧ loop_guard 1 st = true
    ∧ length (processed st) = 30.
Proof.
  eexists. split; [by vm_compute|].
  apply (zero_service_times_never_end (source := scripted steady)
           frozen 1 0 30 []).
  - apply scripted_zero_scale.
  - apply Forall_cons_2; [by vm_compute|apply Forall_nil_2].
  - done.
  - by vm_compute.
  - by vm_compute.
Defined.

Lemma each_job_in_one_place_witness :
  ∃ st,
    simulate (source := scripted steady) line 4 1 7 [] = Ok st
    ∧ (Event.job_id <$> event_queue (network st))
      ++ queued_jobs (stations (network st))
      ≡ₚ seqZ 0 3
    ∧ NoDup ((Event.job_id <$> event_queue (network st))
             ++ queued_jobs (stations (network st))).
Proof.
  eexists. split; [by vm_compute|].
  apply (each_job_in_one_place (source := scripted steady) line 4 1 7 []).
  by vm_compute.
Defined.

Lemma missing_station_raises_witness :
  simulate (source := scripted steady) lost 1 0 1 [] = Raise IndexError.
Proof.
  apply (missing_station_raises (source := scripted steady) lost 1 0 0 []).
  - done.
  - done.
  - simpl. lia.
  - by vm_compute.
Defined.

Lemma report_is_littles_law_witness :
  ∃ st r,
    simulate (source := scripted steady) line 4 1 100 [] = Ok st
    ∧ print_statistics (network st) = Some r
    ∧ match throughput r, avg_cycle_time r with
      | Some th, Some ct =>
          (0 < total_completions (network st))%Z
          ∧ th = (inject_Z (total_completions (network st))
                  / current_time (network st))%Q
          ∧ (th * ct == inject_Z (num_jobs (network st)))%Q
      | None, None => (total_completions (network st) ≤ 0)%Z
      | _, _ => False
      end.
Proof.
  eexists _, _. split; [by vm_compute|]. split; [by vm_compute|].
  apply report_is_littles_law. by vm_compute.
Defined.

Lemma report_bottleneck_witness :
  ∃ st r,
    simulate (source := scripted steady) line 4 1 100 [] = Ok st
    ∧ print_statistics (network st) = Some r
    ∧ match bottleneck_station r with
      | Some b =>
          ∃ i, stations (network st) !! i = Some b
               ∧ Station.utilization b = Some (bottleneck_util r)
               ∧ (0 < bottleneck_util r)%Q
               ∧ (∀ s, s ∈ stations (network st) →
                       ∃ u, Station.utilization s = Some u
                            ∧ (u <= bottleneck_util r)%Q)
               ∧ ∀ j s, j < i → stations (network st) !! j = Some s →
                        ∃ u, Station.utilization s = Some u
                             ∧ (u < bottleneck_util r)%Q
      | None =>
          bottleneck_util r = 0%Q
          ∧ ∀ s, s ∈ stations (network st) →
                 ∃ u, Station.utilization s = Some u ∧ (u <= 0)%Q
      end.
Proof.
  eexists _, _. split; [by vm_compute|]. split; [by vm_compute|].
  apply report_bottleneck. by vm_compute.
Defined.

Lemma wip_metrics_agree_witness :
  ∃ st m,
    simulate (source := scripted steady) line 4 1 100 [] = Ok st
    ∧ wip_metrics (num_jobs (network st)) (network st) = Some m
    ∧ ∃ r b,
        print_statistics (network st) = Some r
        ∧ max_by Station.utilization (stations (network st)) = Some b
        ∧ Station.utilization b = Some (wr_bottleneck_util m)
        ∧ wr_bottleneck_queue m = Station.avg_queue_length b
        ∧ ((0 < total_completions (network st))%Z →
           throughput r = Some (wr_throughput m)
           ∧ avg_cycle_time r = Some (wr_cycle_time m))
        ∧ ((total_completions (network st) ≤ 0)%Z →
           throughput r = None ∧ wr_cycle_time m = 0%Q)
        ∧ (∀ b', bottleneck_station r = Some b' → b' = b)
        ∧ (bottleneck_station r = None → (wr_bottleneck_util m <= 0)%Q).
Proof.
  eexists _, _. split; [by vm_compute|]. split; [by vm_compute|].
  apply wip_metrics_agree. by vm_compute.
Defined.

Lemma report_after_warmup_witness :
  ∃ st,
    simulate (source := scripted steady) line 4 1 100 [] = Ok st
    ∧ warmup_done st = true
    ∧ ∃ r, print_statistics (network st) = Some r.
Proof.
  eexists. split; [by vm_compute|]. split; [by vm_compute|].
  apply (report_after_warmup (source := scripted steady) line 4 1 100 []).
  - apply scripted_nonnegative.
  - repeat (apply Forall_cons_2; [by vm_compute|]). apply Forall_nil_2.
  - by vm_compute.
  - by vm_compute.
  - by vm_compute.
Defined.

Lemma run_then_report_witness :
  ∃ st,
    simulate (source := scripted steady) line 4 1 100 [] = Ok st
    ∧ (loop_guard 4 st = false →
       (4 <= current_time (network st))%Q
       ∧ warmup_done st = true
       ∧ ∃ r, print_statistics (network st) = Some r).
Proof.
  apply (run_then_report (source := scripted steady) (fun g => g = [])
           line 4 1 100 []).
  - apply steady_well_behaved.
  - apply scripted_nonnegative.
  - apply line_well_formed.
  - repeat (apply Forall_cons_2; [by vm_compute|]). apply Forall_nil_2.
  - done.
  - by vm_compute.
  - by vm_compute.
  - eexists. by vm_compute.
Defined.


Lemma run_ends_on_a_departure_witness :
  ∃ st,
    simulate (source := scripted steady) line 4 1 100 [] = Ok st
    ∧ loop_guard 4 st = false
    ∧ ∃ e, last (processed st) = Some e
           ∧ Event.event_type e = DEPARTURE
           ∧ (4 <= Event.time e)%Q
           ∧ current_time (network st) = Event.time e
           ∧ (0 < total_completions (network st))%Z.
Proof.
  eexists. split; [by vm_compute|]. split; [by vm_compute|].
  apply (run_ends_on_a_departure (source := scripted steady) line 4 1 100 []).
  - apply scripted_nonnegative.
  - repeat (apply Forall_cons_2; [by vm_compute|]). apply Forall_nil_2.
  - by vm_compute.
  - by vm_compute.
  - by vm_compute.
  - by vm_compute.
Defined.


